(** * wolfictl, package [bundle]: a shallow embedding of [pkg/internal/bundle/bundle.go]

    The Go code is embedded as Rocq functions over strings, lists and finite
    maps.  Calls that can fail return an [outcome]: a value, an [error] (the
    Go [error] result) or a run-time panic.  Library calls whose code is not
    part of the package (registry access, quantity parsing, JSON text,
    archives, ...) are fields of classes ([ArchLib], [PodLib], [JsonLib],
    [RegistryLib], [ImageLib]) and the types of these libraries fields of
    [GoTypes], so that every statement about the package holds for whatever
    these libraries do.  The module [Reference] gives one instance of the
    libraries, on which the statements are run on examples. *)

From Stdlib Require Import ZArith Ascii String List Bool DecimalString.
From Corelib Require Import SpecFloat.
From stdpp Require Import base option list strings gmap fin_maps sorting.

Local Open Scope Z_scope.

(* ===================================================================== *)
(** ** Go strings *)
(* ===================================================================== *)

Module GoStrings.

(** [strings.HasPrefix]. *)
Fixpoint HasPrefix (s p : string) {struct p} : bool :=
  match p with
  | EmptyString => true
  | String a p' =>
      match s with
      | EmptyString => false
      | String b s' => if Ascii.eqb a b then HasPrefix s' p' else false
      end
  end.

(** [s[n:]] for [n <= len(s)]. *)
Fixpoint drop (n : nat) (s : string) : string :=
  match n, s with
  | O, _ => s
  | S n', String _ s' => drop n' s'
  | S _, EmptyString => EmptyString
  end.

(** [strings.Cut(s, sep)]: the text before and after the first instance of
    [sep]; when [sep] does not occur the result is [(s, "", false)]. *)
Fixpoint Cut (s sep : string) : string * string * bool :=
  if HasPrefix s sep then (EmptyString, drop (String.length sep) s, true)
  else match s with
       | EmptyString => (EmptyString, EmptyString, false)
       | String c r =>
           let '(before, after, found) := Cut r sep in
           (String c before, after, found)
       end.

(** [strings.ReplaceAll(s, old, new)] for a non-empty [old]. *)
Fixpoint ReplaceAll (s old new : string) (fuel : nat) : string :=
  match fuel with
  | O => s
  | S fuel' =>
      if HasPrefix s old then new +:+ ReplaceAll (drop (String.length old) s) old new fuel'
      else match s with
           | EmptyString => EmptyString
           | String c r => String c (ReplaceAll r old new fuel')
           end
  end.

(** [strings.ToLower] on a string of ASCII bytes: the letters byte by
    byte. *)
Definition lower_byte (c : ascii) : ascii :=
  let n := nat_of_ascii c in
  if (Nat.leb 65 n && Nat.leb n 90)%bool then ascii_of_nat (n + 32) else c.

Fixpoint ToLower (s : string) : string :=
  match s with
  | EmptyString => EmptyString
  | String c r => String (lower_byte c) (ToLower r)
  end.

(** Whether the byte [c] occurs in [s]. *)
Fixpoint has_byte (c : ascii) (s : string) : bool :=
  match s with
  | EmptyString => false
  | String d r => if Ascii.eqb c d then true else has_byte c r
  end.

End GoStrings.

(** No byte of [s] satisfies [p]. *)
Fixpoint noByte (p : ascii -> bool) (s : string) : bool :=
  match s with
  | EmptyString => true
  | String c r => if p c then false else noByte p r
  end.

(** A string of ASCII bytes only, the test by which [strings.ToLower]
    chooses between mapping bytes and mapping runes. *)
Definition isASCII (s : string) : bool :=
  noByte (fun c => Nat.leb 128 (nat_of_ascii c)) s.

(* ===================================================================== *)
(** ** Results of calls *)
(* ===================================================================== *)

(** The errors the package builds itself, and [ErrLib] for an error value
    handed back by a library call and returned unchanged. *)
Inductive error : Type :=
  | ErrGCSFuseSpec (s : string)
      (* gcsfuse mount spec should be in the form 'bucket[/onlydir]:/mount', got: %q *)
  | ErrUnexpectedArch (arch : string) (keys : list string)
      (* unexpected arch %q for entrypoints: %v *)
  | ErrNoManifests (pull : string)
      (* no manifests in bundle index: %s *)
  | ErrNoGraphLayers (digest pull : string)
      (* no graph layers in entry %s of bundle %s *)
  | ErrNoTasksLayers (digest pull : string)
      (* no tasks layers in entry %s of bundle %s *)
  | ErrParsingCPU (cpu : string) (cause : string)
      (* parsing cpu %q: %w *)
  | ErrTarNonRegular
      (* tar: cannot add non-regular file *)
  | ErrLib (e : string).

Inductive outcome (A : Type) : Type :=
  | Ok (a : A)
  | Err (e : error)
  | Panic (what : string).
Arguments Ok {A} a.
Arguments Err {A} e.
Arguments Panic {A} what.

#[global] Instance outcome_ret : MRet outcome := fun A a => Ok a.

#[global] Instance outcome_bind : MBind outcome := fun A B f x =>
  match x with
  | Ok a => f a
  | Err e => Err e
  | Panic w => Panic w
  end.

(* ===================================================================== *)
(** ** Mount spec parser *)
(* ===================================================================== *)

Record GCSFuseMount : Type := {
  Bucket : string;
  Mount : string;
  OnlyDir : string
}.

Definition ParseGCSFuseMount (s : string) : outcome GCSFuseMount :=
  let '(before, mount, ok) := GoStrings.Cut s ":" in
  if negb ok then Err (ErrGCSFuseSpec s)
  else
    let '(bucket, onlydir, _) := GoStrings.Cut before "/" in
    Ok {| Bucket := bucket; Mount := mount; OnlyDir := onlydir |}.

(* ===================================================================== *)
(** ** float64 and its decimal text *)
(* ===================================================================== *)

(** Go's [float64] is IEEE 754 binary64: [spec_float] with 53 bits of
    precision, rounding to nearest even. *)
Module Float64.

Definition prec : Z := 53.
Definition emax : Z := 1024.

Definition mul : spec_float -> spec_float -> spec_float := SFmul prec emax.

(** [x > y] on float64 (false when either side is NaN). *)
Definition gtb (x y : spec_float) : bool := SFltb y x.

(** The float64 nearest to the integer [z]. *)
Definition of_Z (z : Z) : spec_float := binary_normalize prec emax z 0 false.

(** The float64 nearest to [(-1)^neg * m * 10^e10]: how a decimal literal
    or a decimal text becomes a float64. *)
Definition of_decimal (neg : bool) (m : positive) (e10 : Z) : spec_float :=
  match e10 with
  | Zneg k =>
      SFdiv prec emax (S754_finite neg m 0)
                      (S754_finite false (Pos.pow 10 k) 0)
  | _ => binary_normalize prec emax (cond_Zopp neg (Zpos m * 10 ^ e10)) 0 false
  end.

(** [n] decimal digits of [v], most significant first. *)
Fixpoint digits_fixed (n : nat) (v : Z) : string :=
  match n with
  | O => EmptyString
  | S n' =>
      digits_fixed n' (v / 10)
        +:+ String (ascii_of_nat (48 + Z.to_nat (v mod 10))) EmptyString
  end.

Definition string_of_Z (z : Z) : string :=
  NilZero.string_of_int (Z.to_int z).

(** [|x| * 10^6] rounded to the nearest integer, ties to even, for a
    finite [x = m * 2^e]. *)
Definition micro (m : positive) (e : Z) : Z :=
  match e with
  | Zneg k =>
      let num := Zpos m * 1000000 in
      let den := Zpos (Pos.pow 2 k) in
      let q := num / den in
      match Z.compare (2 * (num mod den)) den with
      | Lt => q
      | Eq => if Z.even q then q else q + 1
      | Gt => q + 1
      end
  | _ => Zpos m * 2 ^ e * 1000000
  end.

Definition sign_text (neg : bool) : string := if neg then "-" else "".

(** [fmt.Sprintf("%f", x)]: six digits after the point. *)
Definition format_f (x : spec_float) : string :=
  match x with
  | S754_nan => "NaN"
  | S754_infinity neg => if neg then "-Inf" else "+Inf"
  | S754_zero neg => sign_text neg +:+ "0.000000"
  | S754_finite neg m e =>
      let u := micro m e in
      sign_text neg +:+ string_of_Z (u / 1000000) +:+ "."
        +:+ digits_fixed 6 (u mod 1000000)
  end.

End Float64.

(** [const MaxArmCore = 48], used as a float64. *)
Definition MaxArmCore : spec_float := Float64.of_Z 48.

(** The constant [0.98] of [cpu *= 0.98], as a float64. *)
Definition packing_factor : spec_float := Float64.of_decimal false 98 (-2).

(* ===================================================================== *)
(** ** Library calls *)
(* ===================================================================== *)

(** What a library call with a Go result [(T, error)] hands back. *)
Inductive goresult (A : Type) : Type :=
  | Val (a : A)
  | Fail (e : string).
Arguments Val {A} a.
Arguments Fail {A} e.

(** A failed library call is returned to the caller as it is. *)
Definition lift {A : Type} (r : goresult A) : outcome A :=
  match r with
  | Val a => Ok a
  | Fail e => Err (ErrLib e)
  end.

(** [ParseArchitecture arch] is [types.ParseArchitecture(arch)], an
    [Architecture], which is a string. *)
Class ArchLib : Type := {
  ParseArchitecture : string -> string
}.

(** The types of the libraries the data of the package is made of:
    [Quantity] is [resource.Quantity], [Time] is [time.Time] and [Edge]
    is [graph.Edge[string]]. *)
Class GoTypes : Type := {
  Quantity : Type;
  Time : Type;
  Edge : Type
}.

(** The other libraries [Podspec] calls:
    - [ParseFloat s] is [strconv.ParseFloat(s, 64)];
    - [MustParse s] is [resource.MustParse(s)], [None] when it panics;
    - [Unix t] is [t.Unix()] for a [time.Time];
    - [ToLowerRunes s] is [strings.ToLower(s)] for an [s] with a byte
      outside ASCII, which is mapped rune by rune with the tables of
      package [unicode]. *)
Class PodLib `{GoTypes} `{ArchLib} : Type := {
  ParseFloat : string -> goresult spec_float;
  MustParse : string -> option Quantity;
  Unix : Time -> Z;
  ToLowerRunes : string -> string
}.

(* ===================================================================== *)
(** ** Tasks *)
(* ===================================================================== *)

(** Modelled from the spec: [config.Resources] of the build tool, of which
    the spec names the fields cpu and memory. *)
Record Resources : Type := {
  CPU : string;
  Memory : string
}.

Record Task `{GoTypes} : Type := {
  Package : string;
  Version : string;
  Epoch : Z;
  Path : string;
  SourceDir : string;
  Architectures : list string;
  Subpackages : list string;
  TaskResources : option Resources;
  BuildDateEpoch : Time
}.

(* ===================================================================== *)
(** ** Pod specification *)
(* ===================================================================== *)

Record Toleration : Type := {
  Effect : string;
  Key : string;
  Operator : string;
  Value : string
}.

Record ResourceRequirements `{GoTypes} : Type := {
  Limits : gmap string Quantity;
  Requests : gmap string Quantity
}.

Record EnvVar : Type := { EnvName : string; EnvValue : string }.

Record VolumeMount : Type := { VolumeMountName : string; MountPath : string }.

Record SecurityContext : Type := { Privileged : option bool }.

Record Container `{GoTypes} : Type := {
  ContainerName : string;
  ContainerImage : string;
  Env : list EnvVar;
  Args : list string;
  ContainerResources : ResourceRequirements;
  VolumeMounts : list VolumeMount;
  ContainerSecurityContext : option SecurityContext
}.

Record NodeSelectorRequirement : Type := {
  ReqKey : string;
  ReqOperator : string;
  ReqValues : list string
}.

Record NodeSelectorTerm : Type := {
  MatchExpressions : list NodeSelectorRequirement
}.

(** [Affinity.NodeAffinity.RequiredDuringSchedulingIgnoredDuringExecution]:
    the only part of an affinity the package fills in. *)
Record Affinity : Type := {
  RequiredNodeSelectorTerms : list NodeSelectorTerm
}.

Record Volume : Type := { VolumeName : string; EmptyDir : bool }.

Record PodSpec `{GoTypes} : Type := {
  TerminationGracePeriodSeconds : option Z;
  Containers : list Container;
  RestartPolicy : string;
  AutomountServiceAccountToken : option bool;
  NodeSelector : gmap string string;
  Tolerations : list Toleration;
  ServiceAccountName : string;
  SeccompProfileType : option string;
  Volumes : list Volume;
  PodAffinity : option Affinity
}.

Record Pod `{GoTypes} : Type := {
  Kind : string;
  APIVersion : string;
  GenerateName : string;
  Namespace : string;
  Labels : gmap string string;
  Annotations : gmap string string;
  Spec : PodSpec
}.

Section Podspec.
Context {T : GoTypes} {A : ArchLib} {L : PodLib}.

(** [strings.ToLower(s)]. *)
Definition strings_ToLower (s : string) : string :=
  if isASCII s then GoStrings.ToLower s else ToLowerRunes s.

(** escapeRFC1123 escapes a string to be RFC1123 compliant. *)
Definition escapeRFC1123 (s : string) : string :=
  strings_ToLower
    (GoStrings.ReplaceAll
       (GoStrings.ReplaceAll s "." "-" (String.length s))
       "_" "-" (String.length s)).

(** The resource requests before any adjustment: the defaults, with each
    field replaced by the task's value when that is not empty. *)
Definition resolveResources (task : Task) : Resources :=
  let resources := {| CPU := "2"; Memory := "4Gi" |} in
  match TaskResources task with
  | Some ri =>
      let resources :=
        if String.eqb (CPU ri) "" then resources
        else {| CPU := CPU ri; Memory := Memory resources |} in
      if String.eqb (Memory ri) "" then resources
      else {| CPU := CPU resources; Memory := Memory ri |}
  | None => resources
  end.

(** The cap on arm64 and the 2% reduction. *)
Definition adjustCPU (goarch : string) (cpu : spec_float) : spec_float :=
  let cpu :=
    if (String.eqb goarch "arm64" && Float64.gtb cpu MaxArmCore)%bool
    then MaxArmCore else cpu in
  Float64.mul cpu packing_factor.

(** [resource.MustParse], which panics on a text that is no quantity. *)
Definition mustParse (s : string) : outcome Quantity :=
  match MustParse s with
  | Some q => Ok q
  | None => Panic "cannot parse quantity"
  end.

Definition builderToleration : Toleration :=
  {| Effect := "NoSchedule"; Key := "chainguard.dev/runner";
     Operator := "Equal"; Value := "bundle-builder" |}.

Definition armToleration : Toleration :=
  {| Effect := "NoSchedule"; Key := "kubernetes.io/arch";
     Operator := "Equal"; Value := "arm64" |}.

Definition machineFamilyAffinity (mf : string) : Affinity :=
  {| RequiredNodeSelectorTerms :=
       [ {| MatchExpressions :=
              [ {| ReqKey := "cloud.google.com/machine-family";
                   ReqOperator := "In";
                   ReqValues := [mf] |} ] |} ] |}.

(** [Podspec(task, ref, arch, mFamily, sa, ns)]; [ref] is the text
    [ref.String()] of the image reference. *)
Definition Podspec (task : Task) (ref arch mFamily sa ns : string) : outcome Pod :=
  let goarch := ParseArchitecture arch in
  let resources := resolveResources task in
  match ParseFloat (CPU resources) with
  | Fail e => Err (ErrParsingCPU (CPU resources) e)
  | Val cpu =>
      let resources :=
        {| CPU := Float64.format_f (adjustCPU goarch cpu);
           Memory := Memory resources |} in
      qcpu ← mustParse (CPU resources);
      qmem ← mustParse (Memory resources);
      let rr :=
        {| Limits := ∅;
           Requests := <["memory" := qmem]> (<["cpu" := qcpu]> ∅) |} in
      let t := [builderToleration] in
      let mf := mFamily in
      let '(mf, t) :=
        if String.eqb goarch "arm64" then ("t2a", t ++ [armToleration])
        else (mf, t) in
      Ok {|
        Kind := "Pod";
        APIVersion := "v1";
        GenerateName := escapeRFC1123 (Package task) +:+ "-" +:+ goarch +:+ "-";
        Namespace := ns;
        Labels :=
          <["melange.chainguard.dev/package" := Package task]>
            (<["melange.chainguard.dev/arch" := goarch]>
               (<["app.kubernetes.io/component" := Package task]>
                  (<["kubernetes.io/arch" := goarch]> ∅)));
        Annotations := ∅;
        Spec := {|
          TerminationGracePeriodSeconds := Some 0;
          Containers :=
            [ {| ContainerName := "workspace";
                 ContainerImage := ref;
                 Env := [ {| EnvName := "SOURCE_DATE_EPOCH";
                             EnvValue := Float64.string_of_Z
                                           (Unix (BuildDateEpoch task)) |} ];
                 Args := [Path task; SourceDir task];
                 ContainerResources := rr;
                 VolumeMounts :=
                   [ {| VolumeMountName := "tmp-dir-bundle-builder";
                        MountPath := "/tmp" |} ];
                 ContainerSecurityContext :=
                   Some {| Privileged := Some true |} |} ];
          RestartPolicy := "Never";
          AutomountServiceAccountToken := Some false;
          NodeSelector := <["kubernetes.io/arch" := goarch]> ∅;
          Tolerations := t;
          ServiceAccountName := sa;
          SeccompProfileType := Some "RuntimeDefault";
          Volumes := [ {| VolumeName := "tmp-dir-bundle-builder";
                          EmptyDir := true |} ];
          PodAffinity :=
            if String.eqb mf "" then None
            else Some (machineFamilyAffinity mf)
        |}
      |}
  end.

End Podspec.

(* ===================================================================== *)
(** ** JSON documents and the tasks layer *)
(* ===================================================================== *)

#[global] Instance goresult_ret : MRet goresult := fun A a => Val a.

#[global] Instance goresult_bind : MBind goresult := fun A B f x =>
  match x with
  | Val a => f a
  | Fail e => Fail e
  end.

(** A JSON value.  [JNumber] is a number written as an integer, [JReal] any
    other number (kept as its text). *)
#[warnings="-register-all"]
Inductive json : Type :=
  | JNull
  | JBool (b : bool)
  | JNumber (n : Z)
  | JReal (text : string)
  | JString (s : string)
  | JArray (items : list json)
  | JObject (members : list (string * json)).

(** What [encoding/json] and [time] do below the level of JSON values:
    - [jsonDecode r] is [json.NewDecoder(r).Decode], up to the JSON value
      it has read from the stream [r];
    - [jsonEncode v] is the text [json.Marshal] writes for the value [v];
    - [timeMarshalJSON] and [timeUnmarshalJSON] are the two methods of
      [time.Time], on the text between the quotes;
    - [zeroTime] is the zero [time.Time]. *)
Class JsonLib `{GoTypes} : Type := {
  jsonDecode : string -> goresult json;
  jsonEncode : json -> string;
  timeMarshalJSON : Time -> goresult string;
  timeUnmarshalJSON : string -> goresult Time;
  zeroTime : Time
}.

Section TaskJSON.
Context {T : GoTypes} {J : JsonLib}.

(** [foldName] of [encoding/json]: a name up to case.  The ASCII letters
    are put in upper case, and so are the Kelvin sign (U+212A, the bytes
    E2 84 AA) and the long s (U+017F, the bytes C5 BF), the two letters
    outside ASCII that are an ASCII letter up to case; every other byte is
    kept (the letters outside ASCII are folded among themselves, which no
    comparison with the ASCII names of the fields can see). *)
Fixpoint foldName (s : string) : string :=
  match s with
  | EmptyString => EmptyString
  | String c r =>
      let n := nat_of_ascii c in
      let plain :=
        String (if (Nat.leb 97 n && Nat.leb n 122)%bool
                then ascii_of_nat (n - 32) else c) (foldName r) in
      if Nat.eqb n 226 then
        match r with
        | String c1 (String c2 r2) =>
            if (Nat.eqb (nat_of_ascii c1) 132
                && Nat.eqb (nat_of_ascii c2) 170)%bool
            then String "K" (foldName r2) else plain
        | _ => plain
        end
      else if Nat.eqb n 197 then
        match r with
        | String c1 r1 =>
            if Nat.eqb (nat_of_ascii c1) 191
            then String "S" (foldName r1) else plain
        | _ => plain
        end
      else plain
  end.

(** The field a member name selects: the one spelled the same, else the
    first one equal to it up to case. *)
Definition findField (names : list string) (key : string) : option string :=
  match List.find (String.eqb key) names with
  | Some n => Some n
  | None =>
      List.find (fun n => String.eqb (foldName n) (foldName key)) names
  end.

Definition decodeString (old : string) (v : json) : goresult string :=
  match v with
  | JString s => Val s
  | JNull => Val old
  | _ => Fail "json: cannot unmarshal into Go value of type string"
  end.

Definition decodeUint64 (old : Z) (v : json) : goresult Z :=
  match v with
  | JNumber n =>
      if (Z.leb 0 n && Z.ltb n (2 ^ 64))%bool then Val n
      else Fail "json: cannot unmarshal number into Go value of type uint64"
  | JNull => Val old
  | _ => Fail "json: cannot unmarshal into Go value of type uint64"
  end.

(** The elements of a JSON array stored into a slice whose array holds
    [old]: each one is stored over the string the array has at its place
    (the empty string past its end), which a [null] leaves as it is. *)
Fixpoint decodeStrings (old : list string) (vs : list json)
    : goresult (list string) :=
  match vs with
  | [] => Val []
  | v :: r =>
      s ← decodeString (default EmptyString (head old)) v;
      ss ← decodeStrings (tail old) r;
      Val (s :: ss)
  end.

(** A JSON value stored into a slice of strings with the elements [elems],
    whose array holds [spare] after them: the new elements and what the
    array holds after them.  An array reuses the array of the slice, an
    empty array and [null] leave a slice without array. *)
Definition decodeStringSlice (elems spare : list string) (v : json)
    : goresult (list string * list string) :=
  match v with
  | JArray [] => Val ([], [])
  | JArray vs =>
      ss ← decodeStrings (elems ++ spare) vs;
      Val (ss, drop (length vs) (elems ++ spare))
  | JNull => Val ([], [])
  | _ => Fail "json: cannot unmarshal into Go value of type []string"
  end.

(** The members of an object, one after the other, each stored into the
    value decoded so far. *)
Fixpoint decodeMembers {A : Type} (set : A -> string -> json -> goresult A)
    (a : A) (ms : list (string * json)) : goresult A :=
  match ms with
  | [] => Val a
  | (k, v) :: r => a' ← set a k v; decodeMembers set a' r
  end.

Definition setResourcesField (r : Resources) (key : string) (v : json)
    : goresult Resources :=
  match findField ["cpu"; "memory"] key with
  | Some f =>
      if String.eqb f "cpu" then
        c ← decodeString (CPU r) v; Val {| CPU := c; Memory := Memory r |}
      else
        m ← decodeString (Memory r) v; Val {| CPU := CPU r; Memory := m |}
  | None => Val r
  end.

Definition decodeResources (old : option Resources) (v : json)
    : goresult (option Resources) :=
  match v with
  | JNull => Val None
  | JObject ms =>
      r ← decodeMembers setResourcesField
            (default {| CPU := ""; Memory := "" |} old) ms;
      Val (Some r)
  | _ => Fail "json: cannot unmarshal into Go value of type config.Resources"
  end.

Definition decodeTime (old : Time) (v : json) : goresult Time :=
  match v with
  | JString s => timeUnmarshalJSON s
  | JNull => Val old
  | _ => Fail "Time.UnmarshalJSON: input is not a JSON string"
  end.

(** The member names of [Task], from its struct tags. *)
Definition taskFields : list string :=
  [ "package"; "version"; "epoch"; "path"; "sourceDir"; "architectures";
    "subpackages"; "resources"; "buildDateEpoch" ].

(** A [Task] while it is decoded: the task, and what the arrays of its two
    slices hold after their elements. *)
Record TaskState : Type := {
  Decoded : Task;
  ArchitecturesSpare : list string;
  SubpackagesSpare : list string
}.

(** The state with another task and the same arrays. *)
Definition withTask (st : TaskState) (t : Task) : TaskState :=
  {| Decoded := t; ArchitecturesSpare := ArchitecturesSpare st;
     SubpackagesSpare := SubpackagesSpare st |}.

Definition setTaskField (st : TaskState) (key : string) (v : json)
    : goresult TaskState :=
  let t := Decoded st in
  match findField taskFields key with
  | None => Val st
  | Some f =>
      if String.eqb f "package" then
        x ← decodeString (Package t) v;
        Val (withTask st
               {| Package := x; Version := Version t; Epoch := Epoch t;
                  Path := Path t; SourceDir := SourceDir t;
                  Architectures := Architectures t;
                  Subpackages := Subpackages t;
                  TaskResources := TaskResources t;
                  BuildDateEpoch := BuildDateEpoch t |})
      else if String.eqb f "version" then
        x ← decodeString (Version t) v;
        Val (withTask st
               {| Package := Package t; Version := x; Epoch := Epoch t;
                  Path := Path t; SourceDir := SourceDir t;
                  Architectures := Architectures t;
                  Subpackages := Subpackages t;
                  TaskResources := TaskResources t;
                  BuildDateEpoch := BuildDateEpoch t |})
      else if String.eqb f "epoch" then
        x ← decodeUint64 (Epoch t) v;
        Val (withTask st
               {| Package := Package t; Version := Version t; Epoch := x;
                  Path := Path t; SourceDir := SourceDir t;
                  Architectures := Architectures t;
                  Subpackages := Subpackages t;
                  TaskResources := TaskResources t;
                  BuildDateEpoch := BuildDateEpoch t |})
      else if String.eqb f "path" then
        x ← decodeString (Path t) v;
        Val (withTask st
               {| Package := Package t; Version := Version t; Epoch := Epoch t;
                  Path := x; SourceDir := SourceDir t;
                  Architectures := Architectures t;
                  Subpackages := Subpackages t;
                  TaskResources := TaskResources t;
                  BuildDateEpoch := BuildDateEpoch t |})
      else if String.eqb f "sourceDir" then
        x ← decodeString (SourceDir t) v;
        Val (withTask st
               {| Package := Package t; Version := Version t; Epoch := Epoch t;
                  Path := Path t; SourceDir := x;
                  Architectures := Architectures t;
                  Subpackages := Subpackages t;
                  TaskResources := TaskResources t;
                  BuildDateEpoch := BuildDateEpoch t |})
      else if String.eqb f "architectures" then
        '(x, spare) ← decodeStringSlice (Architectures t)
                        (ArchitecturesSpare st) v;
        Val {| Decoded :=
                 {| Package := Package t; Version := Version t;
                    Epoch := Epoch t; Path := Path t;
                    SourceDir := SourceDir t;
                    Architectures := x; Subpackages := Subpackages t;
                    TaskResources := TaskResources t;
                    BuildDateEpoch := BuildDateEpoch t |};
               ArchitecturesSpare := spare;
               SubpackagesSpare := SubpackagesSpare st |}
      else if String.eqb f "subpackages" then
        '(x, spare) ← decodeStringSlice (Subpackages t)
                        (SubpackagesSpare st) v;
        Val {| Decoded :=
                 {| Package := Package t; Version := Version t;
                    Epoch := Epoch t; Path := Path t;
                    SourceDir := SourceDir t;
                    Architectures := Architectures t; Subpackages := x;
                    TaskResources := TaskResources t;
                    BuildDateEpoch := BuildDateEpoch t |};
               ArchitecturesSpare := ArchitecturesSpare st;
               SubpackagesSpare := spare |}
      else if String.eqb f "resources" then
        x ← decodeResources (TaskResources t) v;
        Val (withTask st
               {| Package := Package t; Version := Version t; Epoch := Epoch t;
                  Path := Path t; SourceDir := SourceDir t;
                  Architectures := Architectures t;
                  Subpackages := Subpackages t;
                  TaskResources := x;
                  BuildDateEpoch := BuildDateEpoch t |})
      else
        x ← decodeTime (BuildDateEpoch t) v;
        Val (withTask st
               {| Package := Package t; Version := Version t; Epoch := Epoch t;
                  Path := Path t; SourceDir := SourceDir t;
                  Architectures := Architectures t;
                  Subpackages := Subpackages t;
                  TaskResources := TaskResources t;
                  BuildDateEpoch := x |})
  end.

(** The zero [Task]. *)
Definition zeroTask : Task :=
  {| Package := ""; Version := ""; Epoch := 0; Path := ""; SourceDir := "";
     Architectures := []; Subpackages := []; TaskResources := None;
     BuildDateEpoch := zeroTime |}.

(** A JSON value stored into a new element of [[]Task]. *)
Definition decodeTask (v : json) : goresult Task :=
  match v with
  | JObject ms =>
      st ← decodeMembers setTaskField
             {| Decoded := zeroTask; ArchitecturesSpare := [];
                SubpackagesSpare := [] |} ms;
      Val (Decoded st)
  | JNull => Val zeroTask
  | _ => Fail "json: cannot unmarshal into Go value of type bundle.Task"
  end.

Fixpoint decodeTaskItems (vs : list json) : goresult (list Task) :=
  match vs with
  | [] => Val []
  | v :: r =>
      t ← decodeTask v;
      ts ← decodeTaskItems r;
      Val (t :: ts)
  end.

(** A JSON value stored into [var tasks []Task]. *)
Definition unmarshalTasks (v : json) : goresult (list Task) :=
  match v with
  | JArray vs => decodeTaskItems vs
  | JNull => Val []
  | _ => Fail "json: cannot unmarshal into Go value of type []bundle.Task"
  end.

(** [json.NewDecoder(rc).Decode(&tasks)] of [Pull]. *)
Definition decodeTasks (rc : string) : goresult (list Task) :=
  v ← jsonDecode rc; unmarshalTasks v.

(** A member left out when its value is empty ([omitempty]). *)
Definition optMember (key : string) (empty : bool) (v : json)
    : list (string * json) :=
  if empty then [] else [(key, v)].

(** Modelled from the spec: the writer of the tasks layer, which is not in
    this package.  The spec has the tasks as an array of Task objects with
    the members package, version, epoch, path, sourceDir, architectures,
    subpackages, resources (cpu, memory) and buildDateEpoch, the optional
    ones left out when empty; which ones are optional is what the struct
    tags of [Task] say. *)
Definition marshalResources (r : Resources) : json :=
  JObject (optMember "cpu" (String.eqb (CPU r) "") (JString (CPU r))
           ++ optMember "memory" (String.eqb (Memory r) "") (JString (Memory r))).

Definition isNil {A : Type} (l : list A) : bool :=
  match l with [] => true | _ => false end.

Definition marshalTask (t : Task) : goresult json :=
  time ← timeMarshalJSON (BuildDateEpoch t);
  Val (JObject
         ([ ("package", JString (Package t));
            ("version", JString (Version t));
            ("epoch", JNumber (Epoch t)) ]
          ++ optMember "path" (String.eqb (Path t) "") (JString (Path t))
          ++ optMember "sourceDir" (String.eqb (SourceDir t) "")
               (JString (SourceDir t))
          ++ optMember "architectures" (isNil (Architectures t))
               (JArray (map JString (Architectures t)))
          ++ optMember "subpackages" (isNil (Subpackages t))
               (JArray (map JString (Subpackages t)))
          ++ match TaskResources t with
             | Some r => [("resources", marshalResources r)]
             | None => []
             end
          ++ [ ("buildDateEpoch", JString time) ])).

Fixpoint marshalTaskItems (ts : list Task) : goresult (list json) :=
  match ts with
  | [] => Val []
  | t :: r =>
      v ← marshalTask t;
      vs ← marshalTaskItems r;
      Val (v :: vs)
  end.

Definition marshalTasks (ts : list Task) : goresult json :=
  vs ← marshalTaskItems ts; Val (JArray vs).

(** The bytes of the tasks layer. *)
Definition encodeTasks (ts : list Task) : goresult string :=
  v ← marshalTasks ts; Val (jsonEncode v).

End TaskJSON.

(* ===================================================================== *)
(** ** Images, indexes and the registry *)
(* ===================================================================== *)

(** [v1.Hash] and its text [Algorithm:Hex]. *)
Record Hash : Type := { Algorithm : string; Hex : string }.

Definition Hash_String (h : Hash) : string := Algorithm h +:+ ":" +:+ Hex h.

#[global] Instance Hash_eq_dec : EqDecision Hash.
Proof. solve_decision. Defined.

Record Platform : Type := {
  Architecture : string;
  OS : string;
  Variant : string
}.

(** [v1.Descriptor]; [Platform] is a pointer and may be nil. *)
Record Descriptor : Type := {
  Digest : Hash;
  DescPlatform : option Platform;
  DescAnnotations : gmap string string
}.

(** [v1.Layer]: [Compressed] is the content of the stream [Compressed()]
    opens, or the error of opening it. *)
Record Layer : Type := { Compressed : goresult string }.

Record ConfigFile : Type := {
  ConfigEntrypoint : list string;
  ConfigWorkingDir : string;
  ConfigOther : list (string * string)
}.

(** [v1.Image], by what its methods return. *)
Record Image : Type := {
  Layers : goresult (list Layer);
  GetConfigFile : goresult ConfigFile;
  MediaType : string
}.

Record IndexManifest : Type := { Manifests : list Descriptor }.

(** [v1.ImageIndex], by what its methods return. *)
Record ImageIndex : Type := {
  GetIndexManifest : goresult IndexManifest;
  GetImage : Hash -> goresult Image
}.

(** [name.Reference], of which [Pull] uses the repository [Context()]. *)
Record Reference : Type := { Context : string; Identifier : string }.

(** [name.Digest]: a repository and a digest text. *)
Record NameDigest : Type := { DigestRepository : string; DigestText : string }.

(** [Repository.Digest(identifier)]. *)
Definition Repository_Digest (repo identifier : string) : NameDigest :=
  {| DigestRepository := repo; DigestText := identifier |}.

(** The registry client and the decoder of the graph document:
    - [ParseReference] is [name.ParseReference];
    - [remoteIndex] is [remote.Index] with the keychain and user agent
      [Pull] passes;
    - [decodeGraph rc] is [json.NewDecoder(rc).Decode(&g)] for
      [var g Graph]. *)
Class RegistryLib `{GoTypes} : Type := {
  ParseReference : string -> goresult Reference;
  remoteIndex : Reference -> goresult ImageIndex;
  decodeGraph : string -> goresult (gmap string (gmap string Edge))
}.

Record Bundles `{GoTypes} : Type := {
  Graph : gmap string (gmap string Edge);
  Tasks : list Task;
  Runtime : NameDigest
}.

Section Pull.
Context {T : GoTypes} {J : JsonLib} {R : RegistryLib}.

(** [&Bundles{}]. *)
Definition zeroBundles : Bundles :=
  {| Graph := ∅; Tasks := []; Runtime := Repository_Digest "" "" |}.

(** [desc.Annotations["dev.wolfi.bundle"]]. *)
Definition bundleAnnotation (desc : Descriptor) : string :=
  default "" (DescAnnotations desc !! "dev.wolfi.bundle").

(** The body of the loop of [Pull] over the manifests. *)
Definition pullManifest (pull : string) (ref : Reference) (idx : ImageIndex)
    (bundles : Bundles) (desc : Descriptor) : outcome Bundles :=
  let kind := bundleAnnotation desc in
  if String.eqb kind "graph" then
    img ← lift (GetImage idx (Digest desc));
    layers ← lift (Layers img);
    match layers with
    | [] => Err (ErrNoGraphLayers (Hash_String (Digest desc)) pull)
    | layer0 :: _ =>
        rc ← lift (Compressed layer0);
        g ← lift (decodeGraph rc);
        Ok {| Graph := g; Tasks := Tasks bundles; Runtime := Runtime bundles |}
    end
  else if String.eqb kind "tasks" then
    img ← lift (GetImage idx (Digest desc));
    layers ← lift (Layers img);
    match layers with
    | [] => Err (ErrNoTasksLayers (Hash_String (Digest desc)) pull)
    | layer0 :: _ =>
        rc ← lift (Compressed layer0);
        tasks ← lift (decodeTasks rc);
        Ok {| Graph := Graph bundles; Tasks := tasks; Runtime := Runtime bundles |}
    end
  else if String.eqb kind "runtime" then
    Ok {| Graph := Graph bundles; Tasks := Tasks bundles;
          Runtime := Repository_Digest (Context ref) (Hash_String (Digest desc)) |}
  else Ok bundles.

Fixpoint pullManifests (pull : string) (ref : Reference) (idx : ImageIndex)
    (bundles : Bundles) (descs : list Descriptor) : outcome Bundles :=
  match descs with
  | [] => Ok bundles
  | desc :: rest =>
      bundles' ← pullManifest pull ref idx bundles desc;
      pullManifests pull ref idx bundles' rest
  end.

Definition Pull (pull : string) : outcome Bundles :=
  ref ← lift (ParseReference pull);
  idx ← lift (remoteIndex ref);
  im ← lift (GetIndexManifest idx);
  if Nat.eqb (length (Manifests im)) 0 then Err (ErrNoManifests pull)
  else pullManifests pull ref idx zeroBundles (Manifests im).

End Pull.

(* ===================================================================== *)
(** ** Entrypoint script *)
(* ===================================================================== *)

(** [GCSFuseMounts] is a slice of pointers: [None] is a nil pointer. *)
Record Entrypoint : Type := {
  Flags : list string;
  GCSFuseMounts : list (option GCSFuseMount)
}.

Definition nl : string := String (ascii_of_nat 10) EmptyString.
Definition dquote : string := String (ascii_of_nat 34) EmptyString.

(** The text of [entrypointTemplate] before the mounts. *)
Definition templateHead : string :=
  "# generated by wolfictl bundle" +:+ nl +:+
  "set -eux" +:+ nl +:+
  nl.

(** The body of [{{ range .GCSFuseMounts }}] for one mount. *)
Definition templateMount (m : GCSFuseMount) : string :=
  nl +:+
  "mkdir -p " +:+ Mount m +:+ nl +:+
  "gcsfuse -o ro --implicit-dirs "
    +:+ (if String.eqb (OnlyDir m) "" then ""
         else " --only-dir " +:+ OnlyDir m +:+ " ")
    +:+ " " +:+ Bucket m +:+ " " +:+ Mount m +:+ nl.

(** The text between the mounts and the flags. *)
Definition templateBuild : string :=
  nl +:+
  nl +:+
  "# TODO: Should this be in the bundle?" +:+ nl +:+
  "melange keygen local-melange.rsa" +:+ nl +:+
  nl +:+
  "# Generate this source-dir in case it doesn't exist." +:+ nl +:+
  "# TODO: We shouldn't need this." +:+ nl +:+
  "mkdir -p $2" +:+ nl +:+
  nl +:+
  "melange build $1 \" +:+ nl +:+
  " --gcplog \" +:+ nl +:+
  " --source-dir $2 \" +:+ nl.

(** The body of [{{ range .Flags }}] for one flag. *)
Definition templateFlag (flag : string) : string :=
  " " +:+ flag +:+ " \" +:+ nl.

(** The text after the flags. *)
Definition templateTail : string :=
  nl +:+
  nl +:+
  "tar -C packages -czvf packages.tar.gz ." +:+ nl +:+
  nl +:+
  "# TODO: Content-Type" +:+ nl +:+
  "curl --upload-file packages.tar.gz -H " +:+ dquote
    +:+ "Content-Type: application/octet-stream" +:+ dquote
    +:+ " $PACKAGES_UPLOAD_URL" +:+ nl +:+
  nl +:+
  "sha256sum packages.tar.gz" +:+ nl +:+
  "sha256sum packages.tar.gz | cut -d' ' -f1 > /dev/termination-log" +:+ nl.

Fixpoint concatStrings (l : list string) : string :=
  match l with
  | [] => EmptyString
  | x :: r => x +:+ concatStrings r
  end.

Fixpoint renderMounts (ms : list (option GCSFuseMount)) : goresult string :=
  match ms with
  | [] => Val EmptyString
  | None :: _ => Fail "nil pointer evaluating *bundle.GCSFuseMount.Mount"
  | Some m :: r => rest ← renderMounts r; Val (templateMount m +:+ rest)
  end.

(** [entrypointTmpl.Execute(&ebuf, entrypoint)]: the text written to the
    buffer, or the error of the template engine on a nil pointer. *)
Definition executeTemplate (entrypoint : option Entrypoint) : goresult string :=
  match entrypoint with
  | None => Fail "nil pointer evaluating *bundle.Entrypoint.GCSFuseMounts"
  | Some e =>
      mounts ← renderMounts (GCSFuseMounts e);
      Val (templateHead +:+ mounts +:+ templateBuild
           +:+ concatStrings (map templateFlag (Flags e)) +:+ templateTail)
  end.

(* ===================================================================== *)
(** ** Tar streams and file trees *)
(* ===================================================================== *)

Inductive Typeflag : Type := TypeUnset | TypeReg | TypeDir.

(** [tar.Header]; [HdrSys] stands for the fields [tar.FileInfoHeader]
    takes from the system information of a file (owner, group, ...). *)
Record Header : Type := {
  HdrName : string;
  HdrMode : Z;
  HdrSize : Z;
  HdrModTime : Z;
  HdrTypeflag : Typeflag;
  HdrSys : string
}.

(** What a [tar.Writer] has been given: headers, each with the bytes
    written after it. *)
Record TarEntry : Type := { Hdr : Header; Body : string }.

(** [tw.WriteHeader(h)].  What the writer refuses (a header it cannot
    encode, bytes missing from the entry before) is reported when the
    archive is closed, by [tarBytes] below. *)
Definition WriteHeader (tw : list TarEntry) (h : Header) : list TarEntry :=
  tw ++ [ {| Hdr := h; Body := EmptyString |} ].

(** [tw.Write(data)]: more bytes for the entry of the last header. *)
Definition Write (tw : list TarEntry) (data : string) : list TarEntry :=
  alter (fun e => {| Hdr := Hdr e; Body := Body e +:+ data |})
        (Nat.pred (length tw)) tw.

(** [fs.FileInfo] of a file or directory. *)
Record FileInfo : Type := {
  InfoSize : Z;
  InfoPerm : Z;
  InfoModTime : Z;
  InfoIsRegular : bool;
  InfoSys : string
}.

(** An [fs.FS] seen from a path that exists: a file with what [Open] and
    reading it give, or a directory with what [fs.ReadDir] gives, the
    entries by name in the order [fs.ReadDir] returns them (sorted by
    filename).  [Info] is what [d.Info()] gives, and for the root of a
    walk what [fs.Stat] gives. *)
#[warnings="-register-all"]
Inductive Node : Type :=
  | File (info : goresult FileInfo) (content : goresult string)
  | Dir (info : goresult FileInfo) (entries : goresult (list (string * Node))).

Definition Info (n : Node) : goresult FileInfo :=
  match n with File i _ => i | Dir i _ => i end.

Definition IsDir (n : Node) : bool :=
  match n with File _ _ => false | Dir _ _ => true end.

(** [path.Join(dir, name)] as [fs.WalkDir] uses it. *)
Definition pathJoin (dir name : string) : string :=
  if String.eqb dir "." then name else dir +:+ "/" +:+ name.

(** [tar.FileInfoHeader(info, "")] for a directory or a regular file. *)
Definition FileInfoHeader (isDir : bool) (info : FileInfo) : Header :=
  {| HdrName := EmptyString;
     HdrMode := InfoPerm info;
     HdrSize := if isDir then 0 else InfoSize info;
     HdrModTime := InfoModTime info;
     HdrTypeflag := if isDir then TypeDir else TypeReg;
     HdrSys := InfoSys info |}.

(** The function [tarAddFS] passes to [fs.WalkDir], for an entry whose
    [ReadDir] or [Stat] has not failed. *)
Definition tarAddEntry (tw : list TarEntry) (name : string) (d : Node)
    : outcome (list TarEntry) :=
  if String.eqb name "." then Ok tw
  else
    info ← lift (Info d);
    if (negb (IsDir d) && negb (InfoIsRegular info))%bool
    then Err ErrTarNonRegular
    else
      let h := FileInfoHeader (IsDir d) info in
      let h := {| HdrName := name; HdrMode := HdrMode h; HdrSize := HdrSize h;
                  HdrModTime := HdrModTime h; HdrTypeflag := HdrTypeflag h;
                  HdrSys := HdrSys h |} in
      let tw := WriteHeader tw h in
      match d with
      | Dir _ _ => Ok tw
      | File _ content => f ← lift content; Ok (Write tw f)
      end.

(** [fs.WalkDir(fsys, name, fn)] with the function above: the entry, then
    for a directory its entries in the order of [fs.ReadDir]; the first
    error ends the walk. *)
Fixpoint walkDir (tw : list TarEntry) (name : string) (d : Node)
    : outcome (list TarEntry) :=
  match tarAddEntry tw name d with
  | Ok tw =>
      match d with
      | File _ _ => Ok tw
      | Dir _ (Fail e) => Err (ErrLib e)
      | Dir _ (Val es) =>
          (fix walkEntries (es : list (string * Node)) (tw : list TarEntry)
             : outcome (list TarEntry) :=
             match es with
             | [] => Ok tw
             | (n, c) :: rest =>
                 match walkDir tw (pathJoin name n) c with
                 | Ok tw => walkEntries rest tw
                 | Err e => Err e
                 | Panic w => Panic w
                 end
             end) es tw
      end
  | Err e => Err e
  | Panic w => Panic w
  end.

(** [tarAddFS(tw, fsys)]: the walk from the root ["."].  [fs.WalkDir]
    first examines the root ([fs.Stat], the [Info] of the root node); when
    that fails the function is called with the error, which it returns. *)
Definition tarAddFS (tw : list TarEntry) (fsys : Node) : outcome (list TarEntry) :=
  match Info fsys with
  | Fail e => Err (ErrLib e)
  | Val _ => walkDir tw "." fsys
  end.

(* ===================================================================== *)
(** ** Composing images *)
(* ===================================================================== *)

(** [mutate.IndexAddendum]. *)
Record IndexAddendum : Type := { Add : Image; AddDescriptor : Descriptor }.

(** The libraries behind layers and descriptors:
    - [tarBytes es] is the archive a [tar.Writer] has produced at [Close]
      for the entries [es], or its error;
    - [LayerFromOpener b] is [tarball.LayerFromOpener] on an opener of the
      bytes [b];
    - [layerDiffID l] is [l.DiffID()];
    - [imageDescriptor img] is [partial.Descriptor(img)]. *)
Class ImageLib : Type := {
  tarBytes : list TarEntry -> goresult string;
  LayerFromOpener : string -> goresult Layer;
  imageDescriptor : Image -> goresult Descriptor
}.

Section New.
Context {A : ArchLib} {I : ImageLib}.

Definition renderEntrypoint (entrypoint : option Entrypoint) : outcome Layer :=
  eb ← lift (executeTemplate entrypoint);
  let hdr := {| HdrName := "entrypoint.sh"; HdrMode := 493 (* 0o755 *);
                HdrSize := Z.of_nat (String.length eb); HdrModTime := 0;
                HdrTypeflag := TypeUnset; HdrSys := EmptyString |} in
  let tw := WriteHeader [] hdr in
  let tw := Write tw eb in
  tbuf ← lift (tarBytes tw);
  lift (LayerFromOpener tbuf).

Definition layer (srcfs : Node) : outcome Layer :=
  tw ← tarAddFS [] srcfs;
  buf ← lift (tarBytes tw);
  lift (LayerFromOpener buf).

(** [mutate.MediaType(empty.Image, ggcrtypes.OCIManifestSchema1)]. *)
Definition emptyImage : Image :=
  {| Layers := Val [];
     GetConfigFile := Val {| ConfigEntrypoint := []; ConfigWorkingDir := "";
                             ConfigOther := [] |};
     MediaType := "application/vnd.oci.image.manifest.v1+json" |}.

(** [mutate.AppendLayers(base, layers...)]. *)
Definition AppendLayers (base : Image) (layers : list Layer) : goresult Image :=
  old ← Layers base;
  cf ← GetConfigFile base;
  Val {| Layers := Val (old ++ layers);
         GetConfigFile := Val cf;
         MediaType := MediaType base |}.

(** [mutate.ConfigFile(img, cf)]. *)
Definition mutateConfigFile (img : Image) (cf : ConfigFile) : goresult Image :=
  Val {| Layers := Layers img; GetConfigFile := Val cf;
         MediaType := MediaType img |}.

(** The map [haveArchs]: the descriptors of the base index by parsed
    architecture, a later one replacing an earlier one. *)
Fixpoint haveArchsOf (descs : list Descriptor) (have : gmap string Descriptor)
    : outcome (gmap string Descriptor) :=
  match descs with
  | [] => Ok have
  | desc :: rest =>
      match DescPlatform desc with
      | None => Panic "invalid memory address or nil pointer dereference"
      | Some p =>
          haveArchsOf rest (<[ParseArchitecture (Architecture p) := desc]> have)
      end
  end.

(** The body of the loop of [New] over [wantArchs]. *)
Definition composeArch (base : ImageIndex)
    (entrypoints : gmap string (option Entrypoint))
    (commonfiles srcfs : Node) (haveArchs : gmap string Descriptor)
    (arch : string) : outcome IndexAddendum :=
  let platform := Some {| Architecture := arch; OS := "linux"; Variant := "" |} in
  let baseImg := emptyImage in
  '(baseImg, platform) ←
    match haveArchs !! arch with
    | Some desc =>
        baseImg ← lift (GetImage base (Digest desc));
        Ok (baseImg, DescPlatform desc)
    | None => Ok (baseImg, platform)
    end;
  commonLayer ← layer commonfiles;
  sourceLayer ← layer srcfs;
  match entrypoints !! arch with
  | None =>
      Err (ErrUnexpectedArch arch (elements (dom entrypoints)))
  | Some entrypoint =>
      entrypointLayer ← renderEntrypoint entrypoint;
      img ← lift (AppendLayers baseImg [commonLayer; sourceLayer; entrypointLayer]);
      cf ← lift (GetConfigFile img);
      let cf := {| ConfigEntrypoint := ["/bin/sh"; "/entrypoint.sh"];
                   ConfigWorkingDir := "/";
                   ConfigOther := ConfigOther cf |} in
      img ← lift (mutateConfigFile img cf);
      newDesc ← lift (imageDescriptor img);
      let newDesc := {| Digest := Digest newDesc; DescPlatform := platform;
                        DescAnnotations := DescAnnotations newDesc |} in
      Ok {| Add := img; AddDescriptor := newDesc |}
  end.

(** The loop of [New]: one addendum per architecture, appended to the
    index in the order the architectures are visited. *)
Fixpoint composeArchs (base : ImageIndex)
    (entrypoints : gmap string (option Entrypoint))
    (commonfiles srcfs : Node) (haveArchs : gmap string Descriptor)
    (archs : list string) (idx : list IndexAddendum)
    : outcome (list IndexAddendum) :=
  match archs with
  | [] => Ok idx
  | arch :: rest =>
      a ← composeArch base entrypoints commonfiles srcfs haveArchs arch;
      composeArchs base entrypoints commonfiles srcfs haveArchs rest (idx ++ [a])
  end.

(** [New(base, entrypoints, commonfiles, srcfs)].  The result is the
    empty index with the addenda appended to it.  [order] is the order
    in which [range wantArchs] visits the keys of the map, which the
    language leaves open: a list of the keys of [entrypoints], each once. *)
Definition New (base : ImageIndex) (entrypoints : gmap string (option Entrypoint))
    (commonfiles srcfs : Node) (order : list string)
    : outcome (list IndexAddendum) :=
  m ← lift (GetIndexManifest base);
  haveArchs ← haveArchsOf (Manifests m) ∅;
  composeArchs base entrypoints commonfiles srcfs haveArchs order [].

End New.

(* ===================================================================== *)
(** ** A reference instance of the libraries *)
(* ===================================================================== *)

(** The behaviour of the libraries on the plain inputs the examples use:
    decimal literals for [strconv.ParseFloat] (also [Inf], [Infinity] and
    [NaN]; hexadecimal mantissas and digit separators are not covered and
    are refused), the architecture aliases of [types.ParseArchitecture],
    quantities written as a decimal number with an optional suffix (names
    outside ASCII are not lowered), JSON text as [encoding/json] writes
    and reads it (bytes that are no UTF-8 become the replacement
    character, surrogate pairs are combined), times as whole
    seconds in UTC written in the RFC 3339 form, a registry with a fixed
    content, and stand-ins for the archive and image libraries.
    The general statements below never depend on this instance. *)
Module Reference.

Definition is_digit (c : ascii) : bool :=
  let n := nat_of_ascii c in (Nat.leb 48 n && Nat.leb n 57)%bool.

Definition digit_val (c : ascii) : Z := Z.of_nat (nat_of_ascii c - 48).

(** A run of decimal digits: the value read so far, how many digits were
    read, and the rest of the text. *)
Fixpoint read_digits (s : string) (acc : Z) (n : nat) : Z * nat * string :=
  match s with
  | String c r =>
      if is_digit c then read_digits r (10 * acc + digit_val c) (S n)
      else (acc, n, s)
  | EmptyString => (acc, n, s)
  end.

Definition read_sign (s : string) : bool * string :=
  match s with
  | String c r =>
      if Ascii.eqb c "-" then (true, r)
      else if Ascii.eqb c "+" then (false, r)
      else (false, s)
  | EmptyString => (false, s)
  end.

Definition read_exponent (s : string) : option Z :=
  match s with
  | EmptyString => Some 0
  | String c r =>
      if (Ascii.eqb c "e" || Ascii.eqb c "E")%bool then
        let '(neg, r1) := read_sign r in
        let '(v, n, rest) := read_digits r1 0 0 in
        if (Nat.eqb n 0 || negb (String.eqb rest ""))%bool then None
        else Some (cond_Zopp neg v)
      else None
  end.

Definition ParseFloat (s : string) : goresult spec_float :=
  if String.eqb (GoStrings.ToLower s) "nan" then Val S754_nan else
  let '(neg, s1) := read_sign s in
  let low := GoStrings.ToLower s1 in
  if (String.eqb low "inf" || String.eqb low "infinity")%bool
  then Val (S754_infinity neg) else
  let '(ip, ni, s2) := read_digits s1 0 0 in
  let '(m, nf, s3) :=
    match s2 with
    | String c r => if Ascii.eqb c "." then read_digits r ip 0 else (ip, O, s2)
    | EmptyString => (ip, O, s2)
    end in
  if Nat.eqb (ni + nf) 0 then Fail "invalid syntax" else
  match read_exponent s3 with
  | None => Fail "invalid syntax"
  | Some e =>
      match m with
      | Zpos p =>
          match Float64.of_decimal neg p (e - Z.of_nat nf) with
          | S754_infinity _ => Fail "value out of range"
          | f => Val f
          end
      | _ => Val (S754_zero neg)
      end
  end.

Definition ParseArchitecture (s : string) : string :=
  if (String.eqb s "386" || String.eqb s "i386" || String.eqb s "x86")%bool
  then "386"
  else if (String.eqb s "amd64" || String.eqb s "x86_64")%bool then "amd64"
  else if (String.eqb s "arm64" || String.eqb s "aarch64")%bool then "arm64"
  else if (String.eqb s "arm/v6" || String.eqb s "armhf")%bool then "arm/v6"
  else if (String.eqb s "arm/v7" || String.eqb s "armv7")%bool then "arm/v7"
  else s.

Definition quantity_suffixes : list string :=
  [ ""; "Ki"; "Mi"; "Gi"; "Ti"; "Pi"; "Ei";
    "n"; "u"; "m"; "k"; "M"; "G"; "T"; "P"; "E" ].

(** A quantity is kept as the text it was written as. *)
Definition MustParse (s : string) : option string :=
  let '(_, s1) := read_sign s in
  let '(_, ni, s2) := read_digits s1 0 0 in
  let '(nf, s3) :=
    match s2 with
    | String c r =>
        if Ascii.eqb c "." then let '(_, nf, r') := read_digits r 0 0 in (nf, r')
        else (O, s2)
    | EmptyString => (O, s2)
    end in
  if Nat.eqb (ni + nf) 0 then None
  else if existsb (String.eqb s3) quantity_suffixes then Some s
  else match read_exponent s3 with
       | Some _ => Some s
       | None => None
       end.

#[export] Instance arch : ArchLib := Build_ArchLib ParseArchitecture.

#[export] Instance types : GoTypes := Build_GoTypes string Z (string * string).

#[export] Instance lib : PodLib :=
  Build_PodLib types arch ParseFloat MustParse (fun t => t) (fun s => s).

(** *** JSON text *)

Definition hexDigit (n : nat) : ascii :=
  if Nat.ltb n 10 then ascii_of_nat (48 + n) else ascii_of_nat (87 + n).

Definition escapeByte (c : ascii) : string :=
  let n := nat_of_ascii c in
  let u4 := "\u00" +:+ String (hexDigit (n / 16)%nat) (String (hexDigit (n mod 16)%nat) "") in
  if Nat.eqb n 34 then "\" +:+ dquote
  else if Nat.eqb n 92 then "\\"
  else if Nat.eqb n 10 then "\n"
  else if Nat.eqb n 13 then "\r"
  else if Nat.eqb n 9 then "\t"
  else if Nat.ltb n 32 then u4
  else if (Nat.eqb n 60 || Nat.eqb n 62 || Nat.eqb n 38)%bool then u4
  else String c "".

(** [utf8.DecodeRuneInString]: how many bytes the rune at the head of [s]
    takes, or nothing when no rune starts there. *)
Definition runeLength (s : string) : option nat :=
  let within (lo hi : nat) (b : ascii) : bool :=
    (Nat.leb lo (nat_of_ascii b) && Nat.leb (nat_of_ascii b) hi)%bool in
  match s with
  | EmptyString => None
  | String c r =>
      let n := nat_of_ascii c in
      if Nat.ltb n 128 then Some 1%nat
      else if (Nat.leb 194 n && Nat.leb n 223)%bool then
        match r with
        | String b1 _ => if within 128%nat 191%nat b1 then Some 2%nat else None
        | _ => None
        end
      else if (Nat.leb 224 n && Nat.leb n 239)%bool then
        match r with
        | String b1 (String b2 _) =>
            if (within (if Nat.eqb n 224 then 160 else 128)%nat
                       (if Nat.eqb n 237 then 159 else 191)%nat b1
                && within 128%nat 191%nat b2)%bool
            then Some 3%nat else None
        | _ => None
        end
      else if (Nat.leb 240 n && Nat.leb n 244)%bool then
        match r with
        | String b1 (String b2 (String b3 _)) =>
            if (within (if Nat.eqb n 240 then 144 else 128)%nat
                       (if Nat.eqb n 244 then 143 else 191)%nat b1
                && within 128%nat 191%nat b2 && within 128%nat 191%nat b3)%bool
            then Some 4%nat else None
        | _ => None
        end
      else None
  end.

(** The bytes E2 80 A8 and E2 80 A9 of the line and paragraph separators
    U+2028 and U+2029. *)
Definition separator (s : string) : option string :=
  match s with
  | String c (String b1 (String b2 _)) =>
      if (Nat.eqb (nat_of_ascii c) 226 && Nat.eqb (nat_of_ascii b1) 128)%bool
      then if Nat.eqb (nat_of_ascii b2) 168 then Some "\u2028"
           else if Nat.eqb (nat_of_ascii b2) 169 then Some "\u2029"
           else None
      else None
  | _ => None
  end.

(** The text of a string between its quotes as [json.Marshal] writes it:
    a byte that starts no rune is written as the replacement character,
    [\ufffd].  [pending] bytes of a rune that has been looked at are
    copied ([keep]) or left out. *)
Fixpoint escapeFrom (pending : nat) (keep : bool) (s : string) : string :=
  match s with
  | EmptyString => EmptyString
  | String c r =>
      match pending with
      | S k => (if keep then String c "" else "") +:+ escapeFrom k keep r
      | O =>
          if Nat.ltb (nat_of_ascii c) 128
          then escapeByte c +:+ escapeFrom 0%nat true r
          else
            match runeLength s with
            | None => "\ufffd" +:+ escapeFrom 0%nat true r
            | Some len =>
                match separator s with
                | Some text => text +:+ escapeFrom 2%nat false r
                | None => String c (escapeFrom (len - 1)%nat true r)
                end
            end
      end
  end.

Definition escapeString (s : string) : string := escapeFrom 0%nat true s.

Definition quote (s : string) : string := dquote +:+ escapeString s +:+ dquote.

Fixpoint jsonEncode (v : json) : string :=
  match v with
  | JNull => "null"
  | JBool b => if b then "true" else "false"
  | JNumber n => Float64.string_of_Z n
  | JReal t => t
  | JString s => quote s
  | JArray items =>
      "[" +:+ (fix go (first : bool) (l : list json) : string :=
                 match l with
                 | [] => ""
                 | x :: r => (if first then "" else ",") +:+ jsonEncode x
                             +:+ go false r
                 end) true items +:+ "]"
  | JObject members =>
      "{" +:+ (fix go (first : bool) (l : list (string * json)) : string :=
                 match l with
                 | [] => ""
                 | (k, x) :: r => (if first then "" else ",") +:+ quote k +:+ ":"
                                  +:+ jsonEncode x +:+ go false r
                 end) true members +:+ "}"
  end.

Definition isSpace (c : ascii) : bool :=
  let n := nat_of_ascii c in
  (Nat.eqb n 32 || Nat.eqb n 9 || Nat.eqb n 10 || Nat.eqb n 13)%bool.

Fixpoint skipSpace (s : string) : string :=
  match s with
  | String c r => if isSpace c then skipSpace r else s
  | EmptyString => s
  end.

Definition hexVal (c : ascii) : option nat :=
  let n := nat_of_ascii c in
  if (Nat.leb 48 n && Nat.leb n 57)%bool then Some (n - 48)%nat
  else if (Nat.leb 97 n && Nat.leb n 102)%bool then Some (n - 87)%nat
  else if (Nat.leb 65 n && Nat.leb n 70)%bool then Some (n - 55)%nat
  else None.

(** The UTF-8 bytes of a code point. *)
Definition utf8 (cp : N) : string :=
  let byte (n : N) : ascii := ascii_of_N n in
  (if N.ltb cp 128 then String (byte cp) ""
   else if N.ltb cp 2048 then
     String (byte (192 + cp / 64)) (String (byte (128 + cp mod 64)) "")
   else if N.ltb cp 65536 then
     String (byte (224 + cp / 4096))
       (String (byte (128 + (cp / 64) mod 64))
          (String (byte (128 + cp mod 64)) ""))
   else
     String (byte (240 + cp / 262144))
       (String (byte (128 + (cp / 4096) mod 64))
          (String (byte (128 + (cp / 64) mod 64))
             (String (byte (128 + cp mod 64)) ""))))%N.

(** The four hexadecimal digits of an escape [\uXXXX] at the head of
    [s], after the [u]. *)
Definition getu4 (s : string) : option (N * string) :=
  match s with
  | String h1 (String h2 (String h3 (String h4 r))) =>
      match hexVal h1, hexVal h2, hexVal h3, hexVal h4 with
      | Some a, Some b, Some c, Some d =>
          Some ((((N.of_nat a * 16 + N.of_nat b) * 16 + N.of_nat c) * 16
                 + N.of_nat d)%N, r)
      | _, _, _, _ => None
      end
  | _ => None
  end.

(** The code points U+D800 to U+DFFF, which two escapes use together for
    one code point above U+FFFF. *)
Definition isSurrogate (cp : N) : bool :=
  (N.leb 55296 cp && N.ltb cp 57344)%bool.

(** A string in which every byte that starts no rune has become the
    replacement character (the bytes EF BF BD). *)
Fixpoint coerceUTF8 (pending : nat) (s : string) : string :=
  match s with
  | EmptyString => EmptyString
  | String c r =>
      match pending with
      | S k => String c (coerceUTF8 k r)
      | O =>
          match runeLength s with
          | Some len => String c (coerceUTF8 (len - 1)%nat r)
          | None => utf8 65533%N +:+ coerceUTF8 0%nat r
          end
      end
  end.

(** The text of a string after its opening quote: the bytes written and
    those its escapes stand for, and what follows the closing quote. *)
Fixpoint readRaw (s : string) : option (string * string) :=
  match s with
  | EmptyString => None
  | String c r =>
      let n := nat_of_ascii c in
      if Nat.eqb n 34 then Some (EmptyString, r)
      else if Nat.ltb n 32 then None
      else if Nat.eqb n 92 then
        match r with
        | String e r1 =>
            let k := nat_of_ascii e in
            let plain (b : nat) :=
              match readRaw r1 with
              | Some (t, rest) => Some (String (ascii_of_nat b) t, rest)
              | None => None
              end in
            if Nat.eqb k 34 then plain 34%nat
            else if Nat.eqb k 92 then plain 92%nat
            else if Nat.eqb k 47 then plain 47%nat
            else if Nat.eqb k 98 then plain 8%nat
            else if Nat.eqb k 102 then plain 12%nat
            else if Nat.eqb k 110 then plain 10%nat
            else if Nat.eqb k 114 then plain 13%nat
            else if Nat.eqb k 116 then plain 9%nat
            else if Nat.eqb k 117 then
              match r1 with
              | String h1 (String h2 (String h3 (String h4 r2))) =>
                  match getu4 r1 with
                  | Some (cp, _) =>
                      let single (cp' : N) :=
                        match readRaw r2 with
                        | Some (t, rest) => Some (utf8 cp' +:+ t, rest)
                        | None => None
                        end in
                      if isSurrogate cp then
                        match r2 with
                        | String b (String u
                            (String g1 (String g2 (String g3 (String g4 r3))))) =>
                            match
                              (if (Nat.eqb (nat_of_ascii b) 92
                                   && Nat.eqb (nat_of_ascii u) 117)%bool
                               then getu4 (String g1 (String g2 (String g3
                                             (String g4 EmptyString))))
                               else None)
                            with
                            | Some (cp2, _) =>
                                if (N.ltb cp 56320 && N.leb 56320 cp2
                                    && N.ltb cp2 57344)%bool
                                then
                                  match readRaw r3 with
                                  | Some (t, rest) =>
                                      Some (utf8 (65536 + (cp - 55296) * 1024
                                                  + (cp2 - 56320))%N +:+ t, rest)
                                  | None => None
                                  end
                                else single 65533%N
                            | None => single 65533%N
                            end
                        | _ => single 65533%N
                        end
                      else single cp
                  | None => None
                  end
              | _ => None
              end
            else None
        | EmptyString => None
        end
      else
        match readRaw r with
        | Some (t, rest) => Some (String c t, rest)
        | None => None
        end
  end.

(** A number: an integer written without sign of zero, fraction or
    exponent is a [JNumber], anything else a [JReal]. *)

(** The string a string literal stands for, every byte that starts no
    rune replaced as [encoding/json] does when it unquotes. *)
Definition readString (s : string) : option (string * string) :=
  match readRaw s with
  | Some (t, rest) => Some (coerceUTF8 0%nat t, rest)
  | None => None
  end.

Definition readNumber (s : string) : option (json * string) :=
  let '(neg, s1) :=
    match s with
    | String c r => if Ascii.eqb c "-" then (true, r) else (false, s)
    | EmptyString => (false, s)
    end in
  let '(ip, ni, s2) := read_digits s1 0 0 in
  if Nat.eqb ni 0 then None
  else if (Nat.ltb 1 ni && GoStrings.HasPrefix s1 "0")%bool then None
  else
    let '(nf, s3) :=
      match s2 with
      | String c r =>
          if Ascii.eqb c "." then let '(_, nf, r') := read_digits r 0 0 in (S nf, r')
          else (O, s2)
      | EmptyString => (O, s2)
      end in
    if Nat.eqb nf 1 then None
    else
      let '(ne, s4) :=
        match s3 with
        | String c r =>
            if (Ascii.eqb c "e" || Ascii.eqb c "E")%bool then
              let '(_, r1) := read_sign r in
              let '(_, n, r') := read_digits r1 0 0 in (S n, r')
            else (O, s3)
        | EmptyString => (O, s3)
        end in
      if Nat.eqb ne 1 then None
      else
        let len := (String.length s - String.length s4)%nat in
        if (Nat.eqb nf 0 && Nat.eqb ne 0 && negb (neg && Z.eqb ip 0))%bool
        then Some (JNumber (cond_Zopp neg ip), s4)
        else Some (JReal (String.substring 0 len s), s4).

Fixpoint readValue (fuel : nat) (s : string) : option (json * string) :=
  match fuel with
  | O => None
  | S fuel' =>
      match skipSpace s with
      | EmptyString => None
      | String c r as s0 =>
          let n := nat_of_ascii c in
          if Nat.eqb n 34 then
            match readString r with
            | Some (t, rest) => Some (JString t, rest)
            | None => None
            end
          else if Nat.eqb n 91 then
            match skipSpace r with
            | String c1 r1 as r0 =>
                if Nat.eqb (nat_of_ascii c1) 93 then Some (JArray [], r1)
                else readItems fuel' r0
            | EmptyString => None
            end
          else if Nat.eqb n 123 then
            match skipSpace r with
            | String c1 r1 as r0 =>
                if Nat.eqb (nat_of_ascii c1) 125 then Some (JObject [], r1)
                else readMembers fuel' r0
            | EmptyString => None
            end
          else if GoStrings.HasPrefix s0 "null" then Some (JNull, GoStrings.drop 4 s0)
          else if GoStrings.HasPrefix s0 "true" then Some (JBool true, GoStrings.drop 4 s0)
          else if GoStrings.HasPrefix s0 "false" then Some (JBool false, GoStrings.drop 5 s0)
          else readNumber s0
      end
  end
with readItems (fuel : nat) (s : string) : option (json * string) :=
  match fuel with
  | O => None
  | S fuel' =>
      match readValue fuel' s with
      | Some (v, rest) =>
          match skipSpace rest with
          | String c r =>
              if Nat.eqb (nat_of_ascii c) 93 then Some (JArray [v], r)
              else if Nat.eqb (nat_of_ascii c) 44 then
                match readItems fuel' r with
                | Some (JArray vs, rest') => Some (JArray (v :: vs), rest')
                | _ => None
                end
              else None
          | EmptyString => None
          end
      | None => None
      end
  end
with readMembers (fuel : nat) (s : string) : option (json * string) :=
  match fuel with
  | O => None
  | S fuel' =>
      match skipSpace s with
      | String c r =>
          if Nat.eqb (nat_of_ascii c) 34 then
            match readString r with
            | Some (k, rest) =>
                match skipSpace rest with
                | String c1 r1 =>
                    if Nat.eqb (nat_of_ascii c1) 58 then
                      match readValue fuel' r1 with
                      | Some (v, rest1) =>
                          match skipSpace rest1 with
                          | String c2 r2 =>
                              if Nat.eqb (nat_of_ascii c2) 125
                              then Some (JObject [(k, v)], r2)
                              else if Nat.eqb (nat_of_ascii c2) 44 then
                                match readMembers fuel' r2 with
                                | Some (JObject ms, rest2) =>
                                    Some (JObject ((k, v) :: ms), rest2)
                                | _ => None
                                end
                              else None
                          | EmptyString => None
                          end
                      | None => None
                      end
                    else None
                | EmptyString => None
                end
            | None => None
            end
          else None
      | EmptyString => None
      end
  end.

Definition jsonDecode (rc : string) : goresult json :=
  match skipSpace rc with
  | EmptyString => Fail "EOF"
  | _ =>
      match readValue (S (String.length rc)) rc with
      | Some (v, _) => Val v
      | None => Fail "invalid character in JSON text"
      end
  end.

(** *** Times *)

(** The civil date of a day number (days since 1970-01-01). *)
Definition civilFromDays (days : Z) : Z * Z * Z :=
  let z := days + 719468 in
  let era := z / 146097 in
  let doe := z - era * 146097 in
  let yoe := (doe - doe / 1460 + doe / 36524 - doe / 146096) / 365 in
  let doy := doe - (365 * yoe + yoe / 4 - yoe / 100) in
  let mp := (5 * doy + 2) / 153 in
  let d := doy - (153 * mp + 2) / 5 + 1 in
  let m := if Z.ltb mp 10 then mp + 3 else mp - 9 in
  let y := yoe + era * 400 + (if Z.leb m 2 then 1 else 0) in
  (y, m, d).

Definition daysFromCivil (y m d : Z) : Z :=
  let y := if Z.leb m 2 then y - 1 else y in
  let era := y / 400 in
  let yoe := y - era * 400 in
  let doy := (153 * (if Z.ltb 2 m then m - 3 else m + 9) + 2) / 5 + d - 1 in
  let doe := yoe * 365 + yoe / 4 - yoe / 100 + doy in
  era * 146097 + doe - 719468.

Definition timeMarshalJSON (t : Z) : goresult string :=
  let '(y, m, d) := civilFromDays (t / 86400) in
  let s := t mod 86400 in
  if (Z.ltb y 0 || Z.ltb 9999 y)%bool
  then Fail "Time.MarshalJSON: year outside of range [0,9999]"
  else Val (Float64.digits_fixed 4 y +:+ "-" +:+ Float64.digits_fixed 2 m +:+ "-"
            +:+ Float64.digits_fixed 2 d +:+ "T"
            +:+ Float64.digits_fixed 2 (s / 3600) +:+ ":"
            +:+ Float64.digits_fixed 2 ((s / 60) mod 60) +:+ ":"
            +:+ Float64.digits_fixed 2 (s mod 60) +:+ "Z").

(** [n] digits, then the separator [sep]. *)
Definition readField (n : nat) (sep : string) (s : string) : option (Z * string) :=
  let '(v, k, rest) := read_digits (String.substring 0 n s) 0 0 in
  if (Nat.eqb k n && String.eqb rest ""
      && GoStrings.HasPrefix (GoStrings.drop n s) sep)%bool
  then Some (v, GoStrings.drop (n + String.length sep) s)
  else None.

Definition timeUnmarshalJSON (s : string) : goresult Z :=
  match
    '(y, s) ← readField 4 "-" s;
    '(m, s) ← readField 2 "-" s;
    '(d, s) ← readField 2 "T" s;
    '(hh, s) ← readField 2 ":" s;
    '(mm, s) ← readField 2 ":" s;
    '(ss, s) ← readField 2 "Z" s;
    if (String.eqb s "" && Z.leb 1 m && Z.leb m 12 && Z.leb 1 d
        && Z.ltb hh 24 && Z.ltb mm 60 && Z.ltb ss 60)%bool
    then
      let days := daysFromCivil y m d in
      let '(y', m', d') := civilFromDays days in
      if (Z.eqb y y' && Z.eqb m m' && Z.eqb d d')%bool
      then Some (days * 86400 + hh * 3600 + mm * 60 + ss)
      else None
    else None
  with
  | Some t => Val t
  | None => Fail "parsing time: cannot parse as RFC 3339"
  end.

#[export] Instance jsonlib : JsonLib :=
  Build_JsonLib types jsonDecode jsonEncode timeMarshalJSON timeUnmarshalJSON
    (-62135596800).

Definition task (cpu memory : string) : Task :=
  {| Package := "Some_Pkg.v2"; Version := "1.0"; Epoch := 3;
     Path := "some-pkg.yaml"; SourceDir := "some-pkg";
     Architectures := ["x86_64"; "aarch64"]; Subpackages := [];
     TaskResources := Some {| CPU := cpu; Memory := memory |};
     BuildDateEpoch := 1700000000 |}.

(** A second task, with the optional members empty. *)
Definition bareTask : Task :=
  {| Package := "a<b>"; Version := "0"; Epoch := 18446744073709551615;
     Path := ""; SourceDir := ""; Architectures := []; Subpackages := [];
     TaskResources := None; BuildDateEpoch := -62135596800 |}.

(** A task built in the first second of the year 10000. *)
Definition lateTask : Task :=
  {| Package := "late"; Version := "1.0"; Epoch := 0;
     Path := ""; SourceDir := ""; Architectures := []; Subpackages := [];
     TaskResources := None; BuildDateEpoch := 253402300800 |}.

(** A task whose package name is the byte FF, which is no UTF-8 text. *)
Definition rawTask : Task :=
  {| Package := String (ascii_of_nat 255) EmptyString; Version := "1.0";
     Epoch := 0; Path := ""; SourceDir := ""; Architectures := [];
     Subpackages := []; TaskResources := None; BuildDateEpoch := 1700000000 |}.

(** *** A registry with a fixed content *)

Definition sampleTasks : list Task := [task "96" ""; bareTask].

(** The tasks layer of [sampleTasks]. *)
Definition tasksBytes : string :=
  match encodeTasks sampleTasks with
  | Val b => b
  | Fail _ => EmptyString
  end.

Definition imageOf (layers : list string) : Image :=
  {| Layers := Val (map (fun b => {| Compressed := Val b |}) layers);
     GetConfigFile := Val {| ConfigEntrypoint := []; ConfigWorkingDir := "";
                             ConfigOther := [] |};
     MediaType := "application/vnd.oci.image.manifest.v1+json" |}.

Definition sha (hex : string) : Hash := {| Algorithm := "sha256"; Hex := hex |}.

Definition annotated (kind hex : string) : Descriptor :=
  {| Digest := sha hex; DescPlatform := None;
     DescAnnotations := {[ "dev.wolfi.bundle" := kind ]} |}.

Definition indexOf (descs : list Descriptor) (images : list (Hash * Image))
    : ImageIndex :=
  {| GetIndexManifest := Val {| Manifests := descs |};
     GetImage := fun h =>
       match List.find (fun hi => bool_decide (hi.1 = h)) images with
       | Some hi => Val hi.2
       | None => Fail "MANIFEST_UNKNOWN: manifest unknown"
       end |}.

Definition tasksIndex : ImageIndex :=
  indexOf [annotated "tasks" "1111"; annotated "sbom" "3333"]
          [(sha "1111", imageOf [tasksBytes])].

Definition runtimeIndex : ImageIndex :=
  indexOf [annotated "runtime" "2222"] [].

Definition brokenIndex (hex : string) : ImageIndex :=
  indexOf [annotated "tasks" hex] [(sha hex, imageOf ["not json"])].

Definition unlayeredIndex : ImageIndex :=
  indexOf [annotated "graph" "4444"] [(sha "4444", imageOf [])].

Definition emptyIndex : ImageIndex := indexOf [] [].

Definition registry : list (string * ImageIndex) :=
  [ ("registry.example/tasks", tasksIndex);
    ("registry.example/runtime", runtimeIndex);
    ("registry.example/broken-a", brokenIndex "aaaa");
    ("registry.example/broken-b", brokenIndex "bbbb");
    ("registry.example/unlayered", unlayeredIndex);
    ("registry.example/empty", emptyIndex) ].

(** A reference is a repository, then [":"] and a tag or ["@"] and a
    digest. *)
Definition ParseReference (s : string) : goresult Reference :=
  let '(repo, id, _) :=
    let '(before, after, found) := GoStrings.Cut s "@" in
    if found then (before, after, true) else GoStrings.Cut s ":" in
  if String.eqb repo "" then Fail "could not parse reference"
  else Val {| Context := repo;
              Identifier := if String.eqb id "" then "latest" else id |}.

Definition remoteIndex (ref : Reference) : goresult ImageIndex :=
  match List.find (fun ri => String.eqb ri.1 (Context ref)) registry with
  | Some ri => Val ri.2
  | None => Fail "NAME_UNKNOWN: repository name not known to registry"
  end.

(** The graph document; of an edge the source and the target are kept. *)
Definition memberString (key : string) (ms : list (string * json)) : string :=
  match List.find (fun m => String.eqb m.1 key) ms with
  | Some (_, JString s) => s
  | _ => EmptyString
  end.

Definition decodeEdges (v : json) : goresult (gmap string (string * string)) :=
  match v with
  | JNull => Val ∅
  | JObject es =>
      edges ← mapM (fun '(k, e) =>
                      match e with
                      | JObject fs =>
                          Val (k, (memberString "Source" fs, memberString "Target" fs))
                      | _ => Fail "json: cannot unmarshal into Go value of type graph.Edge"
                      end) es;
      Val (list_to_map edges)
  | _ => Fail "json: cannot unmarshal into Go value of type map[string]graph.Edge"
  end.

Definition decodeGraph (rc : string)
    : goresult (gmap string (gmap string (string * string))) :=
  v ← jsonDecode rc;
  match v with
  | JNull => Val ∅
  | JObject ms =>
      nodes ← mapM (fun '(k, n) => es ← decodeEdges n; Val (k, es)) ms;
      Val (list_to_map nodes)
  | _ => Fail "json: cannot unmarshal into Go value of type bundle.Graph"
  end.

#[export] Instance registrylib : RegistryLib :=
  Build_RegistryLib types ParseReference remoteIndex decodeGraph.

(** *** Stand-ins for the archive and image libraries *)

(** An archive as a listing: a line with name, mode and size for each
    entry, then its bytes; refused when the bytes of a file are not as
    many as the header says. *)
Fixpoint tarBytes (es : list TarEntry) : goresult string :=
  match es with
  | [] => Val EmptyString
  | e :: rest =>
      if Z.eqb (HdrSize (Hdr e)) (Z.of_nat (String.length (Body e))) then
        more ← tarBytes rest;
        Val (HdrName (Hdr e) +:+ " " +:+ Float64.string_of_Z (HdrMode (Hdr e))
             +:+ " " +:+ Float64.string_of_Z (HdrSize (Hdr e)) +:+ nl
             +:+ Body e +:+ more)
      else Fail "archive/tar: missed writing bytes"
  end.

(** A layer that hands out the bytes it was made of. *)
Definition LayerFromOpener (b : string) : goresult Layer :=
  Val {| Compressed := Val b |}.

(** A descriptor whose digest tells the number of layers only. *)
Definition imageDescriptor (img : Image) : goresult Descriptor :=
  ls ← Layers img;
  Val {| Digest := sha (Float64.string_of_Z (Z.of_nat (length ls)));
         DescPlatform := None; DescAnnotations := ∅ |}.

#[export] Instance imagelib : ImageLib :=
  Build_ImageLib tarBytes LayerFromOpener imageDescriptor.

Definition fileInfo (size : Z) : FileInfo :=
  {| InfoSize := size; InfoPerm := 420; InfoModTime := 1700000000;
     InfoIsRegular := true; InfoSys := EmptyString |}.

(** A tree with the files [a/x] and [b]. *)
Definition sampleTree : Node :=
  Dir (Val (fileInfo 0))
    (Val [ ("a", Dir (Val (fileInfo 0))
                   (Val [ ("x", File (Val (fileInfo 2)) (Val "hi")) ]));
           ("b", File (Val (fileInfo 0)) (Val "")) ]).

Definition emptyTree : Node := Dir (Val (fileInfo 0)) (Val []).

Definition sampleEntrypoint : Entrypoint :=
  {| Flags := ["--arch"; "x86_64"];
     GCSFuseMounts :=
       [ Some {| Bucket := "bucket"; Mount := "/mnt"; OnlyDir := "dir" |} ] |}.

Definition sampleEntrypoints : gmap string (option Entrypoint) :=
  <["arm64" := Some {| Flags := []; GCSFuseMounts := [] |}]>
    (<["amd64" := Some sampleEntrypoint]> ∅).

End Reference.

(* ===================================================================== *)
(** ** Notions used to state the properties *)
(* ===================================================================== *)

Section PodspecNotions.
Context {T : GoTypes} {A : ArchLib} {L : PodLib}.

(** The value of one resource field: the task's own when the task has an
    override and the field is not empty there, the default otherwise. *)
Definition requested (field : Resources -> string) (default : string)
    (task : Task) : string :=
  match TaskResources task with
  | Some r => if decide (field r = "") then default else field r
  | None => default
  end.

(** The CPU count after the cap that applies on arm64 only. *)
Definition capped (goarch : string) (cpu : spec_float) : spec_float :=
  if decide (goarch = "arm64") then
    (if Float64.gtb cpu MaxArmCore then MaxArmCore else cpu)
  else cpu.

(** The resource requirements of the containers of a pod. *)
Definition podResources (pod : Pod) : list ResourceRequirements :=
  map ContainerResources (Containers (Spec pod)).

(** All machine families a pod's node affinity asks for. *)
Definition requiredFamilies (pod : Pod) : option (list (list string)) :=
  match PodAffinity (Spec pod) with
  | Some a =>
      Some (map ReqValues
              (concat (map MatchExpressions (RequiredNodeSelectorTerms a))))
  | None => None
  end.
End PodspecNotions.

Section PullNotions.
Context {T : GoTypes} {J : JsonLib} {R : RegistryLib}.

(** The last manifest of a list that carries the annotation [kind]. *)
Fixpoint lastAnnotated (kind : string) (descs : list Descriptor)
    : option Descriptor :=
  match descs with
  | [] => None
  | d :: rest =>
      match lastAnnotated kind rest with
      | Some d' => Some d'
      | None => if decide (bundleAnnotation d = kind) then Some d else None
      end
  end.

(** The content of the first layer of the image behind a manifest. *)
Definition firstLayerBytes (idx : ImageIndex) (d : Descriptor) (rc : string)
    : Prop :=
  exists img layer0 rest,
    GetImage idx (Digest d) = Val img
    /\ Layers img = Val (layer0 :: rest)
    /\ Compressed layer0 = Val rc.

(** The image behind a manifest has no layer at all. *)
Definition hasNoLayers (idx : ImageIndex) (d : Descriptor) : Prop :=
  exists img, GetImage idx (Digest d) = Val img /\ Layers img = Val [].

Definition holdsTasks (idx : ImageIndex) (d : Descriptor) (tasks : list Task)
    : Prop :=
  exists rc, firstLayerBytes idx d rc /\ decodeTasks rc = Val tasks.

Definition holdsGraph (idx : ImageIndex) (d : Descriptor)
    (g : gmap string (gmap string Edge)) : Prop :=
  exists rc, firstLayerBytes idx d rc /\ decodeGraph rc = Val g.

End PullNotions.

Section NewNotions.
Context {A : ArchLib} {I : ImageLib}.

(** The manifest of the base index for an architecture: the last one whose
    platform names it. *)
Fixpoint baseFor (descs : list Descriptor) (arch : string) : option Descriptor :=
  match descs with
  | [] => None
  | d :: rest =>
      match baseFor rest arch with
      | Some d' => Some d'
      | None =>
          match DescPlatform d with
          | Some p =>
              if decide (ParseArchitecture (Architecture p) = arch)
              then Some d else None
          | None => None
          end
      end
  end.

(** [img] is [baseImg] with the three layers after its own and with the
    launch configuration. *)
Definition composedFrom (baseImg : Image) (c s e : Layer) (img : Image) : Prop :=
  exists baseLayers cf0,
    Layers baseImg = Val baseLayers
    /\ GetConfigFile baseImg = Val cf0
    /\ Layers img = Val (baseLayers ++ [c; s; e])
    /\ GetConfigFile img =
         Val {| ConfigEntrypoint := ["/bin/sh"; "/entrypoint.sh"];
                ConfigWorkingDir := "/";
                ConfigOther := ConfigOther cf0 |}.

(** [a] is the manifest composed for [arch]: common-files layer, source
    layer and the entrypoint layer of [arch], on the base image of [arch]
    under its platform when the base index has one, on the empty image
    under the platform linux/[arch] otherwise. *)
Definition composedFor (base : ImageIndex) (descs : list Descriptor)
    (entrypoints : gmap string (option Entrypoint)) (commonfiles srcfs : Node)
    (arch : string) (a : IndexAddendum) : Prop :=
  exists ep c s e,
    entrypoints !! arch = Some ep
    /\ layer commonfiles = Ok c
    /\ layer srcfs = Ok s
    /\ renderEntrypoint ep = Ok e
    /\ match baseFor descs arch with
       | Some desc =>
           (exists baseImg,
               GetImage base (Digest desc) = Val baseImg
               /\ composedFrom baseImg c s e (Add a))
           /\ DescPlatform (AddDescriptor a) = DescPlatform desc
       | None =>
           composedFrom emptyImage c s e (Add a)
           /\ DescPlatform (AddDescriptor a)
              = Some {| Architecture := arch; OS := "linux"; Variant := "" |}
       end.

(** The names of the entries of an archive, in the order written. *)
Definition entryNames (tw : list TarEntry) : list string :=
  map (fun e => HdrName (Hdr e)) tw.

End NewNotions.

(* ===================================================================== *)
(** ** Notions used to state further properties *)
(* ===================================================================== *)

(** The same function applied to every byte of a string. *)
Fixpoint mapBytes (f : ascii -> ascii) (s : string) : string :=
  match s with
  | EmptyString => EmptyString
  | String c r => String (f c) (mapBytes f r)
  end.

(** What [escapeRFC1123] does to one byte. *)
Definition escapeByteRFC1123 (c : ascii) : ascii :=
  GoStrings.lower_byte
    (if Ascii.eqb c "." then "-"%char
     else if Ascii.eqb c "_" then "-"%char else c).

(** An ASCII upper-case letter. *)
Definition isUpper (c : ascii) : bool :=
  let n := nat_of_ascii c in (Nat.leb 65 n && Nat.leb n 90)%bool.

(** The bytes [escapeRFC1123] changes. *)
Definition escaped (c : ascii) : bool :=
  (Ascii.eqb c "." || Ascii.eqb c "_" || isUpper c)%bool.

(** The entry written for the file or directory [d] at the path [name]
    when its information is [info]: the header of [tar.FileInfoHeader]
    under that name, with the content of a file. *)
Definition entryFor (name : string) (d : Node) (info : FileInfo) : TarEntry :=
  let h := FileInfoHeader (IsDir d) info in
  {| Hdr := {| HdrName := name; HdrMode := HdrMode h; HdrSize := HdrSize h;
               HdrModTime := HdrModTime h; HdrTypeflag := HdrTypeflag h;
               HdrSys := HdrSys h |};
     Body := match d with
             | File _ (Val c) => c
             | _ => EmptyString
             end |}.

(** The entry of [d] itself: none for the root of the walk. *)
Definition ownEntry (name : string) (d : Node) : list TarEntry :=
  if decide (name = ".") then []
  else match Info d with
       | Val info => [entryFor name d info]
       | Fail _ => []
       end.

(** The entries of the tree below [name], each directory before what it
    contains, the entries of a directory in their listed order. *)
Fixpoint entriesFrom (name : string) (d : Node) : list TarEntry :=
  ownEntry name d
  ++ match d with
     | Dir _ (Val es) =>
         (fix below (es : list (string * Node)) : list TarEntry :=
            match es with
            | [] => []
            | (n, c) :: rest => entriesFrom (pathJoin name n) c ++ below rest
            end) es
     | _ => []
     end.

(** [d] itself can be archived at [name]: off the root of the walk its
    information is there, and a file is regular and can be read. *)
Definition ownReadable (name : string) (d : Node) : bool :=
  if decide (name = ".") then true
  else match Info d with
       | Fail _ => false
       | Val info =>
           match d with
           | Dir _ _ => true
           | File _ (Val _) => InfoIsRegular info
           | File _ (Fail _) => false
           end
       end.

(** Everything below [name] can be archived, and every directory can be
    listed. *)
Fixpoint readable (name : string) (d : Node) : bool :=
  ownReadable name d
  && match d with
     | File _ _ => true
     | Dir _ (Fail _) => false
     | Dir _ (Val es) =>
         (fix below (es : list (string * Node)) : bool :=
            match es with
            | [] => true
            | (n, c) :: rest => readable (pathJoin name n) c && below rest
            end) es
     end.

(** The archive of a rendered entrypoint script. *)
Definition scriptArchive (script : string) : list TarEntry :=
  [ {| Hdr := {| HdrName := "entrypoint.sh"; HdrMode := 493;
                 HdrSize := Z.of_nat (String.length script); HdrModTime := 0;
                 HdrTypeflag := TypeUnset; HdrSys := EmptyString |};
       Body := script |} ].

Section LayerNotions.
Context {I : ImageLib}.

(** [l] is the layer made of the bytes of the archive whose entries are
    [es]. *)
Definition layerOf (es : list TarEntry) (l : Layer) : Prop :=
  exists bytes, tarBytes es = Val bytes /\ LayerFromOpener bytes = Val l.

(** The script of the entrypoint [ep] when its mounts are [ms]: the fixed
    text with one stanza for each mount and one line for each flag, in
    their order. *)
Definition scriptOf (ep : Entrypoint) (ms : list GCSFuseMount) : string :=
  templateHead +:+ concatStrings (templateMount <$> ms)
  +:+ templateBuild +:+ concatStrings (templateFlag <$> Flags ep)
  +:+ templateTail.

(** The image of [a] ends with the three layers of [arch]: the archive of
    the common files, the archive of the sources and the archive of the
    script of the entrypoint of [arch]. *)
Definition appendedFor (entrypoints : gmap string (option Entrypoint))
    (commonfiles srcfs : Node) (arch : string) (a : IndexAddendum) : Prop :=
  exists ep ms baseLayers c s e,
    entrypoints !! arch = Some (Some ep)
    /\ GCSFuseMounts ep = Some <$> ms
    /\ layerOf (entriesFrom "." commonfiles) c
    /\ layerOf (entriesFrom "." srcfs) s
    /\ layerOf (scriptArchive (scriptOf ep ms)) e
    /\ Layers (Add a) = Val (baseLayers ++ [c; s; e]).

End LayerNotions.

(* ===================================================================== *)
(** * Package [advisory]: requests for advisories *)
(* ===================================================================== *)

(** Go slices of strings, by their content. *)
Module GoSlices.

(** The order [<=] of Go on strings: byte by byte. *)
Definition le (a b : string) : Prop := String.leb a b = true.

(** The order [<] of Go on strings. *)
Definition lt (a b : string) : Prop := String.ltb a b = true.

#[export] Instance le_dec (a b : string) : Decision (le a b).
Proof. unfold le. apply _. Defined.

(** [slices.Sort(s)]: the elements in ascending order. *)
Definition Sort (s : list string) : list string := merge_sort le s.

(** The rest of [slices.Compact] after an element [prev] that is kept. *)
Fixpoint compactFrom (prev : string) (s : list string) : list string :=
  match s with
  | [] => []
  | x :: r =>
      if String.eqb x prev then compactFrom prev r else x :: compactFrom x r
  end.

(** [slices.Compact(s)]: of every run of equal elements the first one. *)
Definition Compact (s : list string) : list string :=
  match s with
  | [] => []
  | x :: r => x :: compactFrom x r
  end.

End GoSlices.

Module Advisory.

(** The errors the package returns: a text ([errors.New]), the error of a
    library by its text, the errors joined by [errors.Join], and the error
    of a lookup wrapped by [fmt.Errorf] with the kind of ID and the
    alias. *)
#[warnings="-register-all"]
Inductive goerror : Type :=
  | ErrorNew (msg : string)
  | ErrorLib (msg : string)
  | ErrorJoin (errs : list goerror)
  | ErrorResolving (kind alias : string) (cause : string).

(** What the package takes from the packages [vuln] and [v2]:
    - [RegexGHSA], [RegexCVE] and [RegexCGA] are [MatchString] of the
      regular expressions of these names;
    - [ValidateID id] is [vuln.ValidateID(id)], the text of its error or
      nothing;
    - [V2Event] is [v2.Event], with its methods [IsZero] and [Validate]. *)
Class VulnLib : Type := {
  RegexGHSA : string -> bool;
  RegexCVE : string -> bool;
  RegexCGA : string -> bool;
  ValidateID : string -> option string;
  V2Event : Type;
  EventIsZero : V2Event -> bool;
  EventValidate : V2Event -> option string
}.

(** The interface [AliasFinder]; a finder is taken to answer by a function
    of the ID it is asked about. *)
Record AliasFinder : Type := {
  CVEForGHSA : string -> goresult string;
  GHSAsForCVE : string -> goresult (list string)
}.

Record Request `{VulnLib} : Type := {
  Package : string;
  AdvisoryID : string;
  Aliases : list string;
  Event : V2Event
}.

Section Request.
Context {V : VulnLib}.

(** [errors.Join(errs...)]: nil errors are dropped, and the result is nil
    when nothing is left. *)
Definition Join (errs : list (option goerror)) : option goerror :=
  match omap id errs with
  | [] => None
  | es => Some (ErrorJoin es)
  end.

(** [req.VulnerabilityIDs()]. *)
Definition VulnerabilityIDs (req : Request) : list string :=
  let ids := Aliases req in
  let ids := if String.eqb (AdvisoryID req) "" then ids
             else ids ++ [AdvisoryID req] in
  GoSlices.Compact ids.

(** [req.Validate()]. *)
Definition Validate (req : Request) : option goerror :=
  let errs : list (option goerror) := [] in
  let errs :=
    if String.eqb (Package req) ""
    then errs ++ [Some (ErrorNew "package cannot be empty")] else errs in
  let errs :=
    match Join (map (fun alias => ErrorLib <$> ValidateID alias) (Aliases req)) with
    | Some err => errs ++ [Some err]
    | None => errs
    end in
  let errs :=
    if (negb (String.eqb (AdvisoryID req) "") && negb (RegexCGA (AdvisoryID req)))%bool
    then errs ++ [Some (ErrorNew "advisory ID must be a valid CGA ID when provided")]
    else errs in
  let errs :=
    if EventIsZero (Event req)
    then errs ++ [Some (ErrorNew "event cannot be zero")] else errs in
  let errs := errs ++ [ErrorLib <$> EventValidate (Event req)] in
  Join errs.

(** The loop of [ResolveAliases] over the aliases: the aliases found so
    far and the aliases a warning was logged for, or the error of the
    first lookup that fails. *)
Fixpoint resolveEach (af : AliasFinder) (aliases newAliases warned : list string)
    : list string * (goerror + list string) :=
  match aliases with
  | [] => (warned, inr newAliases)
  | alias :: rest =>
      if RegexGHSA alias then
        match CVEForGHSA af alias with
        | Fail err => (warned, inl (ErrorResolving "GHSA" alias err))
        | Val cve => resolveEach af rest (newAliases ++ [cve]) warned
        end
      else if RegexCVE alias then
        match GHSAsForCVE af alias with
        | Fail err => (warned, inl (ErrorResolving "CVE" alias err))
        | Val ghsas => resolveEach af rest (newAliases ++ ghsas) warned
        end
      else resolveEach af rest newAliases (warned ++ [alias])
  end.

(** [req.ResolveAliases(ctx, af)]: the aliases the logger of [ctx] was
    given a warning for, in order, and the request or the error
    returned. *)
Definition ResolveAliases (req : Request) (af : AliasFinder)
    : list string * (goerror + Request) :=
  match resolveEach af (Aliases req) [] [] with
  | (warned, inl err) => (warned, inl err)
  | (warned, inr newAliases) =>
      let aliases := Aliases req ++ newAliases in
      let aliases := GoSlices.Sort aliases in
      let aliases := GoSlices.Compact aliases in
      (warned, inr {| Package := Package req; AdvisoryID := AdvisoryID req;
                      Aliases := aliases; Event := Event req |})
  end.

End Request.

(** *** Notions used to state the properties *)

Section RequestNotions.
Context {V : VulnLib}.

(** No element is followed by an equal one. *)
Definition noRepeat (s : list string) : Prop := Sorted (fun a b => a <> b) s.

(** [x] is what the finder gives for the alias [a]: the CVE of a GHSA, or
    one of the GHSAs of a CVE that is not written as a GHSA. *)
Definition found (af : AliasFinder) (a x : string) : Prop :=
  (RegexGHSA a = true /\ CVEForGHSA af a = Val x)
  \/ (RegexGHSA a = false /\ RegexCVE a = true
      /\ exists ghsas, GHSAsForCVE af a = Val ghsas /\ x ∈ ghsas).

(** The lookup for the alias [a], if there is one, does not fail. *)
Definition resolvable (af : AliasFinder) (a : string) : Prop :=
  if RegexGHSA a then exists cve, CVEForGHSA af a = Val cve
  else if RegexCVE a then exists ghsas, GHSAsForCVE af a = Val ghsas
  else True.

(** The lookup for the alias [a] fails with [err]. *)
Definition failsWith (af : AliasFinder) (a : string) (err : goerror) : Prop :=
  if RegexGHSA a then
    exists e, CVEForGHSA af a = Fail e /\ err = ErrorResolving "GHSA" a e
  else if RegexCVE a then
    exists e, GHSAsForCVE af a = Fail e /\ err = ErrorResolving "CVE" a e
  else False.

(** The aliases written neither as a GHSA nor as a CVE. *)
Definition unknownFormat (aliases : list string) : list string :=
  filter (fun a => RegexGHSA a = false /\ RegexCVE a = false) aliases.

End RequestNotions.

(** *** Stand-ins for the libraries, for the examples *)

(** IDs are told apart by their prefix, every ID of the three kinds is
    valid, and an event is the name of its type. *)
Definition sampleLib : VulnLib :=
  {| RegexGHSA := fun s => GoStrings.HasPrefix s "GHSA-";
     RegexCVE := fun s => GoStrings.HasPrefix s "CVE-";
     RegexCGA := fun s => GoStrings.HasPrefix s "CGA-";
     ValidateID := fun s =>
       if (GoStrings.HasPrefix s "GHSA-" || GoStrings.HasPrefix s "CVE-"
           || GoStrings.HasPrefix s "CGA-")%bool
       then None else Some "invalid vulnerability ID";
     V2Event := string;
     EventIsZero := fun e => String.eqb e "";
     EventValidate := fun _ => None |}.

(** A request for the package [openssl] with an event of type [fixed]. *)
Definition sampleRequest (id : string) (aliases : list string)
    : @Request sampleLib :=
  @Build_Request sampleLib "openssl" id aliases "fixed"%string.

(** A finder that knows one pair of aliases. *)
Definition sampleFinder : AliasFinder :=
  {| CVEForGHSA := fun ghsa =>
       if String.eqb ghsa "GHSA-2222-3333-4444" then Val "CVE-2024-0001"
       else Fail "no CVE found";
     GHSAsForCVE := fun cve =>
       if String.eqb cve "CVE-2024-0001" then Val ["GHSA-2222-3333-4444"]
       else Val [] |}.

End Advisory.

(* ===================================================================== *)
(** * Theorems *)
(* ===================================================================== *)

Section CutFacts.
Import GoStrings.

Lemma Cut_byte_absent (c : ascii) (s : string) :
  has_byte c s = false -> Cut s (String c EmptyString) = (s, EmptyString, false).
Proof.
  induction s as [|d r IH]; simpl; [reflexivity|].
  rewrite Ascii.eqb_sym.
  destruct (Ascii.eqb d c) eqn:E; [discriminate|].
  intros H. rewrite (IH H). reflexivity.
Qed.

Lemma Cut_byte_first (c : ascii) (before after : string) :
  has_byte c before = false ->
  Cut (before +:+ String c after) (String c EmptyString) = (before, after, true).
Proof.
  induction before as [|d r IH]; simpl.
  - intros _. rewrite Ascii.eqb_refl. reflexivity.
  - rewrite Ascii.eqb_sym.
    destruct (Ascii.eqb d c) eqn:E; [discriminate|].
    intros H. rewrite (IH H). reflexivity.
Qed.

Lemma append_cons (c : ascii) (s t : string) :
  String c s +:+ t = String c (s +:+ t).
Proof. reflexivity. Qed.

Lemma append_assoc (s t u : string) : (s +:+ t) +:+ u = s +:+ t +:+ u.
Proof.
  induction s as [|c r IH]; [reflexivity|].
  rewrite !append_cons. f_equal. exact IH.
Qed.

Lemma has_byte_app (c : ascii) (s t : string) :
  has_byte c (s +:+ t) = (has_byte c s || has_byte c t)%bool.
Proof.
  induction s as [|d r IH]; [reflexivity|].
  rewrite append_cons. cbn [has_byte].
  destruct (Ascii.eqb c d); [reflexivity|apply IH].
Qed.
End CutFacts.

(** C9.  The parser cuts at the first [':'] and cuts the text before it at
    the first ['/']: the two documented inputs give the documented records,
    an input without [':'] is refused with the format error, and every
    input with a [':'] is accepted whatever its parts are (also empty
    ones), so nothing else is validated. *)
Theorem ParseGCSFuseMount_spec :
  ParseGCSFuseMount "bucket/dir:/mnt"
    = Ok {| Bucket := "bucket"; Mount := "/mnt"; OnlyDir := "dir" |}
  /\ ParseGCSFuseMount "bucket:/mnt"
    = Ok {| Bucket := "bucket"; Mount := "/mnt"; OnlyDir := "" |}
  /\ (forall s : string,
        GoStrings.has_byte ":" s = false ->
        ParseGCSFuseMount s = Err (ErrGCSFuseSpec s))
  /\ (forall bucket mount : string,
        GoStrings.has_byte ":" bucket = false ->
        GoStrings.has_byte "/" bucket = false ->
        ParseGCSFuseMount (bucket +:+ ":" +:+ mount)
          = Ok {| Bucket := bucket; Mount := mount; OnlyDir := "" |})
  /\ (forall bucket onlydir mount : string,
        GoStrings.has_byte ":" bucket = false ->
        GoStrings.has_byte "/" bucket = false ->
        GoStrings.has_byte ":" onlydir = false ->
        ParseGCSFuseMount (bucket +:+ "/" +:+ onlydir +:+ ":" +:+ mount)
          = Ok {| Bucket := bucket; Mount := mount; OnlyDir := onlydir |}).
Proof.
  repeat split.
  - intros s Hs. unfold ParseGCSFuseMount.
    rewrite (Cut_byte_absent _ _ Hs). reflexivity.
  - intros bucket mount Hc Hs. unfold ParseGCSFuseMount.
    change (":" +:+ mount) with (String ":" mount).
    rewrite (Cut_byte_first ":" bucket mount Hc). simpl negb. cbv iota.
    rewrite (Cut_byte_absent _ _ Hs). reflexivity.
  - intros bucket onlydir mount Hc Hs Hd. unfold ParseGCSFuseMount.
    change (":" +:+ mount) with (String ":" mount).
    change ("/" +:+ onlydir +:+ String ":" mount)
      with (String "/" onlydir +:+ String ":" mount).
    rewrite <- append_assoc.
    rewrite (Cut_byte_first ":" (bucket +:+ String "/" onlydir) mount).
    2:{ rewrite has_byte_app. simpl. rewrite Hc, Hd. reflexivity. }
    simpl negb. cbv iota.
    rewrite (Cut_byte_first "/" bucket onlydir Hs). reflexivity.
Qed.

(** C9 on three more inputs: no delimiter, only the delimiter, several
    delimiters. *)
Lemma ParseGCSFuseMount_spec_witness :
  ParseGCSFuseMount "no-delimiter" = Err (ErrGCSFuseSpec "no-delimiter")
  /\ ParseGCSFuseMount ":" = Ok {| Bucket := ""; Mount := ""; OnlyDir := "" |}
  /\ ParseGCSFuseMount "b/a/c:x:y" = Ok {| Bucket := "b"; Mount := "x:y"; OnlyDir := "a/c" |}.
Proof.
  destruct ParseGCSFuseMount_spec as (_ & _ & Hno & Hb & Hd).
  split; [|split].
  - apply (Hno "no-delimiter"). reflexivity.
  - apply (Hb "" ""); reflexivity.
  - apply (Hd "b" "a/c" "x:y"); reflexivity.
Defined.

(* --------------------------------------------------------------------- *)
(** ** Pod specification: resources *)
(* --------------------------------------------------------------------- *)

Section PodspecFacts.
Context {T : GoTypes} {A : ArchLib} {L : PodLib}.

Lemma String_eqb_decide (a b : string) :
  String.eqb a b = bool_decide (a = b).
Proof.
  destruct (String.eqb_spec a b) as [E|E].
  - symmetry. now apply bool_decide_eq_true.
  - symmetry. now apply bool_decide_eq_false.
Qed.

Lemma resolveResources_requested (task : Task) :
  resolveResources task
  = {| CPU := requested CPU "2" task; Memory := requested Memory "4Gi" task |}.
Proof.
  unfold resolveResources, requested.
  destruct (TaskResources task) as [[c m]|]; [|reflexivity]. simpl.
  rewrite !String_eqb_decide.
  repeat case_decide; repeat case_bool_decide; simpl; congruence.
Qed.

Lemma adjustCPU_capped (goarch : string) (cpu : spec_float) :
  adjustCPU goarch cpu = Float64.mul (capped goarch cpu) packing_factor.
Proof.
  unfold adjustCPU, capped. rewrite String_eqb_decide.
  case_decide; case_bool_decide; simpl; congruence.
Qed.

(** The three ways a call of [Podspec] ends, by what the libraries say
    about the two resource texts. *)
Lemma Podspec_cases (task : Task) (ref arch mFamily sa ns : string) :
  let goarch := ParseArchitecture arch in
  let cpuText := requested CPU "2" task in
  let memText := requested Memory "4Gi" task in
  match ParseFloat cpuText with
  | Fail e => Podspec task ref arch mFamily sa ns = Err (ErrParsingCPU cpuText e)
  | Val cpu =>
      let adjusted :=
        Float64.format_f (Float64.mul (capped goarch cpu) packing_factor) in
      match MustParse adjusted, MustParse memText with
      | Some qcpu, Some qmem =>
          exists pod,
            Podspec task ref arch mFamily sa ns = Ok pod
            /\ podResources pod =
                 [ {| Limits := ∅;
                      Requests := <["memory" := qmem]> (<["cpu" := qcpu]> ∅) |} ]
            /\ PodAffinity (Spec pod) =
                 (if decide (goarch = "arm64")
                  then Some (machineFamilyAffinity "t2a")
                  else if decide (mFamily = "") then None
                       else Some (machineFamilyAffinity mFamily))
      | _, _ => exists w, Podspec task ref arch mFamily sa ns = Panic w
      end
  end.
Proof.
  intros goarch cpuText memText. unfold Podspec.
  rewrite resolveResources_requested. cbn [CPU Memory].
  fold goarch cpuText memText.
  destruct (ParseFloat cpuText) as [cpu|e]; [|reflexivity].
  rewrite adjustCPU_capped. cbv zeta. unfold mustParse.
  destruct (MustParse (Float64.format_f _)) as [qcpu|];
    [|eexists; reflexivity].
  destruct (MustParse memText) as [qmem|]; [|eexists; reflexivity].
  cbn [mbind outcome_bind].
  rewrite String_eqb_decide.
  destruct (decide (goarch = "arm64")) as [Ha|Ha].
  - rewrite bool_decide_eq_true_2 by assumption.
    eexists. split; [reflexivity|]. split; reflexivity.
  - rewrite bool_decide_eq_false_2 by assumption.
    eexists. split; [reflexivity|]. split; [reflexivity|].
    cbn [Spec PodAffinity]. rewrite String_eqb_decide.
    destruct (decide (mFamily = "")).
    + now rewrite bool_decide_eq_true_2.
    + now rewrite bool_decide_eq_false_2.
Qed.

(** C1.  The CPU text is the task's non-empty override or ["2"], the
    memory text the task's non-empty override or ["4Gi"], each on its
    own; the CPU text is read as a float64, capped at 48 on arm64 only,
    multiplied by 0.98 and written with [%f]; a returned pod requests
    exactly these two quantities and sets no limits, and a pod is
    returned whenever the three texts are accepted.  With the override
    ["96"] the request is the quantity written [47.040000] on arm64 and
    [94.080000] on every other architecture. *)
Theorem Podspec_cpu_request (task : Task) (ref arch mFamily sa ns : string) :
  let goarch := ParseArchitecture arch in
  let cpuText := requested CPU "2" task in
  let memText := requested Memory "4Gi" task in
  let adjusted cpu :=
    Float64.format_f (Float64.mul (capped goarch cpu) packing_factor) in
  (forall pod,
      Podspec task ref arch mFamily sa ns = Ok pod ->
      exists cpu qcpu qmem,
        ParseFloat cpuText = Val cpu
        /\ MustParse (adjusted cpu) = Some qcpu
        /\ MustParse memText = Some qmem
        /\ podResources pod =
             [ {| Limits := ∅;
                  Requests := <["memory" := qmem]> (<["cpu" := qcpu]> ∅) |} ])
  /\ (forall cpu qcpu qmem,
        ParseFloat cpuText = Val cpu ->
        MustParse (adjusted cpu) = Some qcpu ->
        MustParse memText = Some qmem ->
        exists pod, Podspec task ref arch mFamily sa ns = Ok pod)
  /\ (forall r pod,
        TaskResources task = Some r -> CPU r = "96" ->
        ParseFloat "96" = Val (Float64.of_Z 96) ->
        Podspec task ref arch mFamily sa ns = Ok pod ->
        exists rr,
          podResources pod = [rr] /\ Limits rr = ∅
          /\ is_Some (Requests rr !! "cpu")
          /\ Requests rr !! "cpu" =
               MustParse (if decide (goarch = "arm64")
                          then "47.040000" else "94.080000")).
Proof.
  intros goarch cpuText memText adjusted.
  pose proof (Podspec_cases task ref arch mFamily sa ns) as HC.
  cbv zeta in HC. fold goarch cpuText memText in HC.
  assert (Hgen : forall pod,
      Podspec task ref arch mFamily sa ns = Ok pod ->
      exists cpu qcpu qmem,
        ParseFloat cpuText = Val cpu
        /\ MustParse (adjusted cpu) = Some qcpu
        /\ MustParse memText = Some qmem
        /\ podResources pod =
             [ {| Limits := ∅;
                  Requests := <["memory" := qmem]> (<["cpu" := qcpu]> ∅) |} ]).
  { intros pod Hpod.
    destruct (ParseFloat cpuText) as [cpu|e]; [|congruence].
    fold (adjusted cpu) in HC.
    destruct (MustParse (adjusted cpu)) as [qcpu|] eqn:Hq.
    - destruct (MustParse memText) as [qmem|] eqn:Hm.
      + destruct HC as (pod' & Hp & Hr & _).
        assert (pod' = pod) by congruence. subst pod'.
        exists cpu, qcpu, qmem. rewrite Hq. auto.
      + destruct HC as [w Hw]. congruence.
    - destruct HC as [w Hw]. congruence. }
  split; [exact Hgen|]. split.
  - intros cpu qcpu qmem Hcpu Hq Hm. rewrite Hcpu in HC.
    fold (adjusted cpu) in HC. rewrite Hq, Hm in HC.
    destruct HC as (pod & Hp & _). eauto.
  - intros r pod Hr H96 Hparse Hpod.
    destruct (Hgen pod Hpod) as (cpu & qcpu & qmem & Hcpu & Hq & Hm & Hres).
    assert (HcpuText : cpuText = "96").
    { unfold cpuText, requested. rewrite Hr, H96. reflexivity. }
    rewrite HcpuText, Hparse in Hcpu. injection Hcpu as <-.
    eexists. split; [exact Hres|]. cbn [Limits Requests].
    split; [reflexivity|].
    rewrite lookup_insert_ne by discriminate. rewrite lookup_insert_eq.
    split; [eauto|]. rewrite <- Hq. f_equal.
    unfold adjusted, capped.
    destruct (decide (goarch = "arm64")); vm_compute; reflexivity.
Qed.

(** C2, as the code has it.  A returned pod carries the hard
    node-affinity constraint exactly when the hint is not empty or the
    architecture is arm64; the constraint is one selector term with one
    requirement, that the label [cloud.google.com/machine-family] be [In]
    a list of one machine family: ["t2a"] on arm64, whatever the hint
    (also an empty one), and the hint on every other architecture. *)
Theorem Podspec_machine_family (task : Task) (ref arch mFamily sa ns : string)
    (pod : Pod) :
  Podspec task ref arch mFamily sa ns = Ok pod ->
  let goarch := ParseArchitecture arch in
  let requires (family : string) :=
    PodAffinity (Spec pod)
    = Some {| RequiredNodeSelectorTerms :=
                [ {| MatchExpressions :=
                       [ {| ReqKey := "cloud.google.com/machine-family";
                            ReqOperator := "In";
                            ReqValues := [family] |} ] |} ] |}
    /\ requiredFamilies pod = Some [[family]] in
  (is_Some (PodAffinity (Spec pod)) <-> mFamily <> "" \/ goarch = "arm64")
  /\ (goarch = "arm64" -> requires "t2a")
  /\ (goarch <> "arm64" -> mFamily <> "" -> requires mFamily).
Proof.
  intros Hpod goarch requires.
  pose proof (Podspec_cases task ref arch mFamily sa ns) as HC.
  cbv zeta in HC. fold goarch in HC.
  destruct (ParseFloat _) as [cpu|e]; [|congruence].
  destruct (MustParse (Float64.format_f _)) as [qcpu|];
    [|destruct HC; congruence].
  destruct (MustParse _) as [qmem|]; [|destruct HC; congruence].
  destruct HC as (pod' & Hp & _ & Haff).
  assert (pod' = pod) by congruence. subst pod'.
  unfold requires, requiredFamilies. rewrite Haff.
  destruct (decide (goarch = "arm64")) as [Ha|Ha].
  - split; [split; eauto|]. split; [split; reflexivity|congruence].
  - destruct (decide (mFamily = "")) as [Hm|Hm].
    + split; [|split; congruence].
      split; [intros [x Hx]; discriminate|intros [?|?]; congruence].
    + split; [split; eauto|]. split; [congruence|split; reflexivity].
Qed.

(** C10.  [Podspec] returns an error exactly when the CPU text is refused
    by the float parser, and the error is the one about the CPU; a
    memory text that is no quantity is never reported that way: once the
    CPU text is accepted the call panics instead of returning. *)
Theorem Podspec_error_only_cpu (task : Task) (ref arch mFamily sa ns : string) :
  let cpuText := requested CPU "2" task in
  let memText := requested Memory "4Gi" task in
  (forall e,
      Podspec task ref arch mFamily sa ns = Err e <->
      exists cause,
        ParseFloat cpuText = Fail cause /\ e = ErrParsingCPU cpuText cause)
  /\ (forall cpu,
        ParseFloat cpuText = Val cpu ->
        MustParse memText = None ->
        exists w, Podspec task ref arch mFamily sa ns = Panic w).
Proof.
  intros cpuText memText.
  pose proof (Podspec_cases task ref arch mFamily sa ns) as HC.
  cbv zeta in HC. fold cpuText memText in HC.
  split.
  - intros e. destruct (ParseFloat cpuText) as [cpu|cause].
    + split.
      * intros He.
        destruct (MustParse (Float64.format_f _)), (MustParse memText);
          destruct HC as [x Hx];
          first [congruence | destruct Hx as [Hx _]; congruence].
      * intros (cause & Hc & _). discriminate.
    + rewrite HC. split.
      * intros [= <-]. eauto.
      * intros (c & [= <-] & ->). reflexivity.
  - intros cpu Hcpu Hmem. rewrite Hcpu, Hmem in HC.
    destruct (MustParse (Float64.format_f _)); exact HC.
Qed.

End PodspecFacts.

(* --------------------------------------------------------------------- *)
(** ** The tasks layer *)
(* --------------------------------------------------------------------- *)

Section TaskJSONFacts.
Context {T : GoTypes} {J : JsonLib}.

Lemma decodeStrings_JString (l old : list string) :
  decodeStrings old (map JString l) = Val l.
Proof.
  revert old. induction l as [|x l IH]; intros old; [reflexivity|].
  cbn [map decodeStrings decodeString]. cbn [mbind goresult_bind].
  rewrite IH. reflexivity.
Qed.

(** A slice without array takes the strings of an array as they are. *)
Lemma decodeStringSlice_JString (l : list string) :
  decodeStringSlice [] [] (JArray (map JString l)) = Val (l, []).
Proof.
  destruct l as [|x l]; [reflexivity|].
  unfold decodeStringSlice. cbn [map app].
  change (JString x :: map JString l) with (map JString (x :: l)).
  rewrite decodeStrings_JString. cbn [mbind goresult_bind].
  now rewrite drop_nil.
Qed.

Lemma isNil_true {A : Type} (l : list A) : isNil l = true -> l = [].
Proof. destruct l; [reflexivity|discriminate]. Qed.

Lemma decodeResources_marshal (r : Resources) :
  decodeResources None (marshalResources r) = Val (Some r).
Proof.
  destruct r as [c m]. unfold marshalResources, optMember. cbn [CPU Memory].
  destruct (String.eqb_spec c ""), (String.eqb_spec m ""); subst;
    try reflexivity.
Qed.

Lemma decodeUint64_in_range (old n : Z) :
  0 <= n < 2 ^ 64 -> decodeUint64 old (JNumber n) = Val n.
Proof.
  intros [Hlo Hhi]. unfold decodeUint64.
  apply Z.leb_le in Hlo. apply Z.ltb_lt in Hhi. now rewrite Hlo, Hhi.
Qed.

(** What a member of the document of a task does to the task decoded so
    far. *)
Lemma setTaskField_package (st : TaskState) (x : string) :
  setTaskField st "package" (JString x)
  = Val (withTask st
           {| Package := x; Version := Version (Decoded st);
              Epoch := Epoch (Decoded st); Path := Path (Decoded st);
              SourceDir := SourceDir (Decoded st);
              Architectures := Architectures (Decoded st);
              Subpackages := Subpackages (Decoded st);
              TaskResources := TaskResources (Decoded st);
              BuildDateEpoch := BuildDateEpoch (Decoded st) |}).
Proof. reflexivity. Qed.

Lemma setTaskField_version (st : TaskState) (x : string) :
  setTaskField st "version" (JString x)
  = Val (withTask st
           {| Package := Package (Decoded st); Version := x;
              Epoch := Epoch (Decoded st); Path := Path (Decoded st);
              SourceDir := SourceDir (Decoded st);
              Architectures := Architectures (Decoded st);
              Subpackages := Subpackages (Decoded st);
              TaskResources := TaskResources (Decoded st);
              BuildDateEpoch := BuildDateEpoch (Decoded st) |}).
Proof. reflexivity. Qed.

Lemma setTaskField_epoch (st : TaskState) (n : Z) :
  0 <= n < 2 ^ 64 ->
  setTaskField st "epoch" (JNumber n)
  = Val (withTask st
           {| Package := Package (Decoded st); Version := Version (Decoded st);
              Epoch := n; Path := Path (Decoded st);
              SourceDir := SourceDir (Decoded st);
              Architectures := Architectures (Decoded st);
              Subpackages := Subpackages (Decoded st);
              TaskResources := TaskResources (Decoded st);
              BuildDateEpoch := BuildDateEpoch (Decoded st) |}).
Proof.
  intros Hn.
  change (setTaskField st "epoch" (JNumber n))
    with (x ← decodeUint64 (Epoch (Decoded st)) (JNumber n);
          Val (withTask st
                 {| Package := Package (Decoded st);
                    Version := Version (Decoded st);
                    Epoch := x; Path := Path (Decoded st);
                    SourceDir := SourceDir (Decoded st);
                    Architectures := Architectures (Decoded st);
                    Subpackages := Subpackages (Decoded st);
                    TaskResources := TaskResources (Decoded st);
                    BuildDateEpoch := BuildDateEpoch (Decoded st) |})).
  rewrite decodeUint64_in_range by assumption. reflexivity.
Qed.

Lemma setTaskField_path (st : TaskState) (x : string) :
  setTaskField st "path" (JString x)
  = Val (withTask st
           {| Package := Package (Decoded st); Version := Version (Decoded st);
              Epoch := Epoch (Decoded st); Path := x;
              SourceDir := SourceDir (Decoded st);
              Architectures := Architectures (Decoded st);
              Subpackages := Subpackages (Decoded st);
              TaskResources := TaskResources (Decoded st);
              BuildDateEpoch := BuildDateEpoch (Decoded st) |}).
Proof. reflexivity. Qed.

Lemma setTaskField_sourceDir (st : TaskState) (x : string) :
  setTaskField st "sourceDir" (JString x)
  = Val (withTask st
           {| Package := Package (Decoded st); Version := Version (Decoded st);
              Epoch := Epoch (Decoded st); Path := Path (Decoded st);
              SourceDir := x;
              Architectures := Architectures (Decoded st);
              Subpackages := Subpackages (Decoded st);
              TaskResources := TaskResources (Decoded st);
              BuildDateEpoch := BuildDateEpoch (Decoded st) |}).
Proof. reflexivity. Qed.

Lemma setTaskField_architectures (st : TaskState) (l : list string) :
  Architectures (Decoded st) = [] ->
  ArchitecturesSpare st = [] ->
  setTaskField st "architectures" (JArray (map JString l))
  = Val (withTask st
           {| Package := Package (Decoded st); Version := Version (Decoded st);
              Epoch := Epoch (Decoded st); Path := Path (Decoded st);
              SourceDir := SourceDir (Decoded st);
              Architectures := l;
              Subpackages := Subpackages (Decoded st);
              TaskResources := TaskResources (Decoded st);
              BuildDateEpoch := BuildDateEpoch (Decoded st) |}).
Proof.
  intros He Hs.
  change (setTaskField st "architectures" (JArray (map JString l)))
    with ('(x, spare) ← decodeStringSlice (Architectures (Decoded st))
                          (ArchitecturesSpare st) (JArray (map JString l));
          Val {| Decoded :=
                   {| Package := Package (Decoded st);
                      Version := Version (Decoded st);
                      Epoch := Epoch (Decoded st); Path := Path (Decoded st);
                      SourceDir := SourceDir (Decoded st);
                      Architectures := x;
                      Subpackages := Subpackages (Decoded st);
                      TaskResources := TaskResources (Decoded st);
                      BuildDateEpoch := BuildDateEpoch (Decoded st) |};
                 ArchitecturesSpare := spare;
                 SubpackagesSpare := SubpackagesSpare st |}).
  rewrite He, Hs, decodeStringSlice_JString. cbn [mbind goresult_bind].
  unfold withTask. now rewrite Hs.
Qed.

Lemma setTaskField_subpackages (st : TaskState) (l : list string) :
  Subpackages (Decoded st) = [] ->
  SubpackagesSpare st = [] ->
  setTaskField st "subpackages" (JArray (map JString l))
  = Val (withTask st
           {| Package := Package (Decoded st); Version := Version (Decoded st);
              Epoch := Epoch (Decoded st); Path := Path (Decoded st);
              SourceDir := SourceDir (Decoded st);
              Architectures := Architectures (Decoded st);
              Subpackages := l;
              TaskResources := TaskResources (Decoded st);
              BuildDateEpoch := BuildDateEpoch (Decoded st) |}).
Proof.
  intros He Hs.
  change (setTaskField st "subpackages" (JArray (map JString l)))
    with ('(x, spare) ← decodeStringSlice (Subpackages (Decoded st))
                          (SubpackagesSpare st) (JArray (map JString l));
          Val {| Decoded :=
                   {| Package := Package (Decoded st);
                      Version := Version (Decoded st);
                      Epoch := Epoch (Decoded st); Path := Path (Decoded st);
                      SourceDir := SourceDir (Decoded st);
                      Architectures := Architectures (Decoded st);
                      Subpackages := x;
                      TaskResources := TaskResources (Decoded st);
                      BuildDateEpoch := BuildDateEpoch (Decoded st) |};
                 ArchitecturesSpare := ArchitecturesSpare st;
                 SubpackagesSpare := spare |}).
  rewrite He, Hs, decodeStringSlice_JString. cbn [mbind goresult_bind].
  unfold withTask. now rewrite Hs.
Qed.

Lemma setTaskField_resources (st : TaskState) (r : Resources) :
  TaskResources (Decoded st) = None ->
  setTaskField st "resources" (marshalResources r)
  = Val (withTask st
           {| Package := Package (Decoded st); Version := Version (Decoded st);
              Epoch := Epoch (Decoded st); Path := Path (Decoded st);
              SourceDir := SourceDir (Decoded st);
              Architectures := Architectures (Decoded st);
              Subpackages := Subpackages (Decoded st);
              TaskResources := Some r;
              BuildDateEpoch := BuildDateEpoch (Decoded st) |}).
Proof.
  intros Hr.
  change (setTaskField st "resources" (marshalResources r))
    with (x ← decodeResources (TaskResources (Decoded st)) (marshalResources r);
          Val (withTask st
                 {| Package := Package (Decoded st);
                    Version := Version (Decoded st);
                    Epoch := Epoch (Decoded st); Path := Path (Decoded st);
                    SourceDir := SourceDir (Decoded st);
                    Architectures := Architectures (Decoded st);
                    Subpackages := Subpackages (Decoded st);
                    TaskResources := x;
                    BuildDateEpoch := BuildDateEpoch (Decoded st) |})).
  rewrite Hr, decodeResources_marshal. reflexivity.
Qed.

Lemma setTaskField_buildDateEpoch (st : TaskState) (s : string) (time : Time) :
  timeUnmarshalJSON s = Val time ->
  setTaskField st "buildDateEpoch" (JString s)
  = Val (withTask st
           {| Package := Package (Decoded st); Version := Version (Decoded st);
              Epoch := Epoch (Decoded st); Path := Path (Decoded st);
              SourceDir := SourceDir (Decoded st);
              Architectures := Architectures (Decoded st);
              Subpackages := Subpackages (Decoded st);
              TaskResources := TaskResources (Decoded st);
              BuildDateEpoch := time |}).
Proof.
  intros Ht.
  change (setTaskField st "buildDateEpoch" (JString s))
    with (x ← timeUnmarshalJSON s;
          Val (withTask st
                 {| Package := Package (Decoded st);
                    Version := Version (Decoded st);
                    Epoch := Epoch (Decoded st); Path := Path (Decoded st);
                    SourceDir := SourceDir (Decoded st);
                    Architectures := Architectures (Decoded st);
                    Subpackages := Subpackages (Decoded st);
                    TaskResources := TaskResources (Decoded st);
                    BuildDateEpoch := x |})).
  rewrite Ht. reflexivity.
Qed.

Lemma decodeMembers_app {X : Type} (set : X -> string -> json -> goresult X)
    (a : X) (l1 l2 : list (string * json)) :
  decodeMembers set a (l1 ++ l2)
  = a' ← decodeMembers set a l1; decodeMembers set a' l2.
Proof.
  revert a. induction l1 as [|[k v] l1 IH]; intros a; [reflexivity|].
  cbn [app decodeMembers]. destruct (set a k v); cbn [mbind goresult_bind];
    [apply IH|reflexivity].
Qed.

(** The optional members of the document of a task, each read into a task
    that has nothing yet for it. *)
Lemma decodeMembers_path (st : TaskState) (x : string) :
  Path (Decoded st) = "" ->
  decodeMembers setTaskField st (optMember "path" (String.eqb x "") (JString x))
  = Val (withTask st
           {| Package := Package (Decoded st); Version := Version (Decoded st);
              Epoch := Epoch (Decoded st); Path := x;
              SourceDir := SourceDir (Decoded st);
              Architectures := Architectures (Decoded st);
              Subpackages := Subpackages (Decoded st);
              TaskResources := TaskResources (Decoded st);
              BuildDateEpoch := BuildDateEpoch (Decoded st) |}).
Proof.
  intros Hold. unfold optMember. destruct (String.eqb_spec x "") as [->|_].
  - destruct st as [[] ? ?]. cbn in *. now subst.
  - cbn [decodeMembers]. now rewrite setTaskField_path.
Qed.

Lemma decodeMembers_sourceDir (st : TaskState) (x : string) :
  SourceDir (Decoded st) = "" ->
  decodeMembers setTaskField st
    (optMember "sourceDir" (String.eqb x "") (JString x))
  = Val (withTask st
           {| Package := Package (Decoded st); Version := Version (Decoded st);
              Epoch := Epoch (Decoded st); Path := Path (Decoded st);
              SourceDir := x;
              Architectures := Architectures (Decoded st);
              Subpackages := Subpackages (Decoded st);
              TaskResources := TaskResources (Decoded st);
              BuildDateEpoch := BuildDateEpoch (Decoded st) |}).
Proof.
  intros Hold. unfold optMember. destruct (String.eqb_spec x "") as [->|_].
  - destruct st as [[] ? ?]. cbn in *. now subst.
  - cbn [decodeMembers]. now rewrite setTaskField_sourceDir.
Qed.

Lemma decodeMembers_architectures (st : TaskState) (l : list string) :
  Architectures (Decoded st) = [] ->
  ArchitecturesSpare st = [] ->
  decodeMembers setTaskField st
    (optMember "architectures" (isNil l) (JArray (map JString l)))
  = Val (withTask st
           {| Package := Package (Decoded st); Version := Version (Decoded st);
              Epoch := Epoch (Decoded st); Path := Path (Decoded st);
              SourceDir := SourceDir (Decoded st);
              Architectures := l;
              Subpackages := Subpackages (Decoded st);
              TaskResources := TaskResources (Decoded st);
              BuildDateEpoch := BuildDateEpoch (Decoded st) |}).
Proof.
  intros Hold Hspare. unfold optMember. destruct (isNil l) eqn:Hl.
  - apply isNil_true in Hl. subst l.
    destruct st as [[] ? ?]. cbn in *. now subst.
  - cbn [decodeMembers]. now rewrite setTaskField_architectures.
Qed.

Lemma decodeMembers_subpackages (st : TaskState) (l : list string) :
  Subpackages (Decoded st) = [] ->
  SubpackagesSpare st = [] ->
  decodeMembers setTaskField st
    (optMember "subpackages" (isNil l) (JArray (map JString l)))
  = Val (withTask st
           {| Package := Package (Decoded st); Version := Version (Decoded st);
              Epoch := Epoch (Decoded st); Path := Path (Decoded st);
              SourceDir := SourceDir (Decoded st);
              Architectures := Architectures (Decoded st);
              Subpackages := l;
              TaskResources := TaskResources (Decoded st);
              BuildDateEpoch := BuildDateEpoch (Decoded st) |}).
Proof.
  intros Hold Hspare. unfold optMember. destruct (isNil l) eqn:Hl.
  - apply isNil_true in Hl. subst l.
    destruct st as [[] ? ?]. cbn in *. now subst.
  - cbn [decodeMembers]. now rewrite setTaskField_subpackages.
Qed.

Lemma decodeMembers_resources (st : TaskState) (res : option Resources) :
  TaskResources (Decoded st) = None ->
  decodeMembers setTaskField st
    match res with
    | Some r => [("resources", marshalResources r)]
    | None => []
    end
  = Val (withTask st
           {| Package := Package (Decoded st); Version := Version (Decoded st);
              Epoch := Epoch (Decoded st); Path := Path (Decoded st);
              SourceDir := SourceDir (Decoded st);
              Architectures := Architectures (Decoded st);
              Subpackages := Subpackages (Decoded st);
              TaskResources := res;
              BuildDateEpoch := BuildDateEpoch (Decoded st) |}).
Proof.
  intros Hold. destruct res as [r|].
  - cbn [decodeMembers]. now rewrite setTaskField_resources.
  - destruct st as [[] ? ?]. cbn in *. now subst.
Qed.

(** The task decoded so far, with its fields read off. *)
Ltac task_state :=
  cbn [mbind goresult_bind withTask Decoded ArchitecturesSpare SubpackagesSpare
       Package Version Epoch Path SourceDir Architectures Subpackages
       TaskResources BuildDateEpoch].

(** One task: its document is read back as the task. *)
Lemma decodeTask_marshalTask (t : Task) (v : json) :
  0 <= Epoch t < 2 ^ 64 ->
  (forall s, timeMarshalJSON (BuildDateEpoch t) = Val s ->
             timeUnmarshalJSON s = Val (BuildDateEpoch t)) ->
  marshalTask t = Val v ->
  decodeTask v = Val t.
Proof.
  intros Hepoch Htime. unfold marshalTask.
  destruct (timeMarshalJSON (BuildDateEpoch t)) as [s|e] eqn:Hs; [|discriminate].
  specialize (Htime s eq_refl).
  cbn [mbind goresult_bind]. intros [= <-].
  destruct t as [pkg ver ep pa sd ar su res bd]. cbn [Package Version Epoch Path
    SourceDir Architectures Subpackages TaskResources BuildDateEpoch] in *.
  unfold decodeTask, zeroTask. cbn [app decodeMembers].
  rewrite setTaskField_package. task_state.
  rewrite setTaskField_version. task_state.
  rewrite setTaskField_epoch by assumption. task_state.
  rewrite decodeMembers_app, decodeMembers_path by reflexivity. task_state.
  rewrite decodeMembers_app, decodeMembers_sourceDir by reflexivity. task_state.
  rewrite decodeMembers_app, decodeMembers_architectures by reflexivity.
  task_state.
  rewrite decodeMembers_app, decodeMembers_subpackages by reflexivity.
  task_state.
  rewrite decodeMembers_app, decodeMembers_resources by reflexivity. task_state.
  cbn [decodeMembers].
  rewrite (setTaskField_buildDateEpoch _ _ _ Htime). reflexivity.
Qed.

Lemma decodeTaskItems_marshal (ts : list Task) (vs : list json) :
  Forall (fun t => 0 <= Epoch t < 2 ^ 64) ts ->
  Forall (fun t => forall s, timeMarshalJSON (BuildDateEpoch t) = Val s ->
                             timeUnmarshalJSON s = Val (BuildDateEpoch t)) ts ->
  marshalTaskItems ts = Val vs ->
  decodeTaskItems vs = Val ts.
Proof.
  revert vs. induction ts as [|t ts IH]; intros vs Hep Htm.
  - intros [= <-]. reflexivity.
  - apply Forall_cons in Hep as [Hep1 Hep]. apply Forall_cons in Htm as [Htm1 Htm].
    cbn [marshalTaskItems].
    destruct (marshalTask t) as [v|e] eqn:Hv; [|discriminate].
    cbn [mbind goresult_bind].
    destruct (marshalTaskItems ts) as [vs'|e]; [|discriminate].
    cbn [mbind goresult_bind]. intros [= <-].
    cbn [decodeTaskItems].
    rewrite (decodeTask_marshalTask t v Hep1 Htm1 Hv).
    cbn [mbind goresult_bind]. rewrite (IH vs' Hep Htm eq_refl). reflexivity.
Qed.

(** C7, as the code has it.  A task list written as the tasks layer and
    read back the way [Pull] reads that layer is the list itself, field
    for field, for the lists the libraries write and read back: the time
    of each task has a JSON text from which it is read back, and the JSON
    text of the document is read back as the document (its strings are
    UTF-8); the epochs are those of a uint64. *)
Theorem tasks_layer_roundtrip (ts : list Task) (bytes : string) :
  Forall (fun t => 0 <= Epoch t < 2 ^ 64) ts ->
  Forall (fun t => forall s, timeMarshalJSON (BuildDateEpoch t) = Val s ->
                             timeUnmarshalJSON s = Val (BuildDateEpoch t)) ts ->
  (forall v, marshalTasks ts = Val v -> jsonDecode (jsonEncode v) = Val v) ->
  encodeTasks ts = Val bytes ->
  decodeTasks bytes = Val ts.
Proof.
  intros Hep Htm Htext. unfold encodeTasks, decodeTasks.
  destruct (marshalTasks ts) as [v|e] eqn:Hv; [|discriminate].
  cbn [mbind goresult_bind]. intros [= <-].
  rewrite (Htext v eq_refl). cbn [mbind goresult_bind].
  unfold marshalTasks in Hv.
  destruct (marshalTaskItems ts) as [vs|e] eqn:Hvs; [|discriminate].
  injection Hv as <-. cbn [unmarshalTasks].
  exact (decodeTaskItems_marshal ts vs Hep Htm Hvs).
Qed.

End TaskJSONFacts.

(* --------------------------------------------------------------------- *)
(** ** Pulling a bundle *)
(* --------------------------------------------------------------------- *)

Section PullFacts.
Context {T : GoTypes} {J : JsonLib} {R : RegistryLib}.

Lemma lift_Ok {A : Type} (r : goresult A) (a : A) :
  lift r = Ok a <-> r = Val a.
Proof. destruct r; cbn; split; congruence. Qed.

(** What one manifest does to the bundle when it is processed without
    failure. *)
Lemma pullManifest_Ok (pull : string) (ref : Reference) (idx : ImageIndex)
    (b b' : Bundles) (d : Descriptor) :
  pullManifest pull ref idx b d = Ok b' ->
  (if decide (bundleAnnotation d = "graph")
   then holdsGraph idx d (Graph b') else Graph b' = Graph b)
  /\ (if decide (bundleAnnotation d = "tasks")
      then holdsTasks idx d (Tasks b') else Tasks b' = Tasks b)
  /\ (if decide (bundleAnnotation d = "runtime")
      then Runtime b' = Repository_Digest (Context ref) (Hash_String (Digest d))
      else Runtime b' = Runtime b).
Proof.
  unfold pullManifest. rewrite !String_eqb_decide.
  destruct (decide (bundleAnnotation d = "graph")) as [Hg|Hg].
  { rewrite bool_decide_eq_true_2 by assumption. rewrite Hg.
    destruct (GetImage idx (Digest d)) as [img|] eqn:Hi; [|discriminate].
    cbn [lift mbind outcome_bind].
    destruct (Layers img) as [[|layer0 rest]|] eqn:Hl; try discriminate.
    cbn [lift mbind outcome_bind].
    destruct (Compressed layer0) as [rc|] eqn:Hc; [|discriminate].
    cbn [lift mbind outcome_bind].
    destruct (decodeGraph rc) as [g|] eqn:Hd; [|discriminate].
    cbn [lift mbind outcome_bind]. intros [= <-]. cbn.
    split; [|split; reflexivity].
    exists rc. split; [|assumption]. exists img, layer0, rest. auto. }
  rewrite bool_decide_eq_false_2 by assumption.
  destruct (decide (bundleAnnotation d = "tasks")) as [Ht|Ht].
  { rewrite bool_decide_eq_true_2 by assumption. rewrite Ht.
    destruct (GetImage idx (Digest d)) as [img|] eqn:Hi; [|discriminate].
    cbn [lift mbind outcome_bind].
    destruct (Layers img) as [[|layer0 rest]|] eqn:Hl; try discriminate.
    cbn [lift mbind outcome_bind].
    destruct (Compressed layer0) as [rc|] eqn:Hc; [|discriminate].
    cbn [lift mbind outcome_bind].
    destruct (decodeTasks rc) as [ts|] eqn:Hd; [|discriminate].
    cbn [lift mbind outcome_bind]. intros [= <-]. cbn.
    split; [reflexivity|]. split; [|reflexivity].
    exists rc. split; [|assumption]. exists img, layer0, rest. auto. }
  rewrite bool_decide_eq_false_2 by assumption.
  destruct (decide (bundleAnnotation d = "runtime")) as [Hr|Hr].
  { rewrite bool_decide_eq_true_2 by assumption.
    intros [= <-]. cbn. auto. }
  rewrite bool_decide_eq_false_2 by assumption.
  intros [= <-]. auto.
Qed.

(** The loop invariant of [Pull]: each part of the bundle comes from the
    last manifest annotated for it, and is untouched without one. *)
Lemma pullManifests_Ok (pull : string) (ref : Reference) (idx : ImageIndex)
    (descs : list Descriptor) :
  forall b b' : Bundles,
    pullManifests pull ref idx b descs = Ok b' ->
    match lastAnnotated "graph" descs with
    | Some d => holdsGraph idx d (Graph b')
    | None => Graph b' = Graph b
    end
    /\ match lastAnnotated "tasks" descs with
       | Some d => holdsTasks idx d (Tasks b')
       | None => Tasks b' = Tasks b
       end
    /\ match lastAnnotated "runtime" descs with
       | Some d =>
           Runtime b' = Repository_Digest (Context ref) (Hash_String (Digest d))
       | None => Runtime b' = Runtime b
       end.
Proof.
  induction descs as [|d rest IH]; intros b b'.
  - intros [= <-]. cbn. auto.
  - cbn [pullManifests].
    destruct (pullManifest pull ref idx b d) as [b1| |] eqn:Hd; try discriminate.
    cbn [mbind outcome_bind]. intros Hrest.
    destruct (pullManifest_Ok _ _ _ _ _ _ Hd) as (Hg & Ht & Hr).
    destruct (IH b1 b' Hrest) as (Hg' & Ht' & Hr').
    cbn [lastAnnotated].
    repeat split.
    + destruct (lastAnnotated "graph" rest); [assumption|].
      destruct (decide (bundleAnnotation d = "graph"));
        [rewrite Hg'; assumption|congruence].
    + destruct (lastAnnotated "tasks" rest); [assumption|].
      destruct (decide (bundleAnnotation d = "tasks"));
        [rewrite Ht'; assumption|congruence].
    + destruct (lastAnnotated "runtime" rest); [assumption|].
      destruct (decide (bundleAnnotation d = "runtime")); congruence.
Qed.

(** The loop ends without failure when every manifest annotated [graph]
    or [tasks] has a first layer that decodes: nothing is asked of the
    other manifests. *)
Lemma pullManifests_total (pull : string) (ref : Reference) (idx : ImageIndex)
    (descs : list Descriptor) :
  Forall (fun d => bundleAnnotation d = "graph" -> exists g, holdsGraph idx d g)
    descs ->
  Forall (fun d => bundleAnnotation d = "tasks" -> exists ts, holdsTasks idx d ts)
    descs ->
  forall b : Bundles, exists b', pullManifests pull ref idx b descs = Ok b'.
Proof.
  induction descs as [|d rest IH]; intros HG HT b.
  - eexists. reflexivity.
  - apply Forall_cons in HG as [Hg HG]. apply Forall_cons in HT as [Ht HT].
    cbn [pullManifests].
    assert (Hstep : exists b1, pullManifest pull ref idx b d = Ok b1).
    { unfold pullManifest. rewrite !String_eqb_decide.
      destruct (decide (bundleAnnotation d = "graph")) as [Eg|Eg].
      { rewrite bool_decide_eq_true_2 by assumption.
        destruct (Hg Eg) as (g & rc & (img & l0 & r & Hi & Hl & Hc) & Hd).
        rewrite Hi. cbn [lift mbind outcome_bind]. rewrite Hl.
        cbn [lift mbind outcome_bind]. rewrite Hc.
        cbn [lift mbind outcome_bind]. rewrite Hd.
        cbn [lift mbind outcome_bind]. eauto. }
      rewrite bool_decide_eq_false_2 by assumption.
      destruct (decide (bundleAnnotation d = "tasks")) as [Et|Et].
      { rewrite bool_decide_eq_true_2 by assumption.
        destruct (Ht Et) as (ts & rc & (img & l0 & r & Hi & Hl & Hc) & Hd).
        rewrite Hi. cbn [lift mbind outcome_bind]. rewrite Hl.
        cbn [lift mbind outcome_bind]. rewrite Hc.
        cbn [lift mbind outcome_bind]. rewrite Hd.
        cbn [lift mbind outcome_bind]. eauto. }
      rewrite bool_decide_eq_false_2 by assumption.
      destruct (bool_decide _); eauto. }
    destruct Hstep as [b1 Hb1]. rewrite Hb1. cbn [mbind outcome_bind].
    apply IH; assumption.
Qed.

Lemma Pull_unfold (pull : string) (ref : Reference) (idx : ImageIndex)
    (im : IndexManifest) :
  ParseReference pull = Val ref ->
  remoteIndex ref = Val idx ->
  GetIndexManifest idx = Val im ->
  Pull pull =
    match Manifests im with
    | [] => Err (ErrNoManifests pull)
    | _ => pullManifests pull ref idx zeroBundles (Manifests im)
    end.
Proof.
  intros Hr Hi Hm. unfold Pull. rewrite Hr. cbn [lift mbind outcome_bind].
  rewrite Hi. cbn [lift mbind outcome_bind]. rewrite Hm.
  cbn [lift mbind outcome_bind]. destruct (Manifests im); reflexivity.
Qed.

Lemma lastAnnotated_None (kind : string) (descs : list Descriptor) :
  Forall (fun d => bundleAnnotation d <> kind) descs ->
  lastAnnotated kind descs = None.
Proof.
  induction 1 as [|d rest Hd _ IH]; [reflexivity|].
  cbn [lastAnnotated]. rewrite IH. destruct (decide _); congruence.
Qed.

Lemma pullManifests_app (pull : string) (ref : Reference) (idx : ImageIndex)
    (pre post : list Descriptor) (b : Bundles) :
  pullManifests pull ref idx b (pre ++ post)
  = b1 ← pullManifests pull ref idx b pre; pullManifests pull ref idx b1 post.
Proof.
  revert b. induction pre as [|d pre IH]; intros b; [reflexivity|].
  cbn [app pullManifests].
  destruct (pullManifest pull ref idx b d); cbn [mbind outcome_bind];
    [apply IH|reflexivity|reflexivity].
Qed.

Lemma firstLayerBytes_fun (idx : ImageIndex) (d : Descriptor) (rc rc' : string) :
  firstLayerBytes idx d rc -> firstLayerBytes idx d rc' -> rc = rc'.
Proof.
  intros (img & l0 & r & Hi & Hl & Hc) (img' & l0' & r' & Hi' & Hl' & Hc').
  congruence.
Qed.

(** C5.  For an index whose manifests are annotated [tasks] or not at
    all as one of the three kinds, a bundle that [Pull] returns has the
    empty graph, the zero runtime reference and the task list decoded from
    the first layer of the (last) [tasks] manifest: when that layer holds
    the document of a task list, the bundle has this very list.  [Pull]
    does return a bundle when the index is not empty and these first
    layers decode.  A [runtime] manifest sets the runtime reference to the
    repository of the input reference with the digest of that manifest,
    and needs no layer: with only such manifests [Pull] returns even if no
    image can be fetched. *)
Theorem Pull_tasks_and_runtime (pull : string) (ref : Reference)
    (idx : ImageIndex) (im : IndexManifest) :
  ParseReference pull = Val ref ->
  remoteIndex ref = Val idx ->
  GetIndexManifest idx = Val im ->
  (Forall (fun d => bundleAnnotation d <> "graph"
                    /\ bundleAnnotation d <> "runtime") (Manifests im) ->
   (forall b,
       Pull pull = Ok b ->
       Graph b = ∅
       /\ Runtime b = Repository_Digest "" ""
       /\ match lastAnnotated "tasks" (Manifests im) with
          | Some d =>
              holdsTasks idx d (Tasks b)
              /\ forall rc docs ts,
                   firstLayerBytes idx d rc ->
                   jsonDecode rc = Val (JArray docs) ->
                   marshalTaskItems ts = Val docs ->
                   Forall (fun t => 0 <= Epoch t < 2 ^ 64) ts ->
                   Forall (fun t =>
                             forall s,
                               timeMarshalJSON (BuildDateEpoch t) = Val s ->
                               timeUnmarshalJSON s = Val (BuildDateEpoch t))
                     ts ->
                   Tasks b = ts
          | None => Tasks b = []
          end)
   /\ (Manifests im <> [] ->
       Forall (fun d => bundleAnnotation d = "tasks" ->
                        exists ts, holdsTasks idx d ts) (Manifests im) ->
       exists b, Pull pull = Ok b))
  /\ (forall d,
        lastAnnotated "runtime" (Manifests im) = Some d ->
        (forall b,
            Pull pull = Ok b ->
            Runtime b
            = Repository_Digest (Context ref) (Hash_String (Digest d)))
        /\ (Forall (fun d' => bundleAnnotation d' <> "graph"
                              /\ bundleAnnotation d' <> "tasks")
              (Manifests im) ->
            exists b, Pull pull = Ok b /\ Graph b = ∅ /\ Tasks b = [])).
Proof.
  intros Href Hidx Him.
  pose proof (Pull_unfold pull ref idx im Href Hidx Him) as HP.
  split.
  - intros Honly. split.
    + intros b Hb. rewrite HP in Hb.
      assert (Hloop : pullManifests pull ref idx zeroBundles (Manifests im) = Ok b).
      { destruct (Manifests im); [discriminate|exact Hb]. }
      destruct (pullManifests_Ok _ _ _ _ _ _ Hloop) as (Hg & Ht & Hr).
      rewrite lastAnnotated_None in Hg
        by (eapply Forall_impl; [exact Honly|]; cbn; tauto).
      rewrite lastAnnotated_None in Hr
        by (eapply Forall_impl; [exact Honly|]; cbn; tauto).
      split; [exact Hg|]. split; [exact Hr|].
      destruct (lastAnnotated "tasks" (Manifests im)) as [d|]; [|exact Ht].
      split; [exact Ht|].
      intros rc docs ts Hrc Hdoc Hdocs Hep Htm.
      destruct Ht as (rc' & Hrc' & Hdec).
      rewrite (firstLayerBytes_fun _ _ _ _ Hrc' Hrc) in Hdec.
      unfold decodeTasks in Hdec. rewrite Hdoc in Hdec.
      cbn [mbind goresult_bind unmarshalTasks] in Hdec.
      rewrite (decodeTaskItems_marshal ts docs Hep Htm Hdocs) in Hdec.
      congruence.
    + intros Hne Hdec. rewrite HP.
      destruct (pullManifests_total pull ref idx (Manifests im)) with (b := zeroBundles)
        as [b Hb]; [|exact Hdec|].
      * eapply Forall_impl; [exact Honly|]. cbn. tauto.
      * exists b. destruct (Manifests im); [congruence|exact Hb].
  - intros d Hd. split.
    + intros b Hb. rewrite HP in Hb.
      assert (Hloop : pullManifests pull ref idx zeroBundles (Manifests im) = Ok b).
      { destruct (Manifests im); [discriminate|exact Hb]. }
      destruct (pullManifests_Ok _ _ _ _ _ _ Hloop) as (_ & _ & Hr).
      rewrite Hd in Hr. exact Hr.
    + intros Honly.
      destruct (pullManifests_total pull ref idx (Manifests im)) with (b := zeroBundles)
        as [b Hb].
      * eapply Forall_impl; [exact Honly|]. cbn. tauto.
      * eapply Forall_impl; [exact Honly|]. cbn. tauto.
      * destruct (pullManifests_Ok _ _ _ _ _ _ Hb) as (Hg & Ht & _).
        rewrite lastAnnotated_None in Hg
          by (eapply Forall_impl; [exact Honly|]; cbn; tauto).
        rewrite lastAnnotated_None in Ht
          by (eapply Forall_impl; [exact Honly|]; cbn; tauto).
        exists b. rewrite HP. split; [|split; assumption].
        destruct (Manifests im); [discriminate|exact Hb].
Qed.

(** C6, as the code has it.  [Pull] fails with the error about the empty
    index when the index has no manifest; at the first manifest that
    fails, a [graph] or [tasks] manifest without layers gives the error of
    its kind, which names the digest of the manifest, while a first layer
    that does not decode gives the error of the decoder as it is.  An
    outcome that is an error carries no bundle. *)
Theorem Pull_failures (pull : string) (ref : Reference)
    (idx : ImageIndex) (im : IndexManifest) :
  ParseReference pull = Val ref ->
  remoteIndex ref = Val idx ->
  GetIndexManifest idx = Val im ->
  (Manifests im = [] -> Pull pull = Err (ErrNoManifests pull))
  /\ (forall pre d post b1,
        Manifests im = pre ++ d :: post ->
        pullManifests pull ref idx zeroBundles pre = Ok b1 ->
        (hasNoLayers idx d ->
         (bundleAnnotation d = "graph" ->
          Pull pull = Err (ErrNoGraphLayers (Hash_String (Digest d)) pull))
         /\ (bundleAnnotation d = "tasks" ->
             Pull pull = Err (ErrNoTasksLayers (Hash_String (Digest d)) pull)))
        /\ (forall rc e,
              firstLayerBytes idx d rc ->
              (bundleAnnotation d = "graph" -> decodeGraph rc = Fail e ->
               Pull pull = Err (ErrLib e))
              /\ (bundleAnnotation d = "tasks" -> decodeTasks rc = Fail e ->
                  Pull pull = Err (ErrLib e)))).
Proof.
  intros Href Hidx Him.
  pose proof (Pull_unfold pull ref idx im Href Hidx Him) as HP.
  split.
  - intros Hnil. rewrite HP, Hnil. reflexivity.
  - intros pre d post b1 Hms Hpre.
    assert (HP' : Pull pull
                  = b2 ← pullManifest pull ref idx b1 d;
                    pullManifests pull ref idx b2 post).
    { rewrite HP, Hms. rewrite pullManifests_app, Hpre.
      destruct pre; reflexivity. }
    rewrite HP'. unfold pullManifest. rewrite !String_eqb_decide.
    split.
    + intros (img & Hi & Hl). split; intros Hk; rewrite Hk; cbn;
        rewrite Hi; cbn; rewrite Hl; reflexivity.
    + intros rc e (img & l0 & r & Hi & Hl & Hc).
      split; intros Hk Hd; rewrite Hk; cbn;
        rewrite Hi; cbn; rewrite Hl; cbn; rewrite Hc; cbn; rewrite Hd;
        reflexivity.
Qed.

End PullFacts.

(* --------------------------------------------------------------------- *)
(** ** Composing an index *)
(* --------------------------------------------------------------------- *)

Section NewFacts.
Context {A : ArchLib} {I : ImageLib}.

Lemma haveArchsOf_lookup (descs : list Descriptor) :
  forall have0 have : gmap string Descriptor,
    haveArchsOf descs have0 = Ok have ->
    forall arch,
      have !! arch = match baseFor descs arch with
                     | Some d => Some d
                     | None => have0 !! arch
                     end.
Proof.
  induction descs as [|d rest IH]; intros have0 have.
  - intros [= <-] arch. reflexivity.
  - cbn [haveArchsOf baseFor].
    destruct (DescPlatform d) as [p|]; [|discriminate].
    intros Hrest arch. rewrite (IH _ _ Hrest arch).
    destruct (baseFor rest arch); [reflexivity|].
    destruct (decide (ParseArchitecture (Architecture p) = arch)) as [->|Hne].
    + apply lookup_insert_eq.
    + now apply lookup_insert_ne.
Qed.

Lemma haveArchsOf_total (descs : list Descriptor) :
  Forall (fun d => is_Some (DescPlatform d)) descs ->
  forall have0, exists have, haveArchsOf descs have0 = Ok have.
Proof.
  induction 1 as [|d ds [p Hp] _ IH]; intros have0; cbn [haveArchsOf].
  - eauto.
  - rewrite Hp. apply IH.
Qed.

Lemma outcome_bind_Ok {X Y : Type} (x : outcome X) (f : X -> outcome Y) (y : Y) :
  x ≫= f = Ok y -> exists a, x = Ok a /\ f a = Ok y.
Proof. destruct x; cbn; [eauto|discriminate|discriminate]. Qed.

(** One round of the loop that ends well has composed its manifest. *)
Lemma composeArch_Ok (base : ImageIndex) (descs : list Descriptor)
    (entrypoints : gmap string (option Entrypoint)) (commonfiles srcfs : Node)
    (have : gmap string Descriptor) (arch : string) (a : IndexAddendum) :
  (forall k, have !! k = baseFor descs k) ->
  composeArch base entrypoints commonfiles srcfs have arch = Ok a ->
  composedFor base descs entrypoints commonfiles srcfs arch a.
Proof.
  intros Hhave. unfold composeArch. rewrite Hhave.
  intros Hc. apply outcome_bind_Ok in Hc as ([baseImg platform] & Hbase & Hc).
  apply outcome_bind_Ok in Hc as (c & Hcl & Hc).
  apply outcome_bind_Ok in Hc as (s & Hsl & Hc).
  destruct (entrypoints !! arch) as [ep|] eqn:Hep; [|discriminate].
  apply outcome_bind_Ok in Hc as (e & Hel & Hc).
  apply outcome_bind_Ok in Hc as (img1 & Himg1 & Hc).
  apply outcome_bind_Ok in Hc as (cf1 & Hcf1 & Hc).
  apply outcome_bind_Ok in Hc as (img2 & Himg2 & Hc).
  apply outcome_bind_Ok in Hc as (nd & Hnd & Hc).
  injection Hc as <-. cbn [Add AddDescriptor DescPlatform].
  apply lift_Ok in Himg1, Hcf1, Himg2.
  unfold AppendLayers in Himg1.
  destruct (Layers baseImg) as [baseLayers|] eqn:Hbl; [|discriminate].
  destruct (GetConfigFile baseImg) as [cf0|] eqn:Hcf0; [|discriminate].
  cbn in Himg1. injection Himg1 as <-.
  cbn in Hcf1. injection Hcf1 as <-.
  unfold mutateConfigFile in Himg2. cbn in Himg2. injection Himg2 as <-.
  assert (Hfrom : composedFrom baseImg c s e
            {| Layers := Val (baseLayers ++ [c; s; e]);
               GetConfigFile :=
                 Val {| ConfigEntrypoint := ["/bin/sh"; "/entrypoint.sh"];
                        ConfigWorkingDir := "/";
                        ConfigOther := ConfigOther cf0 |};
               MediaType := MediaType baseImg |}).
  { exists baseLayers, cf0. auto. }
  exists ep, c, s, e. repeat (split; [assumption|]).
  destruct (baseFor descs arch) as [desc|].
  - apply outcome_bind_Ok in Hbase as (bi & Hbi & Hbase).
    injection Hbase as <- <-. apply lift_Ok in Hbi.
    split; [|reflexivity]. exists bi. auto.
  - injection Hbase as <- <-. auto.
Qed.

(** The loop is the rounds one after the other, the manifests appended in
    that order. *)
Lemma composeArchs_Ok (base : ImageIndex)
    (entrypoints : gmap string (option Entrypoint)) (commonfiles srcfs : Node)
    (have : gmap string Descriptor) (archs : list string) :
  forall idx idx',
    composeArchs base entrypoints commonfiles srcfs have archs idx = Ok idx' <->
    exists added,
      idx' = idx ++ added
      /\ Forall2 (fun arch a =>
                    composeArch base entrypoints commonfiles srcfs have arch = Ok a)
           archs added.
Proof.
  induction archs as [|arch rest IH]; intros idx idx'.
  - cbn [composeArchs]. split.
    + intros [= <-]. exists []. rewrite app_nil_r. auto using Forall2_nil.
    + intros (added & -> & HF). apply Forall2_nil_inv_l in HF as ->.
      now rewrite app_nil_r.
  - cbn [composeArchs]. split.
    + intros Hc. apply outcome_bind_Ok in Hc as (a & Ha & Hc).
      apply IH in Hc as (added & -> & HF).
      exists (a :: added). rewrite <- app_assoc. split; [reflexivity|].
      now constructor.
    + intros (added & -> & HF).
      apply Forall2_cons_inv_l in HF as (a & added' & Ha & HF & ->).
      rewrite Ha. cbn [mbind outcome_bind]. apply IH.
      exists added'. rewrite <- app_assoc. auto.
Qed.

Lemma New_unfold (base : ImageIndex)
    (entrypoints : gmap string (option Entrypoint)) (commonfiles srcfs : Node)
    (order : list string) (idx : list IndexAddendum) :
  New base entrypoints commonfiles srcfs order = Ok idx <->
  exists m have,
    GetIndexManifest base = Val m
    /\ haveArchsOf (Manifests m) ∅ = Ok have
    /\ Forall2 (fun arch a =>
                  composeArch base entrypoints commonfiles srcfs have arch = Ok a)
         order idx.
Proof.
  unfold New. split.
  - intros Hn. apply outcome_bind_Ok in Hn as (m & Hm & Hn).
    apply outcome_bind_Ok in Hn as (have & Hh & Hn).
    apply lift_Ok in Hm. apply composeArchs_Ok in Hn as (added & -> & HF).
    exists m, have. auto.
  - intros (m & have & Hm & Hh & HF). rewrite Hm. cbn [lift mbind outcome_bind].
    rewrite Hh. cbn [mbind outcome_bind]. apply composeArchs_Ok.
    exists idx. auto.
Qed.

(** C4.  An index that [New] returns holds one manifest for each key of
    the entrypoints map and nothing else, in the order the keys were
    visited; the image of a key is the base image of that architecture
    (the empty image, under linux, without one) followed by the
    common-files, source and entrypoint layers in this order, with the
    entrypoint [/bin/sh /entrypoint.sh] and the working directory [/]. *)
Theorem New_composes_each_key (base : ImageIndex) (m : IndexManifest)
    (entrypoints : gmap string (option Entrypoint)) (commonfiles srcfs : Node)
    (order : list string) (idx : list IndexAddendum) :
  GetIndexManifest base = Val m ->
  order ≡ₚ elements (dom entrypoints) ->
  New base entrypoints commonfiles srcfs order = Ok idx ->
  length idx = size entrypoints
  /\ Forall2 (composedFor base (Manifests m) entrypoints commonfiles srcfs)
       order idx.
Proof.
  intros Hm Hperm Hnew.
  apply New_unfold in Hnew as (m' & have & Hm' & Hhave & HF).
  assert (m' = m) by congruence. subst m'.
  split.
  - rewrite <- (Forall2_length _ _ _ HF), Hperm.
    rewrite <- size_dom. reflexivity.
  - eapply Forall2_impl; [exact HF|]. intros arch a Ha.
    eapply composeArch_Ok; [|exact Ha].
    intros k. rewrite (haveArchsOf_lookup _ _ _ Hhave k).
    destruct (baseFor (Manifests m) k); [reflexivity|apply lookup_empty].
Qed.

(** Induction on file trees: a directory when all it lists is done. *)
Lemma Node_nested_ind (P : Node -> Prop) :
  (forall i c, P (File i c)) ->
  (forall i e, P (Dir i (Fail e))) ->
  (forall i es, Forall (fun nc => P nc.2) es -> P (Dir i (Val es))) ->
  forall d, P d.
Proof.
  intros HF HE HD. fix IH 1. intros [i c|i [es|e]].
  - apply HF.
  - apply HD.
    induction es as [|[n c] es IHes]; constructor; [apply IH|exact IHes].
  - apply HE.
Qed.

(** What one architecture gives when its round ends well. *)
Lemma composeArch_results (base : ImageIndex)
    (entrypoints : gmap string (option Entrypoint)) (commonfiles srcfs : Node)
    (have : gmap string Descriptor) (archs : list string)
    (added : list IndexAddendum) :
  Forall2 (fun arch a =>
             composeArch base entrypoints commonfiles srcfs have arch = Ok a)
    archs added ->
  exists g : string -> IndexAddendum,
    added = g <$> archs
    /\ forall arch, arch ∈ archs ->
         composeArch base entrypoints commonfiles srcfs have arch = Ok (g arch).
Proof.
  intros HF.
  set (dummy := {| Add := emptyImage;
                   AddDescriptor :=
                     {| Digest := {| Algorithm := ""; Hex := "" |};
                        DescPlatform := None; DescAnnotations := ∅ |} |}).
  exists (fun arch =>
            match composeArch base entrypoints commonfiles srcfs have arch with
            | Ok a => a
            | _ => dummy
            end).
  induction HF as [|arch a archs added Ha _ [IH1 IH2]].
  - split; [reflexivity|]. intros arch Hin. inversion Hin.
  - split.
    + cbn [fmap list_fmap]. rewrite Ha. f_equal. exact IH1.
    + intros arch' Hin. apply elem_of_cons in Hin as [->|Hin].
      * now rewrite Ha.
      * now apply IH2.
Qed.

End NewFacts.


(* --------------------------------------------------------------------- *)
(** ** Further properties: mount specs and name escaping *)
(* --------------------------------------------------------------------- *)

Section StringFacts.
Import GoStrings.

(** What [Cut] returns for a separator of one byte. *)
Lemma Cut_byte_spec (c : ascii) (s : string) :
  forall before after found,
    Cut s (String c EmptyString) = (before, after, found) ->
    has_byte c before = false
    /\ (found = true -> s = before +:+ String c after)
    /\ (found = false -> before = s /\ after = EmptyString).
Proof.
  induction s as [|d r IH]; intros before after found.
  - cbn. intros [= <- <- <-]. repeat split; discriminate.
  - cbn [Cut HasPrefix]. destruct (Ascii.eqb c d) eqn:E.
    + cbn. intros [= <- <- <-]. apply Ascii.eqb_eq in E as ->.
      repeat split; discriminate.
    + destruct (Cut r (String c EmptyString)) as [[b a] f] eqn:Hr.
      intros [= <- <- <-]. destruct (IH b a f eq_refl) as (Hb & Ht & Hf).
      cbn [has_byte]. rewrite E. split; [exact Hb|]. split.
      * intros Hfound. rewrite append_cons. f_equal. now apply Ht.
      * intros Hfound. destruct (Hf Hfound) as [-> ->]. auto.
Qed.

Lemma ReplaceAll_byte (c d : ascii) (s : string) :
  forall fuel, (String.length s <= fuel)%nat ->
    ReplaceAll s (String c EmptyString) (String d EmptyString) fuel
    = mapBytes (fun x => if Ascii.eqb c x then d else x) s.
Proof.
  induction s as [|x r IH]; intros fuel Hfuel.
  - destruct fuel; reflexivity.
  - destruct fuel as [|fuel]; [cbn in Hfuel; inversion Hfuel|].
    cbn [ReplaceAll HasPrefix mapBytes String.length drop] in *.
    destruct (Ascii.eqb c x).
    + rewrite append_cons. cbn. f_equal. apply IH.
      now apply PeanoNat.Nat.succ_le_mono.
    + f_equal. apply IH. now apply PeanoNat.Nat.succ_le_mono.
Qed.

Lemma length_mapBytes (f : ascii -> ascii) (s : string) :
  String.length (mapBytes f s) = String.length s.
Proof. induction s as [|c r IH]; cbn; [reflexivity|now rewrite IH]. Qed.

Lemma mapBytes_compose (f g : ascii -> ascii) (s : string) :
  mapBytes f (mapBytes g s) = mapBytes (fun c => f (g c)) s.
Proof. induction s as [|c r IH]; cbn; [reflexivity|now rewrite IH]. Qed.

Lemma mapBytes_ext (f g : ascii -> ascii) (s : string) :
  (forall c, f c = g c) -> mapBytes f s = mapBytes g s.
Proof.
  intros H. induction s as [|c r IH]; cbn; [reflexivity|now rewrite H, IH].
Qed.

Lemma mapBytes_app (f : ascii -> ascii) (s t : string) :
  mapBytes f (s +:+ t) = mapBytes f s +:+ mapBytes f t.
Proof.
  induction s as [|c r IH]; [reflexivity|].
  rewrite append_cons. cbn [mapBytes]. rewrite append_cons. now rewrite IH.
Qed.

Lemma ToLower_mapBytes (s : string) : ToLower s = mapBytes lower_byte s.
Proof. induction s as [|c r IH]; cbn; [reflexivity|now rewrite IH]. Qed.

Lemma isASCII_mapBytes (f : ascii -> ascii) (s : string) :
  (forall c, Nat.leb 128 (nat_of_ascii c) = false ->
             Nat.leb 128 (nat_of_ascii (f c)) = false) ->
  isASCII s = true -> isASCII (mapBytes f s) = true.
Proof.
  intros Hf. unfold isASCII. induction s as [|c r IH]; [reflexivity|].
  cbn [mapBytes noByte].
  destruct (Nat.leb 128 (nat_of_ascii c)) eqn:Hc; [discriminate|].
  rewrite (Hf c Hc). exact IH.
Qed.

Lemma isASCII_app (s t : string) :
  isASCII (s +:+ t) = (isASCII s && isASCII t)%bool.
Proof.
  unfold isASCII. induction s as [|c r IH]; [reflexivity|].
  rewrite append_cons. cbn [noByte].
  destruct (Nat.leb 128 (nat_of_ascii c)); [reflexivity|exact IH].
Qed.

Lemma replaced_ascii (c d x : ascii) :
  Nat.leb 128 (nat_of_ascii d) = false ->
  Nat.leb 128 (nat_of_ascii x) = false ->
  Nat.leb 128 (nat_of_ascii (if Ascii.eqb c x then d else x)) = false.
Proof. intros Hd Hx. now destruct (Ascii.eqb c x). Qed.

Lemma lower_byte_ascii (c : ascii) :
  Nat.leb 128 (nat_of_ascii c) = false ->
  Nat.leb 128 (nat_of_ascii (lower_byte c)) = false.
Proof.
  destruct c as [[] [] [] [] [] [] [] []]; vm_compute; congruence.
Qed.

Lemma ToLower_ascii (s : string) :
  isASCII s = true -> isASCII (ToLower s) = true.
Proof.
  rewrite ToLower_mapBytes. apply isASCII_mapBytes, lower_byte_ascii.
Qed.

Section EscapeBytes.
Context {T : GoTypes} {A : ArchLib} {L : PodLib}.

(** [escapeRFC1123] works byte by byte on an ASCII name. *)
Lemma escapeRFC1123_bytes (s : string) :
  isASCII s = true ->
  escapeRFC1123 s = mapBytes escapeByteRFC1123 s.
Proof.
  intros Hs. unfold escapeRFC1123, strings_ToLower.
  rewrite (ReplaceAll_byte "." "-" s) by reflexivity.
  rewrite ReplaceAll_byte by (rewrite length_mapBytes; reflexivity).
  rewrite isASCII_mapBytes.
  2:{ intros c. now apply replaced_ascii. }
  2:{ apply isASCII_mapBytes; [|exact Hs].
      intros c. now apply replaced_ascii. }
  rewrite ToLower_mapBytes, !mapBytes_compose.
  apply mapBytes_ext. intros c. unfold escapeByteRFC1123.
  destruct (Ascii.eqb_spec c ".") as [->|Hd]; [reflexivity|].
  rewrite (proj2 (Ascii.eqb_neq "." c)) by congruence.
  rewrite (Ascii.eqb_sym "_" c). reflexivity.
Qed.

End EscapeBytes.

Lemma escapeByteRFC1123_clean (c : ascii) : escaped (escapeByteRFC1123 c) = false.
Proof.
  destruct c as [[] [] [] [] [] [] [] []]; reflexivity.
Qed.

Lemma escapeByteRFC1123_ascii (c : ascii) :
  Nat.leb 128 (nat_of_ascii c) = false ->
  Nat.leb 128 (nat_of_ascii (escapeByteRFC1123 c)) = false.
Proof.
  destruct c as [[] [] [] [] [] [] [] []]; vm_compute; congruence.
Qed.

Lemma escapeByteRFC1123_fixed (c : ascii) :
  escapeByteRFC1123 c = c <-> escaped c = false.
Proof.
  destruct c as [[] [] [] [] [] [] [] []]; vm_compute; split; congruence.
Qed.

Lemma escapeRFC1123_ascii {T : GoTypes} {A : ArchLib} {L : PodLib} (s : string) :
  isASCII s = true -> isASCII (escapeRFC1123 s) = true.
Proof.
  intros Hs. rewrite escapeRFC1123_bytes by exact Hs.
  apply isASCII_mapBytes; [exact escapeByteRFC1123_ascii|exact Hs].
Qed.

End StringFacts.

(** X1.  What [ParseGCSFuseMount] accepts is read back from its result:
    the input is the bucket, then ["/"] and the sub-directory or nothing,
    then [":"] and the mount; the bucket has no ['/'] and no [':'], the
    sub-directory no [':']. *)
Theorem ParseGCSFuseMount_sound (s : string) (m : GCSFuseMount) :
  ParseGCSFuseMount s = Ok m ->
  GoStrings.has_byte ":" (Bucket m) = false
  /\ GoStrings.has_byte "/" (Bucket m) = false
  /\ GoStrings.has_byte ":" (OnlyDir m) = false
  /\ (s = Bucket m +:+ ":" +:+ Mount m
      \/ s = Bucket m +:+ "/" +:+ OnlyDir m +:+ ":" +:+ Mount m).
Proof.
  unfold ParseGCSFuseMount.
  destruct (GoStrings.Cut s ":") as [[before mount] ok] eqn:Hc.
  destruct (Cut_byte_spec _ _ _ _ _ Hc) as (Hb & Hfound & _).
  destruct ok; [|discriminate]. cbn [negb].
  destruct (GoStrings.Cut before "/") as [[bucket onlydir] ok2] eqn:Hs.
  intros [= <-]. cbn [Bucket Mount OnlyDir].
  destruct (Cut_byte_spec _ _ _ _ _ Hs) as (Hb2 & Hfound2 & Hnot2).
  specialize (Hfound eq_refl). subst s.
  destruct ok2.
  - specialize (Hfound2 eq_refl). subst before.
    rewrite has_byte_app in Hb. apply orb_false_iff in Hb as [Hb1 Hb3].
    cbn [GoStrings.has_byte] in Hb3.
    destruct (Ascii.eqb ":" "/") eqn:E; [discriminate|].
    repeat split; try assumption. right.
    change (":" +:+ mount) with (String ":" mount).
    change ("/" +:+ onlydir +:+ String ":" mount)
      with (String "/" (onlydir +:+ String ":" mount)).
    now rewrite append_assoc, append_cons.
  - destruct (Hnot2 eq_refl) as [-> ->].
    repeat split; try assumption; try reflexivity. now left.
Qed.

(** X2.  A sub-directory that is empty is not told apart from none: the
    spec with ["/"] right before the [":"] gives the record of the spec
    without it. *)
Theorem ParseGCSFuseMount_trailing_slash (bucket mount : string) :
  GoStrings.has_byte ":" bucket = false ->
  GoStrings.has_byte "/" bucket = false ->
  ParseGCSFuseMount (bucket +:+ "/:" +:+ mount)
  = ParseGCSFuseMount (bucket +:+ ":" +:+ mount).
Proof.
  intros Hc Hs. unfold ParseGCSFuseMount.
  change (":" +:+ mount) with (String ":" mount).
  rewrite (Cut_byte_first ":" bucket mount Hc).
  change (bucket +:+ "/:" +:+ mount)
    with (bucket +:+ String "/" EmptyString +:+ String ":" mount).
  rewrite <- append_assoc.
  rewrite (Cut_byte_first ":" (bucket +:+ String "/" EmptyString) mount)
    by (rewrite has_byte_app, Hc; reflexivity).
  cbn [negb].
  rewrite (Cut_byte_first "/" bucket EmptyString Hs).
  rewrite (Cut_byte_absent "/" bucket Hs). reflexivity.
Qed.

Section EscapeFacts.
Context {T : GoTypes} {A : ArchLib} {L : PodLib}.

(** X3.  [escapeRFC1123] keeps the length of an ASCII name, leaves it in
    ASCII and leaves no ['.'], no ['_'] and no upper-case letter in it. *)
Theorem escapeRFC1123_shape (s : string) :
  isASCII s = true ->
  String.length (escapeRFC1123 s) = String.length s
  /\ isASCII (escapeRFC1123 s) = true
  /\ noByte escaped (escapeRFC1123 s) = true.
Proof.
  intros Hs. rewrite escapeRFC1123_bytes by exact Hs.
  split; [apply length_mapBytes|].
  split.
  - unfold isASCII in *. induction s as [|c r IH]; [reflexivity|].
    cbn [mapBytes noByte] in *.
    destruct (Nat.leb 128 (nat_of_ascii c)) eqn:Hc; [discriminate|].
    rewrite (escapeByteRFC1123_ascii c Hc). now apply IH.
  - clear Hs. induction s as [|c r IH]; [reflexivity|].
    cbn [mapBytes noByte]. now rewrite escapeByteRFC1123_clean.
Qed.

(** X4.  [escapeRFC1123] changes nothing else: it returns an ASCII name
    unchanged exactly when that has no ['.'], no ['_'] and no upper-case
    letter, so every other byte (also one no RFC 1123 name may hold) is
    kept, and escaping twice is escaping once. *)
Theorem escapeRFC1123_fixed (s : string) :
  isASCII s = true ->
  (escapeRFC1123 s = s <-> noByte escaped s = true)
  /\ escapeRFC1123 (escapeRFC1123 s) = escapeRFC1123 s.
Proof.
  intros Hs.
  rewrite (escapeRFC1123_bytes (escapeRFC1123 s))
    by (now apply escapeRFC1123_ascii).
  rewrite !(escapeRFC1123_bytes s) by exact Hs. clear Hs. split.
  - induction s as [|c r IH]; [cbn; tauto|].
    cbn [mapBytes noByte]. split.
    + intros [= Hc Hr]. apply escapeByteRFC1123_fixed in Hc. rewrite Hc.
      now apply IH.
    + destruct (escaped c) eqn:Hc; [discriminate|]. intros Hr.
      apply escapeByteRFC1123_fixed in Hc. rewrite Hc. f_equal. now apply IH.
  - rewrite mapBytes_compose. apply mapBytes_ext. intros c.
    apply escapeByteRFC1123_fixed, escapeByteRFC1123_clean.
Qed.

(** X5.  [escapeRFC1123] is not one-to-one: it works byte by byte on ASCII
    names, so two names that differ by ['.'], ['_'] and ['-'] at the same
    place, or by the case of their letters, get the same escaped name. *)
Theorem escapeRFC1123_collisions (s t : string) :
  isASCII s = true ->
  isASCII t = true ->
  escapeRFC1123 (s +:+ t) = escapeRFC1123 s +:+ escapeRFC1123 t
  /\ escapeRFC1123 (s +:+ "." +:+ t) = escapeRFC1123 (s +:+ "-" +:+ t)
  /\ escapeRFC1123 (s +:+ "_" +:+ t) = escapeRFC1123 (s +:+ "-" +:+ t)
  /\ escapeRFC1123 (GoStrings.ToLower s) = escapeRFC1123 s.
Proof.
  intros Hs Ht.
  assert (Hx : forall x, isASCII x = true -> isASCII (s +:+ x +:+ t) = true).
  { intros x Hx. rewrite !isASCII_app, Hs, Hx, Ht. reflexivity. }
  rewrite (escapeRFC1123_bytes (s +:+ t))
    by (rewrite isASCII_app, Hs, Ht; reflexivity).
  rewrite (escapeRFC1123_bytes (s +:+ "." +:+ t)),
    (escapeRFC1123_bytes (s +:+ "_" +:+ t)),
    (escapeRFC1123_bytes (s +:+ "-" +:+ t)) by (apply Hx; reflexivity).
  rewrite (escapeRFC1123_bytes (GoStrings.ToLower s))
    by (now apply ToLower_ascii).
  rewrite (escapeRFC1123_bytes s), (escapeRFC1123_bytes t) by assumption.
  rewrite !mapBytes_app. repeat split.
  rewrite ToLower_mapBytes, mapBytes_compose. apply mapBytes_ext.
  intros c. destruct c as [[] [] [] [] [] [] [] []]; reflexivity.
Qed.

End EscapeFacts.

(* --------------------------------------------------------------------- *)
(** ** Further properties: pod specification *)
(* --------------------------------------------------------------------- *)

Section PodspecMoreFacts.
Context {T : GoTypes} {A : ArchLib} {L : PodLib}.

(** A pod that [Podspec] returns, with the tolerations it was given. *)
Lemma Podspec_Ok_tolerations (task : Task) (ref arch mFamily sa ns : string)
    (pod : Pod) :
  Podspec task ref arch mFamily sa ns = Ok pod ->
  Tolerations (Spec pod)
  = if decide (ParseArchitecture arch = "arm64")
    then [builderToleration; armToleration] else [builderToleration].
Proof.
  unfold Podspec.
  destruct (ParseFloat _) as [cpu|e]; [|discriminate].
  unfold mustParse.
  destruct (MustParse (CPU _)) as [qcpu|]; [|discriminate].
  destruct (MustParse (Memory _)) as [qmem|]; [|discriminate].
  cbn [mbind outcome_bind]. rewrite String_eqb_decide.
  destruct (decide (ParseArchitecture arch = "arm64")) as [Ha|Ha].
  - rewrite bool_decide_eq_true_2 by assumption. now intros [= <-].
  - rewrite bool_decide_eq_false_2 by assumption. now intros [= <-].
Qed.

(** X6.  A pod that [Podspec] returns always tolerates the taint of the
    builder nodes, and tolerates the arm64 taint exactly when it is built
    for arm64; it has no other toleration. *)
Theorem Podspec_tolerations (task : Task) (ref arch mFamily sa ns : string)
    (pod : Pod) :
  Podspec task ref arch mFamily sa ns = Ok pod ->
  let builder := {| Effect := "NoSchedule"; Key := "chainguard.dev/runner";
                    Operator := "Equal"; Value := "bundle-builder" |} in
  let arm := {| Effect := "NoSchedule"; Key := "kubernetes.io/arch";
                Operator := "Equal"; Value := "arm64" |} in
  builder ∈ Tolerations (Spec pod)
  /\ (arm ∈ Tolerations (Spec pod) <-> ParseArchitecture arch = "arm64")
  /\ (forall t, t ∈ Tolerations (Spec pod) -> t = builder \/ t = arm).
Proof.
  intros Hpod builder arm.
  rewrite (Podspec_Ok_tolerations _ _ _ _ _ _ _ Hpod).
  fold builder. change armToleration with arm.
  change builderToleration with builder.
  destruct (decide (ParseArchitecture arch = "arm64")) as [Ha|Ha].
  - split; [apply list_elem_of_here|]. split.
    + split; [auto|]. intros _. apply list_elem_of_further, list_elem_of_here.
    + intros t Ht. apply elem_of_cons in Ht as [->|Ht]; [auto|].
      apply list_elem_of_singleton in Ht. auto.
  - split; [apply list_elem_of_here|]. split.
    + split; [|tauto]. intros Hin. apply list_elem_of_singleton in Hin.
      discriminate.
    + intros t Ht. apply list_elem_of_singleton in Ht. auto.
Qed.

(** X7.  On arm64 every CPU count above 48, also an infinite one, is
    requested as the quantity written [47.040000]. *)
Theorem Podspec_arm64_cap (task : Task) (ref arch mFamily sa ns : string)
    (cpu : spec_float) (pod : Pod) :
  ParseArchitecture arch = "arm64" ->
  ParseFloat (requested CPU "2" task) = Val cpu ->
  Float64.gtb cpu MaxArmCore = true ->
  Podspec task ref arch mFamily sa ns = Ok pod ->
  exists rr q,
    podResources pod = [rr]
    /\ Requests rr !! "cpu" = Some q
    /\ MustParse "47.040000" = Some q.
Proof.
  intros Harch Hcpu Hgt Hpod.
  pose proof (Podspec_cases task ref arch mFamily sa ns) as HC.
  cbv zeta in HC. rewrite Hcpu in HC.
  assert (Htext : Float64.format_f
                    (Float64.mul (capped (ParseArchitecture arch) cpu)
                       packing_factor) = "47.040000").
  { unfold capped. rewrite Harch, Hgt. vm_compute. reflexivity. }
  rewrite Htext in HC.
  destruct (MustParse "47.040000") as [qcpu|]; [|destruct HC; congruence].
  destruct (MustParse (requested Memory "4Gi" task)) as [qmem|];
    [|destruct HC; congruence].
  destruct HC as (pod' & Hp & Hr & _).
  assert (pod' = pod) by congruence. subst pod'.
  eexists _, qcpu. split; [exact Hr|]. split; [|reflexivity].
  cbn [Requests]. rewrite lookup_insert_ne by discriminate.
  apply lookup_insert_eq.
Qed.

(** X8.  [Podspec] does not refuse a CPU text that reads as not-a-number
    or, off arm64, as infinite: the texts [NaN], [+Inf] and [-Inf] are
    handed to the quantity parser, which decides between a pod and a
    panic; no error is returned. *)
Theorem Podspec_cpu_not_finite (task : Task) (ref arch mFamily sa ns : string)
    (cpu : spec_float) :
  ParseFloat (requested CPU "2" task) = Val cpu ->
  (cpu = S754_nan
   \/ (ParseArchitecture arch <> "arm64" /\ exists neg, cpu = S754_infinity neg)
   \/ cpu = S754_infinity true) ->
  let text := match cpu with
              | S754_infinity false => "+Inf"
              | S754_infinity true => "-Inf"
              | _ => "NaN"
              end in
  (MustParse text = None -> exists w, Podspec task ref arch mFamily sa ns = Panic w)
  /\ (forall pod,
        Podspec task ref arch mFamily sa ns = Ok pod ->
        exists rr, podResources pod = [rr]
                   /\ Requests rr !! "cpu" = MustParse text)
  /\ (forall e, Podspec task ref arch mFamily sa ns <> Err e).
Proof.
  intros Hcpu Hkind text.
  pose proof (Podspec_cases task ref arch mFamily sa ns) as HC.
  cbv zeta in HC. rewrite Hcpu in HC.
  assert (Htext : Float64.format_f
                    (Float64.mul (capped (ParseArchitecture arch) cpu)
                       packing_factor) = text).
  { unfold capped, text.
    destruct Hkind as [->|[[Ha [neg ->]]| ->]].
    - destruct (decide _); reflexivity.
    - destruct (decide _) as [|_]; [contradiction|]. destruct neg; reflexivity.
    - destruct (decide _); reflexivity. }
  rewrite Htext in HC. clear Htext.
  destruct (MustParse text) as [qcpu|].
  - destruct (MustParse (requested Memory "4Gi" task)) as [qmem|].
    + destruct HC as (pod' & Hp & Hr & _). split; [discriminate|]. split.
      * intros pod Hpod. assert (pod' = pod) by congruence. subst pod'.
        eexists. split; [exact Hr|]. cbn [Requests].
        rewrite lookup_insert_ne by discriminate. apply lookup_insert_eq.
      * intros e He. congruence.
    + destruct HC as [w Hw]. split; [discriminate|]. split.
      * intros pod Hpod. congruence.
      * intros e He. congruence.
  - destruct HC as [w Hw]. split; [eauto|]. split.
    + intros pod Hpod. congruence.
    + intros e He. congruence.
Qed.

(** X20.  A pod that [Podspec] returns is consistent in itself: its node
    selector and its two architecture labels name the same architecture,
    the parsed one; its containers request cpu and memory and nothing
    else, set no limit and run the given image; and every volume they
    mount is an empty-dir volume the pod declares. *)
Theorem Podspec_pod_consistent (task : Task) (ref arch mFamily sa ns : string)
    (pod : Pod) :
  Podspec task ref arch mFamily sa ns = Ok pod ->
  (NodeSelector (Spec pod) !! "kubernetes.io/arch" = Some (ParseArchitecture arch)
   /\ Labels pod !! "kubernetes.io/arch" = Some (ParseArchitecture arch)
   /\ Labels pod !! "melange.chainguard.dev/arch" = Some (ParseArchitecture arch))
  /\ (forall c, c ∈ Containers (Spec pod) ->
        ContainerImage c = ref
        /\ Limits (ContainerResources c) = ∅
        /\ dom (Requests (ContainerResources c)) = {[ "cpu"; "memory" ]})
  /\ (forall c vm, c ∈ Containers (Spec pod) -> vm ∈ VolumeMounts c ->
        exists v, v ∈ Volumes (Spec pod)
                  /\ VolumeName v = VolumeMountName vm
                  /\ EmptyDir v = true).
Proof.
  unfold Podspec.
  destruct (ParseFloat _) as [cpu|e]; [|discriminate].
  unfold mustParse.
  destruct (MustParse (CPU _)) as [qcpu|]; [|discriminate].
  destruct (MustParse (Memory _)) as [qmem|]; [|discriminate].
  cbn [mbind outcome_bind].
  destruct (String.eqb (ParseArchitecture arch) "arm64");
    intros [= <-]; cbn [Spec NodeSelector Labels Containers Volumes].
  all: split; [split; [apply lookup_insert_eq|];
               split; [rewrite !lookup_insert_ne by discriminate;
                       apply lookup_insert_eq
                      |rewrite lookup_insert_ne by discriminate;
                       apply lookup_insert_eq]|].
  all: split;
    [intros c Hc; apply list_elem_of_singleton in Hc; subst c;
     cbn [ContainerImage ContainerResources Limits Requests];
     split; [reflexivity|]; split; [reflexivity|];
     rewrite !dom_insert_L, dom_empty_L; set_solver
    |intros c vm Hc Hvm; apply list_elem_of_singleton in Hc; subst c;
     cbn [VolumeMounts] in Hvm; apply list_elem_of_singleton in Hvm; subst vm;
     eexists; split; [apply list_elem_of_here|]; split; reflexivity].
Qed.

End PodspecMoreFacts.

(* --------------------------------------------------------------------- *)
(** ** Further properties: archives and entrypoint scripts *)
(* --------------------------------------------------------------------- *)

Section ArchiveFacts.
Context {A : ArchLib} {I : ImageLib}.

(** Bytes written right after a header are the body of its entry. *)
Lemma Write_WriteHeader (tw : list TarEntry) (h : Header) (data : string) :
  Write (WriteHeader tw h) data = tw ++ [ {| Hdr := h; Body := data |} ].
Proof.
  unfold Write, WriteHeader. rewrite length_app. cbn [length].
  replace (Nat.pred (length tw + 1)) with (length tw) by lia.
  induction tw as [|e tw IH]; [reflexivity|].
  cbn [length app]. cbn. f_equal. exact IH.
Qed.

(** What the function given to [fs.WalkDir] does with one entry. *)
Lemma tarAddEntry_outcome (tw : list TarEntry) (name : string) (d : Node) :
  if ownReadable name d
  then tarAddEntry tw name d = Ok (tw ++ ownEntry name d)
  else exists e, tarAddEntry tw name d = Err e.
Proof.
  unfold ownReadable, ownEntry, tarAddEntry. rewrite String_eqb_decide.
  destruct (decide (name = ".")) as [Hn|Hn].
  - rewrite bool_decide_eq_true_2 by assumption. now rewrite app_nil_r.
  - rewrite bool_decide_eq_false_2 by assumption.
    destruct d as [[info|e] [c|e']|[info|e] es]; cbn [Info IsDir lift mbind outcome_bind];
      try (eexists; reflexivity).
    + destruct (InfoIsRegular info); cbn [negb andb].
      * rewrite Write_WriteHeader. reflexivity.
      * eexists; reflexivity.
    + destruct (InfoIsRegular info); cbn [negb andb]; eexists; reflexivity.
Qed.

(** What the walk does with a tree: all the entries of a readable tree, in
    order, after those the writer had; an error otherwise. *)
Lemma walkDir_outcome (d : Node) :
  forall (tw : list TarEntry) (name : string),
    if readable name d
    then walkDir tw name d = Ok (tw ++ entriesFrom name d)
    else exists e, walkDir tw name d = Err e.
Proof.
  induction d as [i c|i e|i es IH] using Node_nested_ind; intros tw name.
  - cbn [walkDir readable entriesFrom].
    pose proof (tarAddEntry_outcome tw name (File i c)) as Ht.
    rewrite andb_true_r, app_nil_r.
    destruct (ownReadable name (File i c)).
    + now rewrite Ht.
    + destruct Ht as [e ->]. eauto.
  - cbn [walkDir readable].
    pose proof (tarAddEntry_outcome tw name (Dir i (Fail e))) as Ht.
    rewrite andb_false_r.
    destruct (ownReadable name (Dir i (Fail e))).
    + rewrite Ht. eauto.
    + destruct Ht as [e' ->]. eauto.
  - cbn [walkDir readable entriesFrom].
    pose proof (tarAddEntry_outcome tw name (Dir i (Val es))) as Ht.
    destruct (ownReadable name (Dir i (Val es))).
    2:{ destruct Ht as [e ->]. cbn [andb]. eauto. }
    rewrite Ht. cbn [andb]. rewrite app_assoc.
    generalize (tw ++ ownEntry name (Dir i (Val es))). clear Ht tw.
    induction IH as [|[n c] es Hc _ IHes]; intros tw1.
    + now rewrite app_nil_r.
    + cbn [snd] in Hc. specialize (Hc tw1 (pathJoin name n)).
      destruct (readable (pathJoin name n) c).
      * rewrite Hc. cbn [andb]. specialize (IHes (tw1 ++ entriesFrom (pathJoin name n) c)).
        rewrite <- app_assoc in IHes. exact IHes.
      * destruct Hc as [e ->]. cbn [andb]. eauto.
Qed.

(** X9.  When [tarAddFS] returns without error the writer holds what it
    held before, untouched, followed by one entry for every file and
    directory below the root, each directory before what it contains and
    the entries of a directory in their listed order; a file entry carries
    the content of the file, the root itself gets no entry. *)
Theorem tarAddFS_entries (tw tw' : list TarEntry) (fsys : Node) :
  tarAddFS tw fsys = Ok tw' ->
  tw' = tw ++ entriesFrom "." fsys.
Proof.
  unfold tarAddFS. destruct (Info fsys); [|discriminate]. intros Hw.
  pose proof (walkDir_outcome fsys tw ".") as Ho.
  destruct (readable "." fsys).
  - congruence.
  - destruct Ho as [e He]. congruence.
Qed.

(** X10.  [layer] on a tree whose root can be examined returns a layer
    exactly when every entry below the root can be examined, every
    directory listed and every file is regular and can be read, the tar
    writer accepts the entries of the tree and the layer library the
    bytes of the archive; [layer] never panics. *)
Theorem layer_returns_iff (fsys : Node) (l : Layer) :
  (exists info, Info fsys = Val info) ->
  (layer fsys = Ok l <->
   readable "." fsys = true
   /\ exists bytes,
        tarBytes (entriesFrom "." fsys) = Val bytes
        /\ LayerFromOpener bytes = Val l)
  /\ (forall w, layer fsys <> Panic w).
Proof.
  intros [info Hinfo]. unfold layer, tarAddFS. rewrite Hinfo.
  pose proof (walkDir_outcome fsys [] ".") as Ho.
  destruct (readable "." fsys).
  - rewrite Ho. cbn [mbind outcome_bind app].
    destruct (tarBytes (entriesFrom "." fsys)) as [bytes|e];
      cbn [lift mbind outcome_bind].
    + split.
      * split.
        -- intros Hl. split; [reflexivity|]. exists bytes. split; [reflexivity|].
           destruct (LayerFromOpener bytes); cbn in Hl; congruence.
        -- intros (_ & bytes' & [= <-] & Hl). now rewrite Hl.
      * intros w. destruct (LayerFromOpener bytes); discriminate.
    + split.
      * split; [discriminate|]. intros (_ & bytes' & Hb & _). discriminate.
      * discriminate.
  - destruct Ho as [e ->]. cbn [mbind outcome_bind]. split.
    + split; [discriminate|]. intros [Hr _]. discriminate.
    + discriminate.
Qed.

(** The mounts of an entrypoint are rendered unless one of them is nil. *)
Lemma renderMounts_fails (ms : list (option GCSFuseMount)) :
  (exists e, renderMounts ms = Fail e) <-> None ∈ ms.
Proof.
  induction ms as [|[m|] ms IH]; cbn [renderMounts].
  - split; [intros [e He]; discriminate|]. intros Hin.
    apply elem_of_nil in Hin. contradiction.
  - rewrite elem_of_cons, <- IH.
    destruct (renderMounts ms) as [rest|e]; cbn.
    + split; [intros [e He]; discriminate|].
      intros [Hd|[e He]]; discriminate.
    + split; eauto.
  - split; [intros _; apply list_elem_of_here|eauto].
Qed.

(** X11.  Rendering the entrypoint script fails exactly on a nil
    entrypoint and on an entrypoint with a nil mount, and then
    [renderEntrypoint] returns the error of the template; otherwise the
    script is the fixed text with one stanza for each mount and one line
    for each flag, in their order. *)
Theorem renderEntrypoint_nil_pointer (entrypoint : option Entrypoint) :
  ((exists e, executeTemplate entrypoint = Fail e) <->
   entrypoint = None
   \/ exists ep, entrypoint = Some ep /\ None ∈ GCSFuseMounts ep)
  /\ (forall e, executeTemplate entrypoint = Fail e ->
                renderEntrypoint entrypoint = Err (ErrLib e))
  /\ (forall ep ms,
        entrypoint = Some ep ->
        GCSFuseMounts ep = Some <$> ms ->
        executeTemplate entrypoint
        = Val (templateHead +:+ concatStrings (templateMount <$> ms)
               +:+ templateBuild +:+ concatStrings (templateFlag <$> Flags ep)
               +:+ templateTail)).
Proof.
  split; [|split].
  - destruct entrypoint as [ep|]; cbn [executeTemplate].
    + pose proof (renderMounts_fails (GCSFuseMounts ep)) as Hm.
      destruct (renderMounts (GCSFuseMounts ep)) as [mounts|e]; cbn.
      * split; [intros [e He]; discriminate|].
        intros [Hn|(ep' & [= <-] & Hin)]; [discriminate|].
        apply Hm in Hin as [e He]. discriminate.
      * split; [|eauto]. intros _. right. exists ep. split; [reflexivity|].
        apply Hm. eauto.
    + split; [auto|eauto].
  - intros e He. unfold renderEntrypoint. now rewrite He.
  - intros ep ms -> Hms. cbn [executeTemplate]. rewrite Hms.
    assert (Hr : renderMounts (Some <$> ms)
                 = Val (concatStrings (templateMount <$> ms))).
    { clear Hms. induction ms as [|m ms IH]; [reflexivity|].
      cbn [fmap list_fmap renderMounts]. cbn [fmap] in IH. now rewrite IH. }
    now rewrite Hr.
Qed.

(** X12.  [renderEntrypoint] returns a layer exactly when the script is
    rendered, the tar writer accepts an archive of one entry
    [entrypoint.sh] with mode 0755, the length of the script as its size
    and the script as its content, and the layer library accepts the bytes
    of that archive; it never panics. *)
Theorem renderEntrypoint_archive (entrypoint : option Entrypoint) (l : Layer) :
  (renderEntrypoint entrypoint = Ok l <->
   exists script bytes,
     executeTemplate entrypoint = Val script
     /\ tarBytes (scriptArchive script) = Val bytes
     /\ LayerFromOpener bytes = Val l)
  /\ (forall w, renderEntrypoint entrypoint <> Panic w).
Proof.
  unfold renderEntrypoint.
  destruct (executeTemplate entrypoint) as [script|e];
    cbn [lift mbind outcome_bind].
  - rewrite Write_WriteHeader. cbn [app]. fold (scriptArchive script).
    destruct (tarBytes (scriptArchive script)) as [bytes|e] eqn:Hbytes;
      cbn [lift mbind outcome_bind].
    + split.
      * split.
        -- intros Hl. exists script, bytes. split; [reflexivity|].
           split; [exact Hbytes|].
           destruct (LayerFromOpener bytes); cbn in Hl; congruence.
        -- intros (script' & bytes' & [= <-] & Hb & Hl).
           assert (bytes' = bytes) by congruence. subst bytes'. now rewrite Hl.
      * intros w. destruct (LayerFromOpener bytes); discriminate.
    + split; [|discriminate].
      split; [discriminate|].
      intros (script' & bytes' & [= <-] & Hb & _). congruence.
  - split; [|discriminate].
    split; [discriminate|]. intros (script & bytes & Hs & _). discriminate.
Qed.

End ArchiveFacts.

(* --------------------------------------------------------------------- *)
(** ** The bytes of the layers [New] appends *)
(* --------------------------------------------------------------------- *)

Section LayerFacts.
Context {A : ArchLib} {I : ImageLib}.

(** A layer that [layer] returns is made of the archive of the tree. *)
Lemma layer_Ok_layerOf (fsys : Node) (l : Layer) :
  layer fsys = Ok l -> layerOf (entriesFrom "." fsys) l.
Proof.
  unfold layer, tarAddFS. destruct (Info fsys); [|discriminate].
  pose proof (walkDir_outcome fsys [] ".") as Ho.
  destruct (readable "." fsys).
  - rewrite Ho. cbn [mbind outcome_bind app].
    destruct (tarBytes (entriesFrom "." fsys)) as [bytes|e] eqn:Hbytes;
      cbn [lift mbind outcome_bind]; [|discriminate].
    intros Hl. exists bytes. split; [exact Hbytes|].
    destruct (LayerFromOpener bytes); cbn in Hl; congruence.
  - destruct Ho as [e ->]. discriminate.
Qed.

Lemma renderMounts_Val (ms : list (option GCSFuseMount)) :
  forall r, renderMounts ms = Val r ->
            exists l, ms = Some <$> l /\ r = concatStrings (templateMount <$> l).
Proof.
  induction ms as [|[m|] ms IH]; cbn [renderMounts]; intros r.
  - intros [= <-]. exists []. auto.
  - destruct (renderMounts ms) as [rest|e]; cbn; [|discriminate].
    intros [= <-]. destruct (IH rest eq_refl) as (l & -> & ->).
    exists (m :: l). auto.
  - discriminate.
Qed.

(** A layer that [renderEntrypoint] returns is made of the archive of the
    script of the entrypoint. *)
Lemma renderEntrypoint_Ok_layerOf (entrypoint : option Entrypoint) (l : Layer) :
  renderEntrypoint entrypoint = Ok l ->
  exists ep ms,
    entrypoint = Some ep
    /\ GCSFuseMounts ep = Some <$> ms
    /\ layerOf (scriptArchive (scriptOf ep ms)) l.
Proof.
  unfold renderEntrypoint.
  destruct (executeTemplate entrypoint) as [script|e] eqn:Hscript;
    cbn [lift mbind outcome_bind]; [|discriminate].
  rewrite Write_WriteHeader. cbn [app]. fold (scriptArchive script).
  destruct (tarBytes (scriptArchive script)) as [bytes|e] eqn:Hbytes;
    cbn [lift mbind outcome_bind]; [|discriminate].
  intros Hl.
  destruct entrypoint as [ep|]; cbn [executeTemplate] in Hscript; [|discriminate].
  destruct (renderMounts (GCSFuseMounts ep)) as [mounts|e] eqn:Hm;
    cbn in Hscript; [|discriminate].
  injection Hscript as <-.
  apply renderMounts_Val in Hm as (ms & Hms & ->).
  exists ep, ms. split; [reflexivity|]. split; [exact Hms|].
  exists bytes. split; [exact Hbytes|].
  destruct (LayerFromOpener bytes); cbn in Hl; congruence.
Qed.

(** The manifests of an index that [New] returns end with the layers of
    their architectures. *)
Lemma New_appended (base : ImageIndex)
    (entrypoints : gmap string (option Entrypoint)) (commonfiles srcfs : Node)
    (order : list string) (idx : list IndexAddendum) :
  New base entrypoints commonfiles srcfs order = Ok idx ->
  Forall2 (appendedFor entrypoints commonfiles srcfs) order idx.
Proof.
  intros Hnew. apply New_unfold in Hnew as (m & have & Hm & Hhave & HF).
  eapply Forall2_impl; [exact HF|]. intros arch a Ha.
  apply (composeArch_Ok base (Manifests m)) in Ha.
  2:{ intros k. rewrite (haveArchsOf_lookup _ _ _ Hhave k).
      destruct (baseFor (Manifests m) k); [reflexivity|apply lookup_empty]. }
  destruct Ha as (ep & c & s & e & Hep & Hc & Hs & He & Hbase).
  apply renderEntrypoint_Ok_layerOf in He as (ep' & ms & -> & Hms & He).
  assert (Hlayers : exists baseLayers,
             Layers (Add a) = Val (baseLayers ++ [c; s; e])).
  { destruct (baseFor (Manifests m) arch) as [desc|].
    - destruct Hbase as [(baseImg & _ & (bl & cf0 & _ & _ & Hl & _)) _]. eauto.
    - destruct Hbase as [(bl & cf0 & _ & _ & Hl & _) _]. eauto. }
  destruct Hlayers as [baseLayers Hlayers].
  exists ep', ms, baseLayers, c, s, e.
  split; [exact Hep|]. split; [exact Hms|].
  split; [exact (layer_Ok_layerOf _ _ Hc)|].
  split; [exact (layer_Ok_layerOf _ _ Hs)|].
  split; [exact He|exact Hlayers].
Qed.

(** C8.  Nothing but its arguments and the order in which the
    architectures are visited enters a run of [New], and that order
    changes the order of the manifests only: a second run on the same
    arguments returns the same manifests, and in both runs the image of an
    architecture ends with the same three layers, made of the bytes of the
    archive of the common files, of the archive of the sources and of the
    archive of the script of that architecture.  The archive of a tree has
    one entry for each path, each directory before what it contains and
    the entries of a directory in the order [fs.ReadDir] lists them; the
    script is the fixed text with the mounts and the flags of the
    entrypoint in their order.  So it is for the layer builder and for
    the renderer on their own. *)
Theorem New_deterministic (base : ImageIndex)
    (entrypoints : gmap string (option Entrypoint)) (commonfiles srcfs : Node)
    (order1 order2 : list string) (idx1 : list IndexAddendum) :
  order1 ≡ₚ order2 ->
  New base entrypoints commonfiles srcfs order1 = Ok idx1 ->
  (exists idx2,
      New base entrypoints commonfiles srcfs order2 = Ok idx2
      /\ idx1 ≡ₚ idx2
      /\ Forall2 (appendedFor entrypoints commonfiles srcfs) order2 idx2)
  /\ Forall2 (appendedFor entrypoints commonfiles srcfs) order1 idx1
  /\ (forall fsys l, layer fsys = Ok l -> layerOf (entriesFrom "." fsys) l)
  /\ (forall ep l,
        renderEntrypoint (Some ep) = Ok l ->
        exists ms,
          GCSFuseMounts ep = Some <$> ms
          /\ layerOf (scriptArchive (scriptOf ep ms)) l).
Proof.
  intros Hperm Hnew. split; [|split; [|split]].
  - pose proof Hnew as Hnew1.
    apply New_unfold in Hnew1 as (m & have & Hm & Hhave & HF).
    destruct (composeArch_results _ _ _ _ _ _ _ HF) as (g & -> & Hg).
    assert (Hnew2 : New base entrypoints commonfiles srcfs order2
                    = Ok (g <$> order2)).
    { apply New_unfold. exists m, have. split; [assumption|].
      split; [assumption|].
      apply Forall2_fmap_r, Forall_Forall2_diag, Forall_forall.
      intros arch Hin. apply Hg. now rewrite Hperm. }
    exists (g <$> order2). split; [exact Hnew2|].
    split; [now rewrite Hperm|]. exact (New_appended _ _ _ _ _ _ Hnew2).
  - exact (New_appended _ _ _ _ _ _ Hnew).
  - exact layer_Ok_layerOf.
  - intros ep l Hl.
    apply renderEntrypoint_Ok_layerOf in Hl as (ep' & ms & [= <-] & Hms & Hl).
    eauto.
Qed.

End LayerFacts.

(* --------------------------------------------------------------------- *)
(** ** Further properties: composing and pulling an index *)
(* --------------------------------------------------------------------- *)

Section NewMoreFacts.
Context {A : ArchLib} {I : ImageLib}.

Lemma haveArchsOf_panics (descs : list Descriptor) :
  Exists (fun d => DescPlatform d = None) descs ->
  forall have0, exists w, haveArchsOf descs have0 = Panic w.
Proof.
  induction 1 as [d ds Hd|d ds _ IH]; intros have0; cbn [haveArchsOf].
  - rewrite Hd. eauto.
  - destruct (DescPlatform d); [apply IH|eauto].
Qed.

Lemma layer_unreadable (fsys : Node) :
  readable "." fsys = false -> exists e, layer fsys = Err e.
Proof.
  intros Hr. unfold layer, tarAddFS.
  destruct (Info fsys); [|cbn; eauto].
  pose proof (walkDir_outcome fsys [] ".") as Ho. rewrite Hr in Ho.
  destruct Ho as [e ->]. eauto.
Qed.

Lemma baseFor_None (descs : list Descriptor) (arch : string) :
  (forall d p, d ∈ descs -> DescPlatform d = Some p ->
               ParseArchitecture (Architecture p) <> arch) ->
  baseFor descs arch = None.
Proof.
  induction descs as [|d ds IH]; intros Hno; [reflexivity|].
  cbn [baseFor]. rewrite IH.
  - destruct (DescPlatform d) as [p|] eqn:Hp; [|reflexivity].
    destruct (decide _) as [E|]; [|reflexivity].
    exfalso. exact (Hno d p (list_elem_of_here _ _) Hp E).
  - intros d' p' Hin. apply Hno. now apply list_elem_of_further.
Qed.

(** X13.  A manifest of the base index without a platform makes [New]
    panic, whatever is asked for: the base index is indexed by architecture
    before any entrypoint is looked at. *)
Theorem New_nil_platform_panics (base : ImageIndex) (m : IndexManifest)
    (entrypoints : gmap string (option Entrypoint)) (commonfiles srcfs : Node)
    (order : list string) :
  GetIndexManifest base = Val m ->
  Exists (fun d => DescPlatform d = None) (Manifests m) ->
  exists w, New base entrypoints commonfiles srcfs order = Panic w.
Proof.
  intros Hm Hnil. unfold New. rewrite Hm. cbn [lift mbind outcome_bind].
  destruct (haveArchsOf_panics _ Hnil ∅) as [w ->]. eauto.
Qed.

(** X14.  With an empty entrypoints map [New] returns the empty index as
    soon as the manifest of the base index can be read and its manifests
    have platforms: no file tree is archived and no image fetched. *)
Theorem New_no_entrypoints (base : ImageIndex) (m : IndexManifest)
    (entrypoints : gmap string (option Entrypoint)) (commonfiles srcfs : Node)
    (order : list string) :
  GetIndexManifest base = Val m ->
  Forall (fun d => is_Some (DescPlatform d)) (Manifests m) ->
  entrypoints = ∅ ->
  order ≡ₚ elements (dom entrypoints) ->
  New base entrypoints commonfiles srcfs order = Ok [].
Proof.
  intros Hm Hplat -> Hperm.
  rewrite dom_empty_L, elements_empty in Hperm.
  apply Permutation_nil_r in Hperm. subst order.
  unfold New. rewrite Hm. cbn [lift mbind outcome_bind].
  destruct (haveArchsOf_total _ Hplat ∅) as [have ->]. reflexivity.
Qed.

(** X15.  When an architecture is asked for, a file tree that cannot be
    archived (an entry that cannot be examined, listed or read, or a file
    that is not regular) keeps [New] from returning an index. *)
Theorem New_unreadable_tree (base : ImageIndex)
    (entrypoints : gmap string (option Entrypoint)) (commonfiles srcfs : Node)
    (order : list string) :
  order <> [] ->
  readable "." commonfiles = false \/ readable "." srcfs = false ->
  forall idx, New base entrypoints commonfiles srcfs order <> Ok idx.
Proof.
  intros Hne Hunread idx Hnew.
  apply New_unfold in Hnew as (m & have & _ & _ & HF).
  destruct order as [|arch rest]; [contradiction|].
  apply Forall2_cons_inv_l in HF as (a & idx' & Ha & _ & _).
  unfold composeArch in Ha.
  apply outcome_bind_Ok in Ha as ([baseImg platform] & _ & Ha).
  apply outcome_bind_Ok in Ha as (c & Hc & Ha).
  apply outcome_bind_Ok in Ha as (s & Hs & _).
  destruct Hunread as [Hr|Hr]; apply layer_unreadable in Hr as [e He]; congruence.
Qed.

(** X16.  The keys of the entrypoints map are compared as they are with
    the parsed architectures of the base index: for a key that is not the
    parsed architecture of any base manifest (an alias such as [aarch64]
    next to a base manifest for [arm64]), the manifest [New] returns is
    composed on the empty image under the platform linux/<key>. *)
Theorem New_unparsed_key (base : ImageIndex) (m : IndexManifest)
    (entrypoints : gmap string (option Entrypoint)) (commonfiles srcfs : Node)
    (order : list string) (idx : list IndexAddendum) (i : nat) (arch : string) :
  GetIndexManifest base = Val m ->
  (forall d p, d ∈ Manifests m -> DescPlatform d = Some p ->
               ParseArchitecture (Architecture p) <> arch) ->
  New base entrypoints commonfiles srcfs order = Ok idx ->
  order !! i = Some arch ->
  exists a c s e,
    idx !! i = Some a
    /\ layer commonfiles = Ok c
    /\ layer srcfs = Ok s
    /\ (exists ep, entrypoints !! arch = Some ep /\ renderEntrypoint ep = Ok e)
    /\ composedFrom emptyImage c s e (Add a)
    /\ DescPlatform (AddDescriptor a)
       = Some {| Architecture := arch; OS := "linux"; Variant := "" |}.
Proof.
  intros Hm Hno Hnew Hi.
  apply New_unfold in Hnew as (m' & have & Hm' & Hhave & HF).
  assert (m' = m) by congruence. subst m'.
  destruct (Forall2_lookup_l _ _ _ _ _ HF Hi) as (a & Ha & Hc).
  assert (Hfor : composedFor base (Manifests m) entrypoints commonfiles srcfs
                   arch a).
  { eapply composeArch_Ok; [|exact Hc].
    intros k. rewrite (haveArchsOf_lookup _ _ _ Hhave k).
    destruct (baseFor (Manifests m) k); [reflexivity|apply lookup_empty]. }
  destruct Hfor as (ep & c & s & e & Hep & Hcl & Hsl & He & Hbase).
  rewrite (baseFor_None _ _ Hno) in Hbase. destruct Hbase as [Hfrom Hplat].
  exists a, c, s, e. repeat split; try assumption. exists ep. auto.
Qed.









End NewMoreFacts.

Section PullMoreFacts.
Context {T : GoTypes} {J : JsonLib} {R : RegistryLib}.

Lemma pullManifest_no_panic (pull : string) (ref : Reference) (idx : ImageIndex)
    (b : Bundles) (d : Descriptor) (w : string) :
  pullManifest pull ref idx b d <> Panic w.
Proof.
  unfold pullManifest.
  destruct (String.eqb (bundleAnnotation d) "graph").
  { destruct (GetImage idx (Digest d)) as [img|]; [|discriminate].
    cbn [lift mbind outcome_bind].
    destruct (Layers img) as [[|layer0 rest]|]; try discriminate.
    cbn [lift mbind outcome_bind].
    destruct (Compressed layer0) as [rc|]; [|discriminate].
    cbn [lift mbind outcome_bind].
    destruct (decodeGraph rc); discriminate. }
  destruct (String.eqb (bundleAnnotation d) "tasks").
  { destruct (GetImage idx (Digest d)) as [img|]; [|discriminate].
    cbn [lift mbind outcome_bind].
    destruct (Layers img) as [[|layer0 rest]|]; try discriminate.
    cbn [lift mbind outcome_bind].
    destruct (Compressed layer0) as [rc|]; [|discriminate].
    cbn [lift mbind outcome_bind].
    destruct (decodeTasks rc); discriminate. }
  destruct (String.eqb (bundleAnnotation d) "runtime"); discriminate.
Qed.

Lemma pullManifests_no_panic (pull : string) (ref : Reference) (idx : ImageIndex)
    (descs : list Descriptor) :
  forall (b : Bundles) (w : string),
    pullManifests pull ref idx b descs <> Panic w.
Proof.
  induction descs as [|d rest IH]; intros b w; [discriminate|].
  cbn [pullManifests].
  destruct (pullManifest pull ref idx b d) as [b1|e|w'] eqn:Hd;
    cbn [mbind outcome_bind].
  - apply IH.
  - discriminate.
  - exfalso. exact (pullManifest_no_panic _ _ _ _ _ _ Hd).
Qed.

(** A loop that ends without failure has decoded every manifest annotated
    [graph] or [tasks], also those a later one replaces. *)
Lemma pullManifests_needs (pull : string) (ref : Reference) (idx : ImageIndex)
    (descs : list Descriptor) :
  forall b b' : Bundles,
    pullManifests pull ref idx b descs = Ok b' ->
    Forall (fun d => bundleAnnotation d = "graph" -> exists g, holdsGraph idx d g)
      descs
    /\ Forall (fun d => bundleAnnotation d = "tasks" ->
                        exists ts, holdsTasks idx d ts) descs.
Proof.
  induction descs as [|d rest IH]; intros b b'; [auto|].
  cbn [pullManifests].
  destruct (pullManifest pull ref idx b d) as [b1| |] eqn:Hd; try discriminate.
  cbn [mbind outcome_bind]. intros Hrest.
  destruct (IH _ _ Hrest) as [HG HT].
  destruct (pullManifest_Ok _ _ _ _ _ _ Hd) as (Hg & Ht & _).
  split; constructor; try assumption.
  - intros E. destruct (decide (bundleAnnotation d = "graph")); [eauto|contradiction].
  - intros E. destruct (decide (bundleAnnotation d = "tasks")); [eauto|contradiction].
Qed.

(** X17.  In a bundle that [Pull] returns each part comes from the last
    manifest annotated for it, independently of the other parts: the graph
    and the tasks are decoded from the first layer of that manifest, the
    runtime reference is its digest in the repository of the input; a part
    no manifest is annotated for is empty. *)
Theorem Pull_last_annotated (pull : string) (ref : Reference)
    (idx : ImageIndex) (im : IndexManifest) (b : Bundles) :
  ParseReference pull = Val ref ->
  remoteIndex ref = Val idx ->
  GetIndexManifest idx = Val im ->
  Pull pull = Ok b ->
  match lastAnnotated "graph" (Manifests im) with
  | Some d => holdsGraph idx d (Graph b)
  | None => Graph b = ∅
  end
  /\ match lastAnnotated "tasks" (Manifests im) with
     | Some d => holdsTasks idx d (Tasks b)
     | None => Tasks b = []
     end
  /\ match lastAnnotated "runtime" (Manifests im) with
     | Some d => Runtime b = {| DigestRepository := Context ref;
                                DigestText := Hash_String (Digest d) |}
     | None => Runtime b = {| DigestRepository := ""; DigestText := "" |}
     end.
Proof.
  intros Hr Hi Hm Hp. rewrite (Pull_unfold _ _ _ _ Hr Hi Hm) in Hp.
  destruct (Manifests im) as [|d ds] eqn:Hds; [discriminate|].
  exact (pullManifests_Ok _ _ _ _ _ _ Hp).
Qed.

(** X18.  Once the index and its manifest are fetched, [Pull] returns a
    bundle exactly when the index has a manifest and every manifest
    annotated [graph] or [tasks], also one that a later manifest of the
    same kind replaces, has an image with a first layer that can be read
    and decoded. *)
Theorem Pull_returns_iff (pull : string) (ref : Reference)
    (idx : ImageIndex) (im : IndexManifest) :
  ParseReference pull = Val ref ->
  remoteIndex ref = Val idx ->
  GetIndexManifest idx = Val im ->
  (exists b, Pull pull = Ok b) <->
  Manifests im <> []
  /\ Forall (fun d => bundleAnnotation d = "graph" -> exists g, holdsGraph idx d g)
       (Manifests im)
  /\ Forall (fun d => bundleAnnotation d = "tasks" ->
                      exists ts, holdsTasks idx d ts) (Manifests im).
Proof.
  intros Hr Hi Hm. rewrite (Pull_unfold _ _ _ _ Hr Hi Hm). split.
  - intros [b Hb]. destruct (Manifests im) as [|d ds] eqn:Hds; [discriminate|].
    split; [discriminate|]. exact (pullManifests_needs _ _ _ _ _ _ Hb).
  - intros (Hne & HG & HT).
    destruct (pullManifests_total pull ref idx _ HG HT zeroBundles) as [b Hb].
    exists b. destruct (Manifests im); [contradiction|exact Hb].
Qed.

(** X19.  [Pull] never panics, and a failure to parse the reference, to
    fetch the index or to read its manifest is returned as it is, before
    any manifest is looked at. *)
Theorem Pull_library_errors (pull : string) :
  (forall w, Pull pull <> Panic w)
  /\ (forall e, ParseReference pull = Fail e -> Pull pull = Err (ErrLib e))
  /\ (forall ref e,
        ParseReference pull = Val ref ->
        remoteIndex ref = Fail e -> Pull pull = Err (ErrLib e))
  /\ (forall ref idx e,
        ParseReference pull = Val ref ->
        remoteIndex ref = Val idx ->
        GetIndexManifest idx = Fail e -> Pull pull = Err (ErrLib e)).
Proof.
  unfold Pull. repeat split.
  - intros w.
    destruct (ParseReference pull) as [ref|]; [|discriminate].
    cbn [lift mbind outcome_bind].
    destruct (remoteIndex ref) as [idx|]; [|discriminate].
    cbn [lift mbind outcome_bind].
    destruct (GetIndexManifest idx) as [im|]; [|discriminate].
    cbn [lift mbind outcome_bind].
    destruct (Nat.eqb _ 0); [discriminate|]. apply pullManifests_no_panic.
  - intros e ->. reflexivity.
  - intros ref e -> Hi. cbn [lift mbind outcome_bind]. now rewrite Hi.
  - intros ref idx e -> Hi Hm. cbn [lift mbind outcome_bind]. rewrite Hi.
    cbn [lift mbind outcome_bind]. now rewrite Hm.
Qed.

End PullMoreFacts.

(* --------------------------------------------------------------------- *)
(** ** Further properties: requests for advisories *)
(* --------------------------------------------------------------------- *)

Section SliceFacts.
Import GoSlices.

Lemma compare_not_Gt_trans (a : string) :
  forall b c : string,
    String.compare a b <> Gt -> String.compare b c <> Gt ->
    String.compare a c <> Gt.
Proof.
  induction a as [|x a IH]; intros [|y b] [|z c]; cbn; try congruence.
  unfold Ascii.compare.
  destruct (N.compare_spec (N_of_ascii x) (N_of_ascii y)) as [Exy|Lxy|Gxy];
    destruct (N.compare_spec (N_of_ascii y) (N_of_ascii z)) as [Eyz|Lyz|Gyz];
    destruct (N.compare_spec (N_of_ascii x) (N_of_ascii z)) as [Exz|Lxz|Gxz];
    try congruence; try lia.
  apply IH.
Qed.

Lemma leb_not_Gt (a b : string) :
  String.leb a b = true <-> String.compare a b <> Gt.
Proof. unfold String.leb. destruct (String.compare a b); split; congruence. Qed.

#[local] Instance le_Transitive : Transitive le.
Proof.
  intros a b c. unfold le. rewrite !leb_not_Gt. apply compare_not_Gt_trans.
Qed.

#[local] Instance le_Total : Total le.
Proof. intros a b. apply String.leb_total. Qed.

Lemma le_neq_lt (a b : string) : le a b -> a <> b -> lt a b.
Proof.
  unfold le, lt, String.leb, String.ltb.
  destruct (String.compare a b) eqn:E; try congruence.
  apply String.compare_eq_iff in E. congruence.
Qed.

Lemma lt_le (a b : string) : lt a b -> le a b.
Proof.
  unfold le, lt, String.leb, String.ltb.
  destruct (String.compare a b); congruence.
Qed.

Lemma lt_irrefl (a : string) : ~ lt a a.
Proof.
  unfold lt, String.ltb.
  assert (E : String.compare a a = Eq).
  { induction a as [|x a IH]; [reflexivity|]. cbn.
    unfold Ascii.compare. now rewrite N.compare_refl. }
  rewrite E. discriminate.
Qed.

Lemma Sort_sorted (s : list string) : StronglySorted le (Sort s).
Proof. apply StronglySorted_merge_sort; apply _. Qed.

Lemma elem_of_Sort (s : list string) (x : string) : x ∈ Sort s <-> x ∈ s.
Proof. unfold Sort. now rewrite merge_sort_Permutation. Qed.

Lemma elem_of_compactFrom (s : list string) :
  forall prev x, x ∈ prev :: compactFrom prev s <-> x ∈ prev :: s.
Proof.
  induction s as [|y r IH]; intros prev x; [reflexivity|].
  cbn [compactFrom]. rewrite String_eqb_decide.
  destruct (decide (y = prev)) as [->|Hne].
  - rewrite bool_decide_eq_true_2 by reflexivity. rewrite IH.
    rewrite !elem_of_cons. tauto.
  - rewrite bool_decide_eq_false_2 by assumption.
    rewrite (elem_of_cons (y :: compactFrom y r)), IH, !elem_of_cons. tauto.
Qed.

Lemma elem_of_Compact (s : list string) (x : string) : x ∈ Compact s <-> x ∈ s.
Proof. destruct s as [|y r]; [reflexivity|]. apply elem_of_compactFrom. Qed.

Lemma compactFrom_noRepeat (s : list string) :
  forall prev, Sorted (fun a b => a <> b) (prev :: compactFrom prev s).
Proof.
  induction s as [|y r IH]; intros prev; [repeat constructor|].
  cbn [compactFrom]. rewrite String_eqb_decide.
  destruct (decide (y = prev)) as [->|Hne].
  - rewrite bool_decide_eq_true_2 by reflexivity. apply IH.
  - rewrite bool_decide_eq_false_2 by assumption.
    constructor; [apply IH|]. constructor. congruence.
Qed.

Lemma Compact_noRepeat (s : list string) :
  Sorted (fun a b => a <> b) (Compact s).
Proof. destruct s as [|y r]; [constructor|apply compactFrom_noRepeat]. Qed.

Lemma compactFrom_fixed (s : list string) :
  forall prev, Sorted (fun a b => a <> b) (prev :: s) -> compactFrom prev s = s.
Proof.
  induction s as [|y r IH]; intros prev Hs; [reflexivity|].
  apply Sorted_inv in Hs as [Hs Hhd]. apply HdRel_inv in Hhd.
  cbn [compactFrom]. rewrite String_eqb_decide.
  rewrite bool_decide_eq_false_2 by congruence. f_equal. now apply IH.
Qed.

Lemma Compact_fixed (s : list string) :
  Compact s = s <-> Sorted (fun a b => a <> b) s.
Proof.
  split.
  - intros <-. apply Compact_noRepeat.
  - destruct s as [|y r]; [reflexivity|]. intros Hs. cbn [Compact].
    f_equal. now apply compactFrom_fixed.
Qed.

Lemma compactFrom_sorted (s : list string) :
  forall prev,
    StronglySorted le (prev :: s) ->
    StronglySorted lt (prev :: compactFrom prev s).
Proof.
  induction s as [|y r IH]; intros prev Hs; [repeat constructor|].
  apply StronglySorted_inv in Hs as [Hs Hall].
  apply Forall_cons in Hall as [Hy Hall].
  cbn [compactFrom]. rewrite String_eqb_decide.
  destruct (decide (y = prev)) as [->|Hne].
  - rewrite bool_decide_eq_true_2 by reflexivity. now apply IH.
  - rewrite bool_decide_eq_false_2 by assumption.
    pose proof (IH y Hs) as Hy'.
    constructor; [exact Hy'|].
    assert (Hlt : lt prev y) by (apply le_neq_lt; congruence).
    constructor; [exact Hlt|].
    apply StronglySorted_inv in Hy' as [_ Hally].
    eapply Forall_impl; [exact Hally|]. intros z Hz.
    apply le_neq_lt.
    + transitivity y; [exact Hy|exact (lt_le _ _ Hz)].
    + intros E. subst z. apply Hne.
      apply String.leb_antisym; [exact (lt_le _ _ Hz)|exact Hy].
Qed.

Lemma Compact_sorted (s : list string) :
  StronglySorted le s -> StronglySorted lt (Compact s).
Proof. destruct s as [|y r]; [constructor|apply compactFrom_sorted]. Qed.

Lemma compactFrom_snoc (s : list string) :
  forall prev x,
    last (prev :: s) <> Some x ->
    compactFrom prev (s ++ [x]) = compactFrom prev s ++ [x].
Proof.
  induction s as [|y r IH]; intros prev x Hlast.
  - cbn [app compactFrom]. rewrite String_eqb_decide.
    rewrite bool_decide_eq_false_2; [reflexivity|]. cbn in Hlast. congruence.
  - cbn [app compactFrom]. rewrite String_eqb_decide.
    assert (Hl : last (y :: r) <> Some x).
    { intros E. apply Hlast. rewrite <- E. reflexivity. }
    destruct (decide (y = prev)) as [->|Hne].
    + rewrite bool_decide_eq_true_2 by reflexivity. now apply IH.
    + rewrite bool_decide_eq_false_2 by assumption.
      cbn [app]. f_equal. now apply IH.
Qed.

Lemma StronglySorted_lt_NoDup (s : list string) :
  StronglySorted lt s -> NoDup s.
Proof.
  induction 1 as [|x s _ IH Hall]; constructor; [|exact IH].
  intros Hin. rewrite Forall_forall in Hall.
  exact (lt_irrefl x (Hall x Hin)).
Qed.

End SliceFacts.

Section AdvisoryFacts.
Import GoSlices Advisory.
Context {V : VulnLib}.

Lemma Join_None (errs : list (option goerror)) :
  Join errs = None <-> Forall (fun e => e = None) errs.
Proof.
  unfold Join. induction errs as [|[e|] errs IH]; cbn.
  - split; [constructor|reflexivity].
  - split; [discriminate|]. intros H. apply Forall_cons in H as [H _].
    discriminate.
  - rewrite Forall_cons. tauto.
Qed.

Lemma Join_Some (errs : list (option goerror)) (err : goerror) :
  Join errs = Some err ->
  exists es, err = ErrorJoin es /\ forall e, e ∈ es <-> Some e ∈ errs.
Proof.
  unfold Join. intros Hj. exists (omap id errs). split.
  - destruct (omap id errs); congruence.
  - intros e. rewrite list_elem_of_omap. split.
    + intros (x & Hx & Hid). cbn in Hid. now subst x.
    + intros He. exists (Some e). auto.
Qed.

(** X21.  [VulnerabilityIDs] returns the aliases and, when it is not
    empty, the advisory ID, and nothing else; no ID is followed by itself
    in the result, and the result is the aliases followed by the advisory
    ID as they are exactly when no ID is followed by itself there. *)
Theorem VulnerabilityIDs_content (req : Request) :
  let ids := Aliases req
             ++ (if decide (AdvisoryID req = "") then [] else [AdvisoryID req]) in
  (forall x, x ∈ VulnerabilityIDs req <-> x ∈ ids)
  /\ noRepeat (VulnerabilityIDs req)
  /\ (VulnerabilityIDs req = ids <-> noRepeat ids).
Proof.
  intros ids.
  assert (E : VulnerabilityIDs req = Compact ids).
  { unfold VulnerabilityIDs, ids. rewrite String_eqb_decide.
    destruct (decide (AdvisoryID req = "")) as [H|H].
    - rewrite bool_decide_eq_true_2 by assumption. now rewrite app_nil_r.
    - now rewrite bool_decide_eq_false_2 by assumption. }
  rewrite E. split; [|split].
  - intros x. apply elem_of_Compact.
  - apply Compact_noRepeat.
  - apply Compact_fixed.
Qed.

(** X22.  [VulnerabilityIDs] does not remove every duplicate: an advisory
    ID that is also among the aliases, but is not the last of them, is
    returned twice. *)
Theorem VulnerabilityIDs_repeats (req : Request) :
  AdvisoryID req <> "" ->
  AdvisoryID req ∈ Aliases req ->
  last (Aliases req) <> Some (AdvisoryID req) ->
  exists ids,
    VulnerabilityIDs req = ids ++ [AdvisoryID req]
    /\ AdvisoryID req ∈ ids.
Proof.
  intros Hne Hin Hlast. unfold VulnerabilityIDs.
  rewrite String_eqb_decide, bool_decide_eq_false_2 by assumption.
  destruct (Aliases req) as [|a r] eqn:Ha.
  - apply elem_of_nil in Hin. contradiction.
  - cbn [app Compact]. rewrite (compactFrom_snoc r a _ Hlast).
    exists (a :: compactFrom a r). split; [reflexivity|].
    now apply elem_of_compactFrom.
Qed.

(** The checks of [Validate], each with the error it adds. *)
Lemma Validate_checks (req : Request) :
  Validate req
  = Join ((if String.eqb (Package req) ""
           then [Some (ErrorNew "package cannot be empty")] else [])
          ++ match Join (map (fun alias => ErrorLib <$> ValidateID alias)
                           (Aliases req)) with
             | Some err => [Some err]
             | None => []
             end
          ++ (if (negb (String.eqb (AdvisoryID req) "")
                  && negb (RegexCGA (AdvisoryID req)))%bool
              then [Some (ErrorNew
                            "advisory ID must be a valid CGA ID when provided")]
              else [])
          ++ (if EventIsZero (Event req)
              then [Some (ErrorNew "event cannot be zero")] else [])
          ++ [ErrorLib <$> EventValidate (Event req)]).
Proof.
  unfold Validate.
  destruct (String.eqb (Package req) "");
    destruct (Join (map _ (Aliases req)));
    destruct (negb _ && negb _)%bool;
    destruct (EventIsZero (Event req)); reflexivity.
Qed.

Lemma elem_of_if_singleton {X : Type} (b : bool) (x y : X) :
  y ∈ (if b then [x] else []) <-> b = true /\ y = x.
Proof.
  destruct b.
  - rewrite list_elem_of_singleton. intuition congruence.
  - split; [intros H; apply elem_of_nil in H; contradiction|].
    intros [H _]. discriminate.
Qed.

Lemma Forall_if_singleton {X : Type} (P : X -> Prop) (b : bool) (x : X) :
  Forall P (if b then [x] else []) <-> (b = true -> P x).
Proof.
  destruct b.
  - rewrite Forall_singleton. tauto.
  - split; [discriminate|constructor].
Qed.

(** X23.  [Validate] accepts a request exactly when the package is named,
    every alias is a valid ID, the advisory ID is empty or a CGA ID, and
    the event is not zero and valid; on a request it rejects it returns
    the joined errors of the checks that fail, all of them: the error of
    the empty package and that of the zero event are there exactly when
    these checks fail, whatever else is wrong. *)
Theorem Validate_accepts_iff (req : Request) :
  (Validate req = None <->
   Package req <> ""
   /\ Forall (fun alias => ValidateID alias = None) (Aliases req)
   /\ (AdvisoryID req = "" \/ RegexCGA (AdvisoryID req) = true)
   /\ EventIsZero (Event req) = false
   /\ EventValidate (Event req) = None)
  /\ (forall err,
        Validate req = Some err ->
        exists es,
          err = ErrorJoin es
          /\ (ErrorNew "package cannot be empty" ∈ es <-> Package req = "")
          /\ (ErrorNew "event cannot be zero" ∈ es <->
              EventIsZero (Event req) = true)
          /\ (forall e, ErrorLib e ∈ es <-> EventValidate (Event req) = Some e)).
Proof.
  rewrite Validate_checks.
  set (aliasErrs := Join (map (fun alias => ErrorLib <$> ValidateID alias)
                            (Aliases req))).
  assert (Haliases : aliasErrs = None <->
                     Forall (fun alias => ValidateID alias = None) (Aliases req)).
  { unfold aliasErrs. rewrite Join_None, Forall_map. apply Forall_iff.
    intros alias. destruct (ValidateID alias); cbn; split; congruence. }
  assert (HaliasJoin : forall err, aliasErrs = Some err ->
                                   exists es, err = ErrorJoin es).
  { intros err Hj. apply Join_Some in Hj as (es & -> & _). eauto. }
  split.
  - rewrite Join_None, !Forall_app, !Forall_if_singleton, Forall_singleton.
    rewrite String_eqb_decide, <- Haliases.
    destruct (decide (Package req = "")) as [Hp|Hp];
      [rewrite bool_decide_eq_true_2 by assumption
      |rewrite bool_decide_eq_false_2 by assumption].
    { split; [intros (H & _); specialize (H eq_refl); discriminate|tauto]. }
    assert (Hcga : (negb (String.eqb (AdvisoryID req) "")
                    && negb (RegexCGA (AdvisoryID req)))%bool = false <->
                   AdvisoryID req = "" \/ RegexCGA (AdvisoryID req) = true).
    { rewrite String_eqb_decide.
      destruct (decide (AdvisoryID req = "")) as [Hi|Hi];
        [rewrite bool_decide_eq_true_2 by assumption
        |rewrite bool_decide_eq_false_2 by assumption];
        destruct (RegexCGA (AdvisoryID req)); cbn; intuition congruence. }
    rewrite <- Hcga.
    destruct aliasErrs as [aerr|];
      destruct (negb _ && negb _)%bool;
      destruct (EventIsZero (Event req));
      destruct (EventValidate (Event req)); cbn;
      rewrite ?Forall_nil, ?Forall_singleton;
      intuition congruence.
  - intros err Hj. apply Join_Some in Hj as (es & -> & Hes).
    exists es. split; [reflexivity|].
    assert (Hp2 : forall msg,
               Some (ErrorNew msg) ∉
                 match aliasErrs with Some err => [Some err] | None => [] end).
    { intros msg Hin. destruct aliasErrs as [aerr|] eqn:Ea.
      - apply list_elem_of_singleton in Hin.
        destruct (HaliasJoin aerr eq_refl) as [es' ->]. discriminate.
      - apply elem_of_nil in Hin. contradiction. }
    assert (Hp2' : forall e,
               Some (ErrorLib e) ∉
                 match aliasErrs with Some err => [Some err] | None => [] end).
    { intros e Hin. destruct aliasErrs as [aerr|] eqn:Ea.
      - apply list_elem_of_singleton in Hin.
        destruct (HaliasJoin aerr eq_refl) as [es' ->]. discriminate.
      - apply elem_of_nil in Hin. contradiction. }
    split; [|split].
    + rewrite Hes, !elem_of_app, !elem_of_if_singleton, list_elem_of_singleton.
      rewrite String_eqb_decide, bool_decide_eq_true.
      split; [|tauto].
      intros [[H _]|[H|[[_ H]|[[_ H]|H]]]]; try assumption; try discriminate.
      * exfalso. exact (Hp2 _ H).
      * destruct (EventValidate (Event req)); discriminate.
    + rewrite Hes, !elem_of_app, !elem_of_if_singleton, list_elem_of_singleton.
      split; [|tauto].
      intros [[_ H]|[H|[[_ H]|[[H _]|H]]]]; try assumption; try discriminate.
      * exfalso. exact (Hp2 _ H).
      * destruct (EventValidate (Event req)); discriminate.
    + intros e.
      rewrite Hes, !elem_of_app, !elem_of_if_singleton, list_elem_of_singleton.
      split.
      * intros [[_ H]|[H|[[_ H]|[[_ H]|H]]]]; try discriminate.
        -- exfalso. exact (Hp2' _ H).
        -- destruct (EventValidate (Event req)); cbn in H; congruence.
      * intros ->. right. right. right. right. reflexivity.
Qed.

(** The loop over the aliases when no lookup fails. *)
Lemma resolveEach_Ok (af : AliasFinder) (aliases : list string) :
  forall newAliases warned warned' new,
    resolveEach af aliases newAliases warned = (warned', inr new) ->
    Forall (resolvable af) aliases
    /\ warned' = warned ++ unknownFormat aliases
    /\ exists extra,
         new = newAliases ++ extra
         /\ forall x, x ∈ extra <-> exists a, a ∈ aliases /\ found af a x.
Proof.
  induction aliases as [|a rest IH]; intros acc warned warned' new.
  - cbn [resolveEach]. intros [= <- <-]. split; [constructor|].
    split; [now rewrite app_nil_r|]. exists []. split; [now rewrite app_nil_r|].
    intros x. split; [intros H; apply elem_of_nil in H; contradiction|].
    intros (a & Ha & _). apply elem_of_nil in Ha. contradiction.
  - cbn [resolveEach].
    destruct (RegexGHSA a) eqn:Eg.
    + destruct (CVEForGHSA af a) as [cve|e] eqn:Ec; [|discriminate].
      intros Hr. apply IH in Hr as (Hres & -> & extra & -> & Hex).
      split; [constructor; [unfold resolvable; rewrite Eg; eauto|exact Hres]|].
      split.
      { unfold unknownFormat. rewrite filter_cons_False; [reflexivity|].
        intros [H _]. congruence. }
      exists (cve :: extra). split; [now rewrite <- app_assoc|].
      intros x. split.
      * intros Hx. apply elem_of_cons in Hx as [->|Hx].
        -- exists a. split; [apply list_elem_of_here|]. left. auto.
        -- apply Hex in Hx as (a' & Ha' & Hf).
           exists a'. split; [now apply list_elem_of_further|exact Hf].
      * intros (a' & Ha' & Hf). apply elem_of_cons in Ha' as [->|Ha'].
        -- destruct Hf as [[_ Hf]|[Hf _]]; [|congruence].
           assert (x = cve) by congruence. subst x. apply list_elem_of_here.
        -- apply list_elem_of_further, Hex. eauto.
    + destruct (RegexCVE a) eqn:Ecve.
      * destruct (GHSAsForCVE af a) as [ghsas|e] eqn:Ec; [|discriminate].
        intros Hr. apply IH in Hr as (Hres & -> & extra & -> & Hex).
        split;
          [constructor; [unfold resolvable; rewrite Eg, Ecve; eauto|exact Hres]|].
        split.
        { unfold unknownFormat. rewrite filter_cons_False; [reflexivity|].
          intros [_ H]. congruence. }
        exists (ghsas ++ extra). split; [now rewrite <- app_assoc|].
        intros x. split.
        -- intros Hx. apply elem_of_app in Hx as [Hx|Hx].
           ++ exists a. split; [apply list_elem_of_here|]. right. eauto.
           ++ apply Hex in Hx as (a' & Ha' & Hf).
              exists a'. split; [now apply list_elem_of_further|exact Hf].
        -- intros (a' & Ha' & Hf). apply elem_of_app.
           apply elem_of_cons in Ha' as [->|Ha'].
           ++ left. destruct Hf as [[Hf _]|(_ & _ & l & Hl & Hx)]; [congruence|].
              congruence.
           ++ right. apply Hex. eauto.
      * intros Hr. apply IH in Hr as (Hres & -> & extra & -> & Hex).
        split;
          [constructor; [unfold resolvable; rewrite Eg, Ecve; exact I|exact Hres]|].
        split.
        { unfold unknownFormat. rewrite filter_cons_True by auto.
          now rewrite <- app_assoc. }
        exists extra. split; [reflexivity|].
        intros x. split.
        -- intros Hx. apply Hex in Hx as (a' & Ha' & Hf).
           exists a'. split; [now apply list_elem_of_further|exact Hf].
        -- intros (a' & Ha' & Hf). apply elem_of_cons in Ha' as [->|Ha'].
           ++ destruct Hf as [[Hf _]|(_ & Hf & _)]; congruence.
           ++ apply Hex. eauto.
Qed.

(** The loop over the aliases up to the lookup that fails. *)
Lemma resolveEach_run (af : AliasFinder) (pre : list string) :
  Forall (resolvable af) pre ->
  forall rest newAliases warned,
    exists new,
      resolveEach af (pre ++ rest) newAliases warned
      = resolveEach af rest new (warned ++ unknownFormat pre).
Proof.
  induction 1 as [|a pre Ha _ IH]; intros rest acc warned.
  - exists acc. cbn [app]. unfold unknownFormat. cbn. now rewrite app_nil_r.
  - cbn [app resolveEach]. unfold resolvable in Ha. unfold unknownFormat.
    destruct (RegexGHSA a) eqn:Eg.
    + destruct Ha as [cve ->].
      rewrite filter_cons_False by (intros [H _]; congruence). apply IH.
    + destruct (RegexCVE a) eqn:Ecve.
      * destruct Ha as [ghsas ->].
        rewrite filter_cons_False by (intros [_ H]; congruence). apply IH.
      * rewrite filter_cons_True by auto.
        destruct (IH rest acc (warned ++ [a])) as [new Hnew].
        exists new. rewrite Hnew. unfold unknownFormat.
        now rewrite <- app_assoc.
Qed.

(** X24.  The aliases of a request that [ResolveAliases] returns are in
    strictly ascending order, so none occurs twice; the package, the
    advisory ID and the event are those of the request given. *)
Theorem ResolveAliases_sorted (req req' : Request) (af : AliasFinder)
    (warned : list string) :
  ResolveAliases req af = (warned, inr req') ->
  StronglySorted lt (Aliases req')
  /\ NoDup (Aliases req')
  /\ Package req' = Package req
  /\ AdvisoryID req' = AdvisoryID req
  /\ Event req' = Event req.
Proof.
  unfold ResolveAliases.
  destruct (resolveEach af (Aliases req) [] []) as [w [err|new]];
    [discriminate|].
  intros [= <- <-]. cbn [Aliases Package AdvisoryID Event].
  assert (Hs : StronglySorted lt (Compact (Sort (Aliases req ++ new))))
    by apply Compact_sorted, Sort_sorted.
  split; [exact Hs|]. split; [now apply StronglySorted_lt_NoDup|auto].
Qed.

(** X25.  A request that [ResolveAliases] returns has the aliases it was
    given and what the finder gives for each of them, and no other: the
    CVE of an alias written as a GHSA, the GHSAs of an alias written as a
    CVE.  What the finder gives is not looked up in turn. *)
Theorem ResolveAliases_members (req req' : Request) (af : AliasFinder)
    (warned : list string) :
  ResolveAliases req af = (warned, inr req') ->
  forall x,
    x ∈ Aliases req' <->
    x ∈ Aliases req \/ exists a, a ∈ Aliases req /\ found af a x.
Proof.
  unfold ResolveAliases.
  destruct (resolveEach af (Aliases req) [] []) as [w [err|new]] eqn:Hr;
    [discriminate|].
  intros [= <- <-] x. cbn [Aliases].
  apply resolveEach_Ok in Hr as (_ & _ & extra & -> & Hex).
  cbn [app]. now rewrite elem_of_Compact, elem_of_Sort, elem_of_app, Hex.
Qed.

(** X26.  [ResolveAliases] returns a request exactly when no lookup
    fails, and then has logged a warning for each alias that is written
    neither as a GHSA nor as a CVE, in their order; otherwise it returns
    the error of the first lookup that fails, with the kind of ID and the
    alias, after the warnings for the aliases before that one. *)
Theorem ResolveAliases_outcome (req : Request) (af : AliasFinder) :
  ((exists warned req', ResolveAliases req af = (warned, inr req')) <->
   Forall (resolvable af) (Aliases req))
  /\ (forall warned req',
        ResolveAliases req af = (warned, inr req') ->
        warned = unknownFormat (Aliases req))
  /\ (forall pre a post err,
        Aliases req = pre ++ a :: post ->
        Forall (resolvable af) pre ->
        failsWith af a err ->
        ResolveAliases req af = (unknownFormat pre, inl err)).
Proof.
  split; [|split].
  - unfold ResolveAliases. split.
    + intros (warned & req' & Hr).
      destruct (resolveEach af (Aliases req) [] []) as [w [err|new]] eqn:He;
        [discriminate|].
      now apply resolveEach_Ok in He as (Hres & _).
    + intros Hres.
      destruct (resolveEach_run af (Aliases req) Hres [] [] []) as [new Hnew].
      rewrite app_nil_r in Hnew. rewrite Hnew. cbn [resolveEach]. eauto.
  - unfold ResolveAliases. intros warned req'.
    destruct (resolveEach af (Aliases req) [] []) as [w [err|new]] eqn:He;
      [discriminate|].
    intros [= <- _]. now apply resolveEach_Ok in He as (_ & -> & _).
  - intros pre a post err Hal Hpre Hfail. unfold ResolveAliases. rewrite Hal.
    destruct (resolveEach_run af pre Hpre (a :: post) [] []) as [new ->].
    cbn [resolveEach app]. unfold failsWith in Hfail.
    destruct (RegexGHSA a).
    + destruct Hfail as (e & -> & ->). reflexivity.
    + destruct (RegexCVE a); [|contradiction].
      destruct Hfail as (e & -> & ->). reflexivity.
Qed.

End AdvisoryFacts.

(* --------------------------------------------------------------------- *)
(** ** The statements on the reference libraries *)
(* --------------------------------------------------------------------- *)

#[local] Existing Instances Reference.types Reference.arch Reference.lib
  Reference.jsonlib Reference.registrylib Reference.imagelib.

(** On the reference libraries a task without overrides gets a pod on
    every architecture, with the affinity [Podspec_cases] describes. *)
Lemma Podspec_reference_default (arch mFamily : string) :
  exists pod,
    Podspec (Reference.task "" "") "img" arch mFamily "sa" "ns" = Ok pod
    /\ PodAffinity (Spec pod) =
         (if decide (Reference.ParseArchitecture arch = "arm64")
          then Some (machineFamilyAffinity "t2a")
          else if decide (mFamily = "") then None
               else Some (machineFamilyAffinity mFamily)).
Proof.
  pose proof (Podspec_cases (Reference.task "" "") "img" arch mFamily "sa" "ns")
    as HC.
  cbv zeta in HC.
  change (ParseFloat (requested CPU "2" (Reference.task "" "")))
    with (Reference.ParseFloat "2") in HC.
  change (MustParse (requested Memory "4Gi" (Reference.task "" "")))
    with (Reference.MustParse "4Gi") in HC.
  change (@ParseArchitecture Reference.arch arch)
    with (Reference.ParseArchitecture arch) in HC.
  assert (Hf : Reference.ParseFloat "2" = Val (Float64.of_Z 2))
    by (vm_compute; reflexivity).
  rewrite Hf in HC.
  assert (Hq : @MustParse _ _ Reference.lib
                 (Float64.format_f
                    (Float64.mul
                       (capped (Reference.ParseArchitecture arch) (Float64.of_Z 2))
                       packing_factor)) = Some "1.960000").
  { unfold capped. destruct (decide _); vm_compute; reflexivity. }
  rewrite Hq in HC.
  assert (Hm : Reference.MustParse "4Gi" = Some "4Gi") by (vm_compute; reflexivity).
  rewrite Hm in HC.
  destruct HC as (pod & Hp & _ & Haff). exists pod. split; assumption.
Qed.

(** C1 on the reference libraries: the override ["96"] on aarch64 and on
    amd64. *)
Lemma Podspec_cpu_request_witness :
  (exists pod rr,
      Podspec (Reference.task "96" "") "img" "aarch64" "" "sa" "ns" = Ok pod
      /\ podResources pod = [rr]
      /\ Requests rr !! "cpu" = Some "47.040000")
  /\ (exists pod rr,
        Podspec (Reference.task "96" "") "img" "amd64" "" "sa" "ns" = Ok pod
        /\ podResources pod = [rr]
        /\ Requests rr !! "cpu" = Some "94.080000").
Proof.
  split.
  - destruct (Podspec_cpu_request (Reference.task "96" "")
                "img" "aarch64" "" "sa" "ns") as (_ & Hex & H96).
    destruct (Hex (Float64.of_Z 96) "47.040000" "4Gi") as [pod Hpod];
      [vm_compute; reflexivity|vm_compute; reflexivity|vm_compute; reflexivity|].
    destruct (H96 {| CPU := "96"; Memory := "" |} pod) as (rr & Hrr & _ & _ & Hq);
      [reflexivity|reflexivity|vm_compute; reflexivity|exact Hpod|].
    exists pod, rr. split; [exact Hpod|]. split; [exact Hrr|]. exact Hq.
  - destruct (Podspec_cpu_request (Reference.task "96" "")
                "img" "amd64" "" "sa" "ns") as (_ & Hex & H96).
    destruct (Hex (Float64.of_Z 96) "94.080000" "4Gi") as [pod Hpod];
      [vm_compute; reflexivity|vm_compute; reflexivity|vm_compute; reflexivity|].
    destruct (H96 {| CPU := "96"; Memory := "" |} pod) as (rr & Hrr & _ & _ & Hq);
      [reflexivity|reflexivity|vm_compute; reflexivity|exact Hpod|].
    exists pod, rr. split; [exact Hpod|]. split; [exact Hrr|]. exact Hq.
Defined.

(** C2 as stated fails: on arm64 a pod built without any hint still
    carries the affinity constraint. *)
Lemma Podspec_affinity_iff_hint_counterexample :
  ~ (forall pod,
       Podspec (Reference.task "" "") "img" "arm64" "" "sa" "ns" = Ok pod ->
       (is_Some (PodAffinity (Spec pod)) <-> "" <> "")).
Proof.
  intros H.
  destruct (Podspec_reference_default "arm64" "") as (pod & Hp & Haff).
  destruct (H pod Hp) as [Hto _].
  apply Hto; [|reflexivity].
  rewrite Haff. eexists. reflexivity.
Qed.

(** C2 on the reference libraries: a hint given on arm64. *)
Lemma Podspec_machine_family_witness :
  exists pod,
    Podspec (Reference.task "" "") "img" "arm64" "n2" "sa" "ns" = Ok pod
    /\ PodAffinity (Spec pod)
       = Some {| RequiredNodeSelectorTerms :=
                   [ {| MatchExpressions :=
                          [ {| ReqKey := "cloud.google.com/machine-family";
                               ReqOperator := "In";
                               ReqValues := ["t2a"] |} ] |} ] |}
    /\ requiredFamilies pod = Some [["t2a"]].
Proof.
  destruct (Podspec_reference_default "arm64" "n2") as (pod & Hp & _).
  exists pod. split; [exact Hp|].
  apply (Podspec_machine_family _ _ _ _ _ _ pod Hp). reflexivity.
Defined.

(** C10 on the reference libraries: a memory override that is no
    quantity. *)
Lemma Podspec_error_only_cpu_witness :
  exists w,
    Podspec (Reference.task "4" "plenty") "img" "amd64" "" "sa" "ns" = Panic w.
Proof.
  destruct (Podspec_error_only_cpu (Reference.task "4" "plenty")
              "img" "amd64" "" "sa" "ns") as [_ Hp].
  apply (Hp (Float64.of_Z 4)); vm_compute; reflexivity.
Defined.


Lemma tasksBytes_encodes : encodeTasks Reference.sampleTasks = Val Reference.tasksBytes.
Proof. vm_compute. reflexivity. Qed.

Lemma tasksBytes_decodes : decodeTasks Reference.tasksBytes = Val Reference.sampleTasks.
Proof. vm_compute. reflexivity. Qed.

Lemma New_reference_returns (order : list string) :
  order ≡ₚ ["amd64"; "arm64"] ->
  exists idx,
    New Reference.emptyIndex Reference.sampleEntrypoints Reference.sampleTree
      Reference.emptyTree order = Ok idx.
Proof.
  intros Hperm. symmetry in Hperm.
  apply Permutation_length_2_inv in Hperm as [->| ->];
    vm_compute; eexists; reflexivity.
Qed.

(** C4 on the reference libraries: an empty base index and entrypoints
    for two architectures. *)
Lemma New_composes_each_key_witness :
  exists idx,
    New Reference.emptyIndex Reference.sampleEntrypoints Reference.sampleTree
      Reference.emptyTree ["amd64"; "arm64"] = Ok idx
    /\ length idx = size Reference.sampleEntrypoints
    /\ Forall2 (composedFor Reference.emptyIndex [] Reference.sampleEntrypoints
                  Reference.sampleTree Reference.emptyTree)
         ["amd64"; "arm64"] idx.
Proof.
  destruct (New_reference_returns ["amd64"; "arm64"]) as [idx Hidx];
    [reflexivity|].
  exists idx. split; [exact Hidx|].
  apply (New_composes_each_key Reference.emptyIndex {| Manifests := [] |}
           Reference.sampleEntrypoints Reference.sampleTree Reference.emptyTree
           ["amd64"; "arm64"] idx).
  - reflexivity.
  - vm_compute. reflexivity.
  - exact Hidx.
Defined.

(** C8 on the reference libraries: the two orders of two architectures,
    and the bytes of the layers of both. *)
Lemma New_deterministic_witness :
  let files := {| Compressed := Val ("a 420 0" +:+ nl +:+ "a/x 420 2" +:+ nl
                                     +:+ "hi" +:+ "b 420 0" +:+ nl) |} in
  let sources := {| Compressed := Val EmptyString |} in
  let amd64 :=
    {| Compressed :=
         Val ("entrypoint.sh 493 613" +:+ nl
              +:+ scriptOf Reference.sampleEntrypoint
                    [ {| Bucket := "bucket"; Mount := "/mnt";
                         OnlyDir := "dir" |} ]) |} in
  let arm64 :=
    {| Compressed :=
         Val ("entrypoint.sh 493 519" +:+ nl
              +:+ scriptOf {| Flags := []; GCSFuseMounts := [] |} []) |} in
  exists idx1 idx2,
    New Reference.emptyIndex Reference.sampleEntrypoints Reference.sampleTree
      Reference.emptyTree ["amd64"; "arm64"] = Ok idx1
    /\ New Reference.emptyIndex Reference.sampleEntrypoints Reference.sampleTree
         Reference.emptyTree ["arm64"; "amd64"] = Ok idx2
    /\ idx1 ≡ₚ idx2
    /\ (fun a => Layers (Add a)) <$> idx1
       = [Val [files; sources; amd64]; Val [files; sources; arm64]]
    /\ (fun a => Layers (Add a)) <$> idx2
       = [Val [files; sources; arm64]; Val [files; sources; amd64]].
Proof.
  intros files sources amd64 arm64.
  destruct (New_reference_returns ["amd64"; "arm64"]) as [idx1 Hidx1];
    [reflexivity|].
  destruct (New_deterministic Reference.emptyIndex Reference.sampleEntrypoints
              Reference.sampleTree Reference.emptyTree
              ["amd64"; "arm64"] ["arm64"; "amd64"] idx1)
    as [(idx2 & Hidx2 & Hperm & _) _].
  - apply perm_swap.
  - exact Hidx1.
  - exists idx1, idx2. split; [exact Hidx1|]. split; [exact Hidx2|].
    split; [exact Hperm|].
    pose proof Hidx1 as E1. pose proof Hidx2 as E2.
    vm_compute in E1, E2. injection E1 as <-. injection E2 as <-.
    split; vm_compute; reflexivity.
Defined.

(** C5 on the reference registry: a bundle with a [tasks] manifest, whose
    layer holds the document of two tasks, and an ignored one, and a bundle
    with a [runtime] manifest whose image the registry does not have. *)
Lemma Pull_tasks_and_runtime_witness :
  (exists b,
      Pull "registry.example/tasks:v1" = Ok b
      /\ Graph b = ∅
      /\ Runtime b = Repository_Digest "" ""
      /\ Tasks b = Reference.sampleTasks)
  /\ (exists b,
        Pull "registry.example/runtime" = Ok b
        /\ Graph b = ∅ /\ Tasks b = []
        /\ Runtime b = Repository_Digest "registry.example/runtime" "sha256:2222").
Proof.
  split.
  - destruct (Pull_tasks_and_runtime "registry.example/tasks:v1"
                {| Context := "registry.example/tasks"; Identifier := "v1" |}
                Reference.tasksIndex
                {| Manifests := [Reference.annotated "tasks" "1111";
                                 Reference.annotated "sbom" "3333"] |})
      as [Htasks _].
    + vm_compute. reflexivity.
    + reflexivity.
    + reflexivity.
    + destruct Htasks as [Hshape Hret].
      * repeat constructor; intros Hk; vm_compute in Hk; discriminate.
      * destruct Hret as [b Hb].
        -- discriminate.
        -- repeat constructor.
           ++ intros _. exists Reference.sampleTasks, Reference.tasksBytes.
              split; [|exact tasksBytes_decodes].
              eexists _, _, _. repeat split; reflexivity.
           ++ intros Hk. vm_compute in Hk. discriminate.
        -- exists b. split; [exact Hb|].
           destruct (Hshape b Hb) as (Hg & Hr & Ht).
           split; [exact Hg|]. split; [exact Hr|].
           assert (Hlast : lastAnnotated "tasks"
                             [Reference.annotated "tasks" "1111";
                              Reference.annotated "sbom" "3333"]
                           = Some (Reference.annotated "tasks" "1111"))
             by (vm_compute; reflexivity).
           cbn [Manifests] in Ht. rewrite Hlast in Ht.
           destruct Ht as [_ Hpin].
           apply (Hpin Reference.tasksBytes
                    (match marshalTaskItems Reference.sampleTasks with
                     | Val docs => docs
                     | Fail _ => []
                     end) Reference.sampleTasks).
           ++ eexists _, _, _. repeat split; reflexivity.
           ++ vm_compute. reflexivity.
           ++ vm_compute. reflexivity.
           ++ repeat constructor; vm_compute; congruence.
           ++ repeat constructor; intros s Hs; vm_compute in Hs;
                injection Hs as <-; vm_compute; reflexivity.
  - destruct (Pull_tasks_and_runtime "registry.example/runtime"
                {| Context := "registry.example/runtime"; Identifier := "latest" |}
                Reference.runtimeIndex
                {| Manifests := [Reference.annotated "runtime" "2222"] |})
      as [_ Hruntime].
    + vm_compute. reflexivity.
    + reflexivity.
    + reflexivity.
    + destruct (Hruntime (Reference.annotated "runtime" "2222")) as [Hset Hret].
      * vm_compute. reflexivity.
      * destruct Hret as (b & Hb & Hg & Ht).
        -- repeat constructor; intros Hk; vm_compute in Hk; discriminate.
        -- exists b. split; [exact Hb|]. split; [exact Hg|]. split; [exact Ht|].
           exact (Hset b Hb).
Defined.

(** C6 as stated fails: two bundles whose [tasks] manifests have
    different digests and the same undecodable first layer fail with one
    and the same error, the one of the decoder, which names no digest. *)
Lemma Pull_decode_error_counterexample :
  Pull "registry.example/broken-a" = Err (ErrLib "invalid character in JSON text")
  /\ Pull "registry.example/broken-b" = Err (ErrLib "invalid character in JSON text")
  /\ Hash_String (Digest (Reference.annotated "tasks" "aaaa"))
     <> Hash_String (Digest (Reference.annotated "tasks" "bbbb")).
Proof.
  split; [vm_compute; reflexivity|].
  split; [vm_compute; reflexivity|].
  vm_compute. discriminate.
Qed.

(** C6 on the reference registry: the empty index. *)
Lemma Pull_failures_witness :
  Pull "registry.example/empty" = Err (ErrNoManifests "registry.example/empty")
  /\ Pull "registry.example/unlayered"
     = Err (ErrNoGraphLayers "sha256:4444" "registry.example/unlayered").
Proof.
  split.
  - destruct (Pull_failures "registry.example/empty"
                {| Context := "registry.example/empty"; Identifier := "latest" |}
                Reference.emptyIndex {| Manifests := [] |}) as [Hempty _];
      [vm_compute; reflexivity|reflexivity|reflexivity|].
    apply Hempty. reflexivity.
  - destruct (Pull_failures "registry.example/unlayered"
                {| Context := "registry.example/unlayered"; Identifier := "latest" |}
                Reference.unlayeredIndex
                {| Manifests := [Reference.annotated "graph" "4444"] |})
      as [_ Hat]; [vm_compute; reflexivity|reflexivity|reflexivity|].
    destruct (Hat [] (Reference.annotated "graph" "4444") [] zeroBundles)
      as [Hnone _]; [reflexivity|reflexivity|].
    destruct Hnone as [Hg _].
    + exists (Reference.imageOf []). split; reflexivity.
    + apply Hg. vm_compute. reflexivity.
Defined.

(** C7 on the reference libraries: two tasks, one with every optional
    member empty. *)
Lemma tasks_layer_roundtrip_witness :
  decodeTasks Reference.tasksBytes = Val Reference.sampleTasks.
Proof.
  apply (tasks_layer_roundtrip Reference.sampleTasks Reference.tasksBytes).
  - repeat constructor; vm_compute; congruence.
  - repeat constructor; intros s Hs; vm_compute in Hs; injection Hs as <-;
      vm_compute; reflexivity.
  - intros v Hv. vm_compute in Hv. injection Hv as <-. vm_compute. reflexivity.
  - exact tasksBytes_encodes.
Defined.

(** C7 as stated fails: a task built in the year 10000 has no tasks-layer
    form, because its time has no JSON text; and a task whose package name
    is the byte FF, which starts no UTF-8 rune, is written with the
    replacement character for that byte and read back with the name
    U+FFFD (the bytes EF BF BD). *)
Lemma tasks_layer_roundtrip_counterexample :
  encodeTasks [Reference.lateTask]
  = Fail "Time.MarshalJSON: year outside of range [0,9999]"
  /\ exists bytes t',
       encodeTasks [Reference.rawTask] = Val bytes
       /\ decodeTasks bytes = Val [t']
       /\ Package t' = String (ascii_of_nat 239)
                         (String (ascii_of_nat 191)
                            (String (ascii_of_nat 189) EmptyString))
       /\ [t'] <> [Reference.rawTask].
Proof.
  split; [vm_compute; reflexivity|].
  eexists _, _. split; [vm_compute; reflexivity|].
  split; [vm_compute; reflexivity|].
  split; [reflexivity|]. vm_compute. discriminate.
Qed.

(* --------------------------------------------------------------------- *)
(** ** The further properties on examples *)
(* --------------------------------------------------------------------- *)

(** X1 on a spec with a sub-directory of two levels. *)
Lemma ParseGCSFuseMount_sound_witness :
  GoStrings.has_byte "/" "bucket" = false
  /\ ("bucket/a/b:/mnt" = "bucket" +:+ ":" +:+ "/mnt"
      \/ "bucket/a/b:/mnt" = "bucket" +:+ "/" +:+ "a/b" +:+ ":" +:+ "/mnt").
Proof.
  destruct (ParseGCSFuseMount_sound "bucket/a/b:/mnt"
              {| Bucket := "bucket"; Mount := "/mnt"; OnlyDir := "a/b" |})
    as (_ & Hs & _ & Hshape); [reflexivity|].
  split; [exact Hs|exact Hshape].
Defined.

(** X2 on a bucket with a mount. *)
Lemma ParseGCSFuseMount_trailing_slash_witness :
  ParseGCSFuseMount "bucket/:/mnt" = ParseGCSFuseMount "bucket:/mnt".
Proof.
  apply (ParseGCSFuseMount_trailing_slash "bucket" "/mnt"); reflexivity.
Defined.

(** On the reference libraries a task whose CPU override reads as [cpu] and
    whose adjusted text is a quantity gets a pod. *)
Lemma Podspec_reference_override (cpuText arch mFamily : string)
    (cpu : spec_float) (q : string) :
  cpuText <> "" ->
  Reference.ParseFloat cpuText = Val cpu ->
  Reference.MustParse
    (Float64.format_f
       (Float64.mul (capped (Reference.ParseArchitecture arch) cpu)
          packing_factor)) = Some q ->
  exists pod,
    Podspec (Reference.task cpuText "") "img" arch mFamily "sa" "ns" = Ok pod.
Proof.
  intros Hne Hf Hq.
  pose proof (Podspec_cases (Reference.task cpuText "") "img" arch mFamily
                "sa" "ns") as HC.
  cbv zeta in HC.
  assert (Hreq : requested CPU "2" (Reference.task cpuText "") = cpuText).
  { unfold requested, Reference.task. cbn.
    destruct (decide (cpuText = "")); [contradiction|reflexivity]. }
  rewrite Hreq in HC.
  change (ParseFloat cpuText) with (Reference.ParseFloat cpuText) in HC.
  rewrite Hf in HC.
  change (@ParseArchitecture Reference.arch arch)
    with (Reference.ParseArchitecture arch) in HC.
  change (MustParse (Float64.format_f
            (Float64.mul (capped (Reference.ParseArchitecture arch) cpu)
               packing_factor)))
    with (Reference.MustParse (Float64.format_f
            (Float64.mul (capped (Reference.ParseArchitecture arch) cpu)
               packing_factor))) in HC.
  rewrite Hq in HC.
  change (MustParse (requested Memory "4Gi" (Reference.task cpuText "")))
    with (Reference.MustParse "4Gi") in HC.
  assert (Hm : Reference.MustParse "4Gi" = Some "4Gi") by (vm_compute; reflexivity).
  rewrite Hm in HC.
  destruct HC as (pod & Hp & _). exists pod. exact Hp.
Qed.

(** X6 on the reference libraries: a pod for aarch64 tolerates the arm64
    taint. *)
Lemma Podspec_tolerations_witness :
  exists pod,
    Podspec (Reference.task "" "") "img" "aarch64" "" "sa" "ns" = Ok pod
    /\ {| Effect := "NoSchedule"; Key := "kubernetes.io/arch";
          Operator := "Equal"; Value := "arm64" |} ∈ Tolerations (Spec pod).
Proof.
  destruct (Podspec_reference_default "aarch64" "") as (pod & Hp & _).
  exists pod. split; [exact Hp|].
  destruct (Podspec_tolerations _ _ _ _ _ _ pod Hp) as (_ & Harm & _).
  apply Harm. reflexivity.
Defined.

(** X7 on the reference libraries: an infinite CPU count on aarch64. *)
Lemma Podspec_arm64_cap_witness :
  exists pod rr,
    Podspec (Reference.task "Inf" "") "img" "aarch64" "" "sa" "ns" = Ok pod
    /\ podResources pod = [rr]
    /\ Requests rr !! "cpu" = Some "47.040000".
Proof.
  destruct (Podspec_reference_override "Inf" "aarch64" ""
              (S754_infinity false) "47.040000") as [pod Hp];
    [discriminate|vm_compute; reflexivity|vm_compute; reflexivity|].
  destruct (Podspec_arm64_cap (Reference.task "Inf" "") "img" "aarch64" ""
              "sa" "ns" (S754_infinity false) pod)
    as (rr & q & Hrr & Hq & Hm);
    [reflexivity|vm_compute; reflexivity|reflexivity|exact Hp|].
  exists pod, rr. split; [exact Hp|]. split; [exact Hrr|].
  vm_compute in Hm. injection Hm as <-. exact Hq.
Defined.

(** X8 on the reference libraries: the override [NaN], which the reference
    quantity parser refuses. *)
Lemma Podspec_cpu_not_finite_witness :
  exists w,
    Podspec (Reference.task "NaN" "") "img" "amd64" "" "sa" "ns" = Panic w.
Proof.
  destruct (Podspec_cpu_not_finite (Reference.task "NaN" "") "img" "amd64" ""
              "sa" "ns" S754_nan) as (Hpanic & _ & _);
    [vm_compute; reflexivity|left; reflexivity|].
  apply Hpanic. vm_compute. reflexivity.
Defined.

(** X3 on a package name. *)
Lemma escapeRFC1123_shape_witness :
  String.length (escapeRFC1123 "Some_Pkg.v2") = 11%nat
  /\ noByte escaped (escapeRFC1123 "Some_Pkg.v2") = true.
Proof.
  destruct (escapeRFC1123_shape "Some_Pkg.v2") as (Hlen & _ & Hno);
    [reflexivity|].
  split; [exact Hlen|exact Hno].
Defined.

(** X4 on a name that is escaped already. *)
Lemma escapeRFC1123_fixed_witness :
  escapeRFC1123 "some-pkg-v2" = "some-pkg-v2".
Proof.
  destruct (escapeRFC1123_fixed "some-pkg-v2") as [[_ Hfix] _];
    [reflexivity|].
  apply Hfix. reflexivity.
Defined.

(** X5 on two package names. *)
Lemma escapeRFC1123_collisions_witness :
  escapeRFC1123 ("Some" +:+ "." +:+ "pkg") = escapeRFC1123 ("Some" +:+ "-" +:+ "pkg").
Proof.
  destruct (escapeRFC1123_collisions "Some" "pkg") as (_ & Hdot & _);
    [reflexivity|reflexivity|].
  exact Hdot.
Defined.

(** X9 on the tree with the files [a/x] and [b]. *)
Lemma tarAddFS_entries_witness :
  exists tw,
    tarAddFS [] Reference.sampleTree = Ok tw
    /\ tw = [] ++ entriesFrom "." Reference.sampleTree
    /\ entryNames tw = ["a"; "a/x"; "b"].
Proof.
  eexists. split; [vm_compute; reflexivity|]. split.
  - apply (tarAddFS_entries [] _ Reference.sampleTree). vm_compute. reflexivity.
  - vm_compute. reflexivity.
Defined.

(** X10 on the same tree. *)
Lemma layer_returns_iff_witness :
  exists l, layer Reference.sampleTree = Ok l.
Proof.
  eexists.
  destruct (layer_returns_iff Reference.sampleTree
              {| Compressed := Val (default EmptyString
                   (match tarBytes (entriesFrom "." Reference.sampleTree) with
                    | Val b => Some b
                    | Fail _ => None
                    end)) |}) as [[_ Hl] _].
  - eexists. reflexivity.
  - apply Hl. split; [reflexivity|].
    eexists. split; vm_compute; reflexivity.
Defined.

(** X11 on the nil entrypoint. *)
Lemma renderEntrypoint_nil_pointer_witness :
  renderEntrypoint None
  = Err (ErrLib "nil pointer evaluating *bundle.Entrypoint.GCSFuseMounts").
Proof.
  destruct (renderEntrypoint_nil_pointer None) as (_ & Herr & _).
  apply Herr. reflexivity.
Defined.

(** X12 on an entrypoint with a mount and two flags. *)
Lemma renderEntrypoint_archive_witness :
  exists l, renderEntrypoint (Some Reference.sampleEntrypoint) = Ok l.
Proof.
  eexists.
  destruct (renderEntrypoint_archive (Some Reference.sampleEntrypoint)
              {| Compressed := Val (default EmptyString
                   (match executeTemplate (Some Reference.sampleEntrypoint) with
                    | Val script =>
                        match tarBytes (scriptArchive script) with
                        | Val b => Some b
                        | Fail _ => None
                        end
                    | Fail _ => None
                    end)) |}) as [[_ Hl] _].
  apply Hl. eexists _, _. split; [reflexivity|].
  split; vm_compute; reflexivity.
Defined.

(** X13 on a base index whose only manifest has no platform. *)
Lemma New_nil_platform_panics_witness :
  exists w,
    New Reference.runtimeIndex ∅ Reference.emptyTree Reference.emptyTree []
    = Panic w.
Proof.
  apply (New_nil_platform_panics Reference.runtimeIndex
           {| Manifests := [Reference.annotated "runtime" "2222"] |}).
  - reflexivity.
  - constructor. reflexivity.
Defined.

(** X14 on the empty base index. *)
Lemma New_no_entrypoints_witness :
  New Reference.emptyIndex ∅ Reference.sampleTree Reference.emptyTree [] = Ok [].
Proof.
  apply (New_no_entrypoints Reference.emptyIndex {| Manifests := [] |}).
  - reflexivity.
  - constructor.
  - reflexivity.
  - rewrite dom_empty_L, elements_empty. reflexivity.
Defined.

(** X15 on a tree that holds a file that is not regular. *)
Lemma New_unreadable_tree_witness :
  ~ exists idx,
      New Reference.emptyIndex Reference.sampleEntrypoints Reference.sampleTree
        (Dir (Val (Reference.fileInfo 0))
           (Val [ ("dev", File (Val {| InfoSize := 0; InfoPerm := 420;
                                       InfoModTime := 0; InfoIsRegular := false;
                                       InfoSys := EmptyString |})
                               (Val EmptyString)) ]))
        ["amd64"] = Ok idx.
Proof.
  intros [idx Hidx]. revert Hidx.
  apply New_unreadable_tree.
  - discriminate.
  - right. reflexivity.
Defined.

(** X16 on a base index with a manifest for [arm64] and the key
    [aarch64]. *)
Lemma New_unparsed_key_witness :
  let desc := {| Digest := Reference.sha "5555";
                 DescPlatform := Some {| Architecture := "arm64"; OS := "linux";
                                         Variant := "v8" |};
                 DescAnnotations := ∅ |} in
  let base := Reference.indexOf [desc]
                [(Reference.sha "5555", Reference.imageOf ["base layer"])] in
  let entrypoints : gmap string (option Entrypoint) :=
    {[ "aarch64" := Some {| Flags := []; GCSFuseMounts := [] |} ]} in
  exists idx a,
    New base entrypoints Reference.emptyTree Reference.emptyTree ["aarch64"]
    = Ok idx
    /\ idx !! 0%nat = Some a
    /\ DescPlatform (AddDescriptor a)
       = Some {| Architecture := "aarch64"; OS := "linux"; Variant := "" |}.
Proof.
  intros desc base entrypoints.
  assert (Hidx : exists idx,
             New base entrypoints Reference.emptyTree Reference.emptyTree
               ["aarch64"] = Ok idx)
    by (vm_compute; eexists; reflexivity).
  destruct Hidx as [idx Hidx]. exists idx.
  destruct (New_unparsed_key base {| Manifests := [desc] |} entrypoints
              Reference.emptyTree Reference.emptyTree ["aarch64"] idx 0%nat
              "aarch64")
    as (a & c & s & e & Ha & _ & _ & _ & _ & Hplat).
  - reflexivity.
  - intros d p Hin Hp. apply list_elem_of_singleton in Hin. subst d.
    injection Hp as <-. vm_compute. discriminate.
  - exact Hidx.
  - reflexivity.
  - exists a. split; [exact Hidx|]. split; [exact Ha|exact Hplat].
Defined.

(** On the reference registry the bundle with a [runtime] manifest is
    pulled. *)
Lemma Pull_reference_runtime :
  exists b, Pull "registry.example/runtime" = Ok b.
Proof.
  rewrite (Pull_unfold "registry.example/runtime"
             {| Context := "registry.example/runtime"; Identifier := "latest" |}
             Reference.runtimeIndex
             {| Manifests := [Reference.annotated "runtime" "2222"] |});
    [|vm_compute; reflexivity|reflexivity|reflexivity].
  apply pullManifests_total; repeat constructor; intros Hk; vm_compute in Hk;
    discriminate.
Qed.

(** X17 on the reference registry: the runtime reference of a bundle with
    a [runtime] manifest. *)
Lemma Pull_last_annotated_witness :
  exists b,
    Pull "registry.example/runtime" = Ok b
    /\ Tasks b = []
    /\ Runtime b = {| DigestRepository := "registry.example/runtime";
                      DigestText := "sha256:2222" |}.
Proof.
  destruct Pull_reference_runtime as [b Hb]. exists b.
  destruct (Pull_last_annotated "registry.example/runtime"
              {| Context := "registry.example/runtime"; Identifier := "latest" |}
              Reference.runtimeIndex
              {| Manifests := [Reference.annotated "runtime" "2222"] |} b)
    as (_ & Ht & Hr);
    [vm_compute; reflexivity|reflexivity|reflexivity|exact Hb|].
  split; [exact Hb|]. split; [exact Ht|exact Hr].
Defined.

(** X18 on the reference registry: the bundle with a [tasks] manifest. *)
Lemma Pull_returns_iff_witness :
  exists b, Pull "registry.example/tasks:v1" = Ok b.
Proof.
  apply (Pull_returns_iff "registry.example/tasks:v1"
           {| Context := "registry.example/tasks"; Identifier := "v1" |}
           Reference.tasksIndex
           {| Manifests := [Reference.annotated "tasks" "1111";
                            Reference.annotated "sbom" "3333"] |});
    [vm_compute; reflexivity|reflexivity|reflexivity|].
  split; [discriminate|]. split.
  - repeat constructor; intros Hk; vm_compute in Hk; discriminate.
  - repeat constructor.
    + intros _. exists Reference.sampleTasks, Reference.tasksBytes.
      split; [|exact tasksBytes_decodes].
      eexists _, _, _. repeat split; reflexivity.
    + intros Hk. vm_compute in Hk. discriminate.
Defined.

(** X19 on a reference that does not parse. *)
Lemma Pull_library_errors_witness :
  Pull ":tag" = Err (ErrLib "could not parse reference").
Proof.
  destruct (Pull_library_errors ":tag") as (_ & Hparse & _).
  apply Hparse. vm_compute. reflexivity.
Defined.

(** X20 on the reference libraries: the pod of a task without overrides. *)
Lemma Podspec_pod_consistent_witness :
  exists pod,
    Podspec (Reference.task "" "") "img" "aarch64" "" "sa" "ns" = Ok pod
    /\ NodeSelector (Spec pod) !! "kubernetes.io/arch" = Some "arm64"
    /\ Labels pod !! "kubernetes.io/arch" = Some "arm64".
Proof.
  destruct (Podspec_reference_default "aarch64" "") as (pod & Hp & _).
  exists pod. split; [exact Hp|].
  destruct (Podspec_pod_consistent _ _ _ _ _ _ pod Hp) as ((Hsel & Hlab & _) & _).
  split; [exact Hsel|exact Hlab].
Defined.

(* --------------------------------------------------------------------- *)
(** ** The properties of requests on examples *)
(* --------------------------------------------------------------------- *)

#[local] Existing Instance Advisory.sampleLib.

(** A request with a GHSA, an ID of another kind and a CVE as aliases. *)
Lemma ResolveAliases_sample :
  Advisory.ResolveAliases
    (Advisory.sampleRequest "CGA-aaaa-bbbb-cccc"
       ["GHSA-2222-3333-4444"; "OSV-1"; "CVE-2024-0001"])
    Advisory.sampleFinder
  = (["OSV-1"],
     inr (Advisory.sampleRequest "CGA-aaaa-bbbb-cccc"
            ["CVE-2024-0001"; "GHSA-2222-3333-4444"; "OSV-1"])).
Proof. vm_compute. reflexivity. Qed.

(** X21 on a request with the same alias twice. *)
Lemma VulnerabilityIDs_content_witness :
  Advisory.noRepeat
    (Advisory.VulnerabilityIDs
       (Advisory.sampleRequest "CGA-aaaa-bbbb-cccc"
          ["CVE-2024-0001"; "CVE-2024-0001"])).
Proof.
  exact (proj1 (proj2 (VulnerabilityIDs_content
           (Advisory.sampleRequest "CGA-aaaa-bbbb-cccc"
              ["CVE-2024-0001"; "CVE-2024-0001"])))).
Defined.

(** X22 on a request whose advisory ID is its first alias. *)
Lemma VulnerabilityIDs_repeats_witness :
  exists ids,
    Advisory.VulnerabilityIDs
      (Advisory.sampleRequest "CGA-aaaa-bbbb-cccc"
         ["CGA-aaaa-bbbb-cccc"; "CVE-2024-0001"])
    = ids ++ ["CGA-aaaa-bbbb-cccc"]
    /\ "CGA-aaaa-bbbb-cccc" ∈ ids.
Proof.
  apply (VulnerabilityIDs_repeats
           (Advisory.sampleRequest "CGA-aaaa-bbbb-cccc"
              ["CGA-aaaa-bbbb-cccc"; "CVE-2024-0001"])).
  - discriminate.
  - apply list_elem_of_here.
  - cbn. discriminate.
Defined.

(** X23 on a request that is accepted. *)
Lemma Validate_accepts_iff_witness :
  Advisory.Validate
    (Advisory.sampleRequest "CGA-aaaa-bbbb-cccc"
       ["GHSA-2222-3333-4444"; "CVE-2024-0001"]) = None.
Proof.
  apply (Validate_accepts_iff
           (Advisory.sampleRequest "CGA-aaaa-bbbb-cccc"
              ["GHSA-2222-3333-4444"; "CVE-2024-0001"])).
  split; [discriminate|]. split; [repeat constructor|].
  split; [right; reflexivity|]. split; reflexivity.
Defined.

(** X24 on the request above. *)
Lemma ResolveAliases_sorted_witness :
  exists warned req',
    Advisory.ResolveAliases
      (Advisory.sampleRequest "CGA-aaaa-bbbb-cccc"
         ["GHSA-2222-3333-4444"; "OSV-1"; "CVE-2024-0001"])
      Advisory.sampleFinder = (warned, inr req')
    /\ NoDup (Advisory.Aliases req').
Proof.
  eexists _, _. split; [exact ResolveAliases_sample|].
  exact (proj1 (proj2 (ResolveAliases_sorted _ _ _ _ ResolveAliases_sample))).
Defined.

(** X25 on the request above: an alias of another kind is kept. *)
Lemma ResolveAliases_members_witness :
  exists warned req',
    Advisory.ResolveAliases
      (Advisory.sampleRequest "CGA-aaaa-bbbb-cccc"
         ["GHSA-2222-3333-4444"; "OSV-1"; "CVE-2024-0001"])
      Advisory.sampleFinder = (warned, inr req')
    /\ "OSV-1" ∈ Advisory.Aliases req'.
Proof.
  eexists _, _. split; [exact ResolveAliases_sample|].
  apply (ResolveAliases_members _ _ _ _ ResolveAliases_sample).
  left. apply list_elem_of_further, list_elem_of_here.
Defined.

(** X26 on a request with a GHSA the finder knows nothing about. *)
Lemma ResolveAliases_outcome_witness :
  Advisory.ResolveAliases
    (Advisory.sampleRequest "" ["OSV-1"; "GHSA-0000-0000-0000"])
    Advisory.sampleFinder
  = (["OSV-1"],
     inl (Advisory.ErrorResolving "GHSA" "GHSA-0000-0000-0000" "no CVE found")).
Proof.
  destruct (ResolveAliases_outcome
              (Advisory.sampleRequest "" ["OSV-1"; "GHSA-0000-0000-0000"])
              Advisory.sampleFinder) as (_ & _ & Hfail).
  apply (Hfail ["OSV-1"] "GHSA-0000-0000-0000" []).
  - reflexivity.
  - repeat constructor.
  - eexists. split; reflexivity.
Defined.

